(** * Linux automation toolkit: the [FileManager] policies

    A shallow embedding of [FileManager] from [automation_toolkit.py]
    (organize_by_extension, cleanup_empty_dirs, cleanup_old_files,
    change_permissions, find_large_files) over a model of the file-system
    calls the methods make, and the properties of the specification that
    concern them; then [SystemOperations] and [AutomationLogger] of the same
    file and [run_daily_cleanup] of [cleanup_script.py], which calls them.

    Layout: (1) the pure [pathlib] helpers, (2) the file-system tree, (3) the
    effect monad (world, local variables, exceptions), (4) the [pathlib],
    [os] and [shutil] calls, (5) the five methods and the notions their
    properties are stated with, then the system operations, the logger and
    the script, (6) the theory. *)

From Stdlib Require Import ZArith List Ascii String Bool Lia SpecFloat DecimalString.
From stdpp Require Import base option list strings gmap sorting.

Open Scope string_scope.
Open Scope list_scope.
Open Scope Z_scope.

(* ===================================================================== *)
(** ** 1. Paths ([pathlib.PurePath]) *)
(* ===================================================================== *)

(** A path is the list of its components ([PurePath.parts]), read from the
    root of the modelled tree. *)
Abbreviation path := (list string).


(** [Path.name]: the final component, [''] for the root. *)
Definition name (p : path) : string := List.last p "".

(** [Path.parent]. *)
Definition parent (p : path) : path := removelast p.

(** [str.rfind(c)]: index of the last occurrence of [c]. *)
Fixpoint rfind (c : ascii) (s : string) : option nat :=
  match s with
  | EmptyString => None
  | String a s' =>
      match rfind c s' with
      | Some i => Some (S i)
      | None => if Ascii.eqb a c then Some 0%nat else None
      end
  end.

(** [s[i:]]. *)
Fixpoint string_drop (i : nat) (s : string) : string :=
  match i, s with
  | O, _ => s
  | S i', String _ s' => string_drop i' s'
  | S _, EmptyString => EmptyString
  end.

(** [PurePath.suffix]:
<<
    name = self.name
    i = name.rfind('.')
    if 0 < i < len(name) - 1: return name[i:]
    else: return ''
>> *)
Definition suffix (p : path) : string :=
  match rfind "." (name p) with
  | Some i =>
      if (0 <? Z.of_nat i) && (Z.of_nat i <? Z.of_nat (String.length (name p)) - 1)
      then string_drop i (name p)
      else ""
  | None => ""
  end.

(** [s.lstrip('.')]: every leading dot is removed. *)
Fixpoint lstrip_dot (s : string) : string :=
  match s with
  | String a s' => if Ascii.eqb a "." then lstrip_dot s' else s
  | EmptyString => EmptyString
  end.

(** [a or b] on strings: the empty string is falsy. *)
Definition str_or (a b : string) : string :=
  match a with EmptyString => b | _ => a end.

(** Ordering of paths ([PurePath.__lt__]): the component lists are compared
    as Python compares lists, the components as Python compares [str]. *)
Fixpoint path_compare (p q : path) : comparison :=
  match p, q with
  | [], [] => Eq
  | [], _ :: _ => Lt
  | _ :: _, [] => Gt
  | a :: p', b :: q' =>
      match String.compare a b with
      | Eq => path_compare p' q'
      | c => c
      end
  end.

Definition path_le (p q : path) : Prop := path_compare p q <> Gt.
Definition path_lt (p q : path) : Prop := path_compare p q = Lt.

#[global] Instance path_le_dec p q : Decision (path_le p q).
Proof. unfold path_le. destruct (path_compare p q); [left|left|right]; congruence. Defined.

(** [sorted(paths, reverse=True)]. *)
Definition sorted_reverse (l : list path) : list path :=
  merge_sort (flip path_le) l.

(* ===================================================================== *)
(** ** 2. The file-system tree *)
(* ===================================================================== *)

(** What [os.stat] reports of an inode, plus the immutable attribute
    ([chattr +i]).  [st_mode] holds the permission bits; whether the inode is
    a regular file or a directory is the constructor of [node].  Time stamps
    are in seconds. *)
Record meta : Type := Meta {
  st_mode : Z;
  st_mtime : Z;
  st_size : Z;
  immutable : bool
}.

(** A directory lists its entries in the order [os.scandir] yields them. *)
Unset Elimination Schemes.
Inductive node : Type :=
| File (m : meta)
| Dir (m : meta) (entries : list (string * node)).
Set Elimination Schemes.

Definition node_meta (n : node) : meta :=
  match n with File m => m | Dir m _ => m end.

Definition is_dir_node (n : node) : bool :=
  match n with Dir _ _ => true | File _ => false end.

Definition is_file_node (n : node) : bool :=
  match n with File _ => true | Dir _ _ => false end.

Definition entries_of (n : node) : list (string * node) :=
  match n with Dir _ es => es | File _ => [] end.

(** First entry of a directory listing with the given name. *)
Fixpoint assoc (c : string) (es : list (string * node)) : option node :=
  match es with
  | [] => None
  | (k, v) :: es' => if String.eqb k c then Some v else assoc c es'
  end.

(** Replace the node of the entry named [c] by [g] of it. *)
Fixpoint map_entry (c : string) (g : node -> node) (es : list (string * node))
  : list (string * node) :=
  match es with
  | [] => []
  | (k, v) :: es' =>
      if String.eqb k c then (k, g v) :: es' else (k, v) :: map_entry c g es'
  end.

(** Drop the entry named [c]. *)
Fixpoint remove_entry (c : string) (es : list (string * node))
  : list (string * node) :=
  match es with
  | [] => []
  | (k, v) :: es' =>
      if String.eqb k c then remove_entry c es' else (k, v) :: remove_entry c es'
  end.

(** Path resolution. *)
Fixpoint lookup_path (p : path) (n : node) : option node :=
  match p with
  | [] => Some n
  | c :: p' =>
      match n with
      | File _ => None
      | Dir _ es =>
          match assoc c es with
          | Some ch => lookup_path p' ch
          | None => None
          end
      end
  end.

(** Rewrite the node found at [p] (nothing happens if [p] does not resolve). *)
Fixpoint update_path (p : path) (g : node -> node) (n : node) : node :=
  match p with
  | [] => g n
  | c :: p' =>
      match n with
      | File m => File m
      | Dir m es => Dir m (map_entry c (update_path p' g) es)
      end
  end.

Definition set_meta (f : meta -> meta) (n : node) : node :=
  match n with File m => File (f m) | Dir m es => Dir (f m) es end.

(** Unlink the entry [c] of the directory node. *)
Definition del_entry (c : string) (n : node) : node :=
  match n with File m => File m | Dir m es => Dir m (remove_entry c es) end.

(** Link [v] under the name [c], replacing an entry of that name. *)
Definition put_entry (c : string) (v : node) (n : node) : node :=
  match n with
  | File m => File m
  | Dir m es =>
      match assoc c es with
      | Some _ => Dir m (map_entry c (fun _ => v) es)
      | None => Dir m (es ++ [(c, v)])
      end
  end.

Definition detach (p : path) (t : node) : node :=
  update_path (parent p) (del_entry (name p)) t.

Definition attach (p : path) (v : node) (t : node) : node :=
  update_path (parent p) (put_entry (name p) v) t.

(** Directories below (and including) a node, parents before children, the
    children in listing order: what the recursive selector of [pathlib]
    ([**]) walks. *)
Fixpoint walk_dirs (base : path) (n : node) : list path :=
  match n with
  | File _ => []
  | Dir _ es =>
      base ::
      (fix go (es : list (string * node)) : list path :=
         match es with
         | [] => []
         | (k, ch) :: es' => walk_dirs (base ++ [k]) ch ++ go es'
         end) es
  end.

(** Names listed by [os.scandir]; empty if [p] is not a directory. *)
Definition listing (p : path) (t : node) : list string :=
  match lookup_path p t with
  | Some (Dir _ es) => map fst es
  | _ => []
  end.

Definition children (p : path) (t : node) : list path :=
  map (fun k => p ++ [k]) (listing p t).

(* ===================================================================== *)
(** ** 3. Exceptions, the log, the world and the effect monad *)
(* ===================================================================== *)

(** The exception classes the modelled calls raise. *)
Inductive exn : Type :=
| FileNotFoundError
| FileExistsError
| PermissionError
| NotADirectoryError
| IsADirectoryError
| OSError (errno : string)
| ShutilError
| KeyError (key : string)
| TypeError.


(** Result of a Python call: a value is returned or an exception raised. *)
Inductive outcome (A : Type) : Type :=
| Return (a : A)
| Raise (e : exn).
Arguments Return {A} a.
Arguments Raise {A} e.

(** One [logging] call: the level, the f-string as written in the source and
    the values substituted for its replacement fields, in order. *)
Inductive level : Type := DEBUG | INFO | WARNING | ERROR.

Inductive arg : Type :=
| APath (p : path)
| AStr (s : string)
| AInt (n : Z)
| AExn (e : exn).

Record LogRecord : Type := Log {
  levelname : level;
  template : string;
  args : list arg
}.

(** Values stored in the result dictionaries; [VNum] is a [float] that is a
    whole number of hundredths (what [round(x, 2)] denotes). *)
Inductive value : Type :=
| VInt (n : Z)
| VList (l : list string)
| VStr (s : string)
| VNum (hundredths : Z).

Abbreviation Dict := (gmap string value).

(** What a method can read and change outside its own variables: the tree,
    the records emitted to the logger, and the clock [time.time()] reads. *)
Record World : Type := mkWorld {
  fs : node;
  log : list LogRecord;
  clock : Z
}.

(** A computation over the world and the local variable [L] of the running
    method (the dictionary or list it builds).  A raised exception keeps the
    state reached: Python does not roll back. *)
Definition M (L A : Type) : Type := World * L -> outcome A * (World * L).

Definition ret {L A} (a : A) : M L A := fun s => (Return a, s).

Definition bind {L A B} (m : M L A) (k : A -> M L B) : M L B :=
  fun s =>
    match m s with
    | (Return a, s') => k a s'
    | (Raise e, s') => (Raise e, s')
    end.

Definition raise {L A} (e : exn) : M L A := fun s => (Raise e, s).

(** [try: body  except Exception as e: handler e]. *)
Definition try_except {L A} (body : M L A) (handler : exn -> M L A) : M L A :=
  fun s =>
    match body s with
    | (Return a, s') => (Return a, s')
    | (Raise e, s') => handler e s'
    end.

Declare Scope monad_scope.
Delimit Scope monad_scope with monad.
Notation "x <- c1 ;; c2" := (bind c1 (fun x => c2))
  (at level 100, c1 at next level, right associativity) : monad_scope.
Notation "c1 ;; c2" := (bind c1 (fun _ => c2))
  (at level 100, right associativity) : monad_scope.
Open Scope monad_scope.

(** [for x in xs: body x]. *)
Fixpoint for_each {L A} (xs : list A) (body : A -> M L unit) : M L unit :=
  match xs with
  | [] => ret tt
  | x :: xs' => body x ;; for_each xs' body
  end.

(** [if b: body]. *)
Definition when {L} (b : bool) (body : M L unit) : M L unit :=
  if b then body else ret tt.

(** Reading and rewriting the tree, and a call that may fail. *)
Definition read_fs {L A} (f : node -> A) : M L A :=
  fun s => (Return (f (fs (fst s))), s).

Definition call_fs {L} (f : node -> outcome unit * node) : M L unit :=
  fun s =>
    let (o, t') := f (fs (fst s)) in
    (o, (mkWorld t' (log (fst s)) (clock (fst s)), snd s)).

Definition time_time {L} : M L Z :=
  fun s => (Return (clock (fst s)), s).

Definition emit {L} (lv : level) (tpl : string) (a : list arg) : M L unit :=
  fun s =>
    (Return tt,
     (mkWorld (fs (fst s)) (log (fst s) ++ [Log lv tpl a]) (clock (fst s)), snd s)).

Definition get_local {L} : M L L := fun s => (Return (snd s), s).

Definition put_local {L} (l : L) : M L unit := fun s => (Return tt, (fst s, l)).

(** [results[key] += 1]. *)
Definition incr (key : string) : M Dict unit :=
  d <- get_local ;;
  match d !! key with
  | Some (VInt n) => put_local (<[key := VInt (n + 1)]> d)
  | Some _ => raise TypeError
  | None => raise (KeyError key)
  end.

(** [results[key].append(s)]. *)
Definition append_to (key : string) (s : string) : M Dict unit :=
  d <- get_local ;;
  match d !! key with
  | Some (VList l) => put_local (<[key := VList (l ++ [s])]> d)
  | Some _ => raise TypeError
  | None => raise (KeyError key)
  end.

(** [results[key]] where an integer is stored. *)
Definition get_int (key : string) : M Dict Z :=
  d <- get_local ;;
  match d !! key with
  | Some (VInt n) => ret n
  | Some _ => raise TypeError
  | None => raise (KeyError key)
  end.

(** A method call: the body runs on fresh local variables, which are dropped
    when it returns. *)
Definition method {L A} (init : L) (body : M L A) (w : World) : outcome A * World :=
  let (o, s) := body (w, init) in (o, fst s).

(* ===================================================================== *)
(** ** 4. The calls into [pathlib], [os] and [shutil]

    The toolkit writes its log under [/var/log]: it runs as the superuser, for
    whom the permission bits of [st_mode] restrict nothing.  What the kernel
    still refuses the superuser is modelled: touching an inode that carries
    the immutable attribute, or linking and unlinking the entries of an
    immutable directory ([PermissionError]), besides the structural errors
    (missing path, existing path, non-empty directory).  Symbolic and hard
    links are not modelled, and no directory lists a name twice. *)
(* ===================================================================== *)

Definition okay (t : node) : outcome unit * node := (Return tt, t).
Definition fail (e : exn) (t : node) : outcome unit * node := (Raise e, t).

(** [Path.exists], [Path.is_dir], [Path.is_file]. *)
Definition path_exists (p : path) (t : node) : bool :=
  match lookup_path p t with Some _ => true | None => false end.

Definition is_dir (p : path) (t : node) : bool :=
  match lookup_path p t with Some (Dir _ _) => true | _ => false end.

Definition is_file (p : path) (t : node) : bool :=
  match lookup_path p t with Some (File _) => true | _ => false end.

Definition immutable_at (p : path) (t : node) : bool :=
  match lookup_path p t with
  | Some n => immutable (node_meta n)
  | None => false
  end.

(** [path / component] ([PurePath.__truediv__]); an empty component leaves
    the path as it is. *)
Definition joinpath (p : path) (c : string) : path :=
  match c with EmptyString => p | _ => p ++ [c] end.

(** [Path.glob('*')]: the entries of the directory, none if it is not one. *)
Definition glob_star (p : path) (t : node) : list path := children p t.

(** [Path.rglob('.')]: the pattern is [**] alone, which selects the directory
    itself and every directory below it. *)
Definition rglob_dot (p : path) (t : node) : list path :=
  match lookup_path p t with
  | Some n => walk_dirs p n
  | None => []
  end.

(** [Path.rglob('*')]: the entries of each directory [**] selects.  The
    generator is consumed while the loop body runs; the bodies that consume
    it (unlink a file, chmod, stat) neither add nor remove a directory, so
    the paths it yields are those of the tree at the start of the loop. *)
Definition rglob_star (p : path) (t : node) : list path :=
  flat_map (fun d => children d t) (rglob_dot p t).

(** The inode a new directory gets: mode [0o777] under the usual umask
    [0o022]. *)
Definition new_dir (now : Z) : node := Dir (Meta 493 now 4096 false) [].

(** [os.mkdir(p)]. *)
Definition os_mkdir (now : Z) (p : path) (t : node) : outcome unit * node :=
  match lookup_path p t with
  | Some _ => fail FileExistsError t
  | None =>
      match lookup_path (parent p) t with
      | None => fail FileNotFoundError t
      | Some (File _) => fail NotADirectoryError t
      | Some (Dir m _) =>
          if immutable m then fail PermissionError t
          else okay (attach p (new_dir now) t)
      end
  end.

(** [Path.mkdir(exist_ok=True)]:
<<
    try: os.mkdir(self, mode)
    except FileNotFoundError: raise            # parents is False
    except OSError:
        if not exist_ok or not self.is_dir(): raise
>> *)
Definition mkdir_exist_ok (now : Z) (p : path) (t : node) : outcome unit * node :=
  match os_mkdir now p t with
  | (Return tt, t') => (Return tt, t')
  | (Raise FileNotFoundError, t') => (Raise FileNotFoundError, t')
  | (Raise e, t') => if is_dir p t' then okay t' else (Raise e, t')
  end.

(** [os.rmdir(p)]. *)
Definition os_rmdir (p : path) (t : node) : outcome unit * node :=
  match lookup_path p t with
  | None => fail FileNotFoundError t
  | Some (File _) => fail NotADirectoryError t
  | Some (Dir m es) =>
      match es with
      | _ :: _ => fail (OSError "ENOTEMPTY") t
      | [] =>
          match p with
          | [] => fail (OSError "EBUSY") t
          | _ :: _ =>
              if immutable m || immutable_at (parent p) t
              then fail PermissionError t
              else okay (detach p t)
          end
      end
  end.

(** [os.unlink(p)]. *)
Definition os_unlink (p : path) (t : node) : outcome unit * node :=
  match lookup_path p t with
  | None => fail FileNotFoundError t
  | Some (Dir _ _) => fail IsADirectoryError t
  | Some (File m) =>
      if immutable m || immutable_at (parent p) t
      then fail PermissionError t
      else okay (detach p t)
  end.

(** [os.chmod(p, mode)]: the permission bits are the low twelve bits. *)
Definition os_chmod (p : path) (mode : Z) (t : node) : outcome unit * node :=
  match lookup_path p t with
  | None => fail FileNotFoundError t
  | Some n =>
      if immutable (node_meta n) then fail PermissionError t
      else okay (update_path p
                   (set_meta (fun m => Meta (Z.land mode 4095) (st_mtime m)
                                            (st_size m) (immutable m))) t)
  end.

(** [Path.stat()]. *)
Definition path_stat (p : path) (t : node) : outcome meta :=
  match lookup_path p t with
  | Some n => Return (node_meta n)
  | None => Raise FileNotFoundError
  end.

(** [list(Path.iterdir())]. *)
Definition iterdir (p : path) (t : node) : outcome (list path) :=
  match lookup_path p t with
  | Some (Dir _ _) => Return (children p t)
  | Some (File _) => Raise NotADirectoryError
  | None => Raise FileNotFoundError
  end.

(** [os.rename(src, dst)]. *)
Definition os_rename (src dst : path) (t : node) : outcome unit * node :=
  match lookup_path src t with
  | None => fail FileNotFoundError t
  | Some n =>
      if decide (src = dst) then okay t
      else if decide (src = []) then fail (OSError "EBUSY") t
      else
        match lookup_path (parent dst) t with
        | None => fail FileNotFoundError t
        | Some (File _) => fail NotADirectoryError t
        | Some (Dir pm _) =>
            if immutable (node_meta n) || immutable_at (parent src) t || immutable pm
            then fail PermissionError t
            else if bool_decide (src `prefix_of` dst) then fail (OSError "EINVAL") t
            else
              match lookup_path dst t, n with
              | Some (Dir _ _), File _ => fail IsADirectoryError t
              | Some (File _), Dir _ _ => fail NotADirectoryError t
              | Some (Dir _ (_ :: _)), Dir _ _ => fail (OSError "ENOTEMPTY") t
              | Some d, _ =>
                  if immutable (node_meta d) then fail PermissionError t
                  else okay (attach dst n (detach src t))
              | None, _ => okay (attach dst n (detach src t))
              end
        end
  end.

(** [shutil.copy2(src, dst)] of a regular file: the data, then the mode and
    the time stamps, are copied; the immutable attribute is not. *)
Definition shutil_copy2 (src dst : path) (t : node) : outcome unit * node :=
  let dst := if is_dir dst t then dst ++ [name src] else dst in
  match lookup_path src t with
  | None => fail FileNotFoundError t
  | Some (Dir _ _) => fail IsADirectoryError t
  | Some (File m) =>
      let copy := File (Meta (st_mode m) (st_mtime m) (st_size m) false) in
      if decide (src = dst) then fail ShutilError t
      else
        match lookup_path dst t with
        | Some (Dir _ _) => fail IsADirectoryError t
        | Some (File m') =>
            if immutable m' then fail PermissionError t
            else okay (attach dst copy t)
        | None =>
            match lookup_path (parent dst) t with
            | None => fail FileNotFoundError t
            | Some (File _) => fail NotADirectoryError t
            | Some (Dir pm _) =>
                if immutable pm then fail PermissionError t
                else okay (attach dst copy t)
            end
        end
  end.

(** [shutil.move(src, dst)]:
<<
    real_dst = dst
    if os.path.isdir(dst):
        if _samefile(src, dst): os.rename(src, dst); return
        real_dst = os.path.join(dst, _basename(src))
        if os.path.exists(real_dst): raise Error(...)
    try: os.rename(src, real_dst)
    except OSError:
        ...
        else: copy_function(src, real_dst); os.unlink(src)
>>
    The source is a regular file wherever the toolkit calls it (under
    [is_file()]); for a directory source only the rename is modelled, not
    the copy of the tree that would follow its failure. *)
Definition shutil_move (src dst : path) (t : node) : outcome unit * node :=
  if is_dir dst t && bool_decide (src = dst) then os_rename src dst t
  else
    let real_dst := if is_dir dst t then dst ++ [name src] else dst in
    if is_dir dst t && path_exists real_dst t then fail ShutilError t
    else
      match os_rename src real_dst t with
      | (Return tt, t') => (Return tt, t')
      | (Raise e, t') =>
          if is_dir src t' then (Raise e, t')
          else
            match shutil_copy2 src real_dst t' with
            | (Return tt, t'') => os_unlink src t''
            | (Raise e', t'') => (Raise e', t'')
            end
      end.

(** [round(x, 2)] of the quotient [num / den] ([den] positive), as a number
    of hundredths: Python rounds the exact value, a tie to the even
    neighbour. *)
Definition round_half_even (num den : Z) : Z :=
  let q := num / den in
  let r := num mod den in
  if 2 * r <? den then q
  else if den <? 2 * r then q + 1
  else if Z.even q then q else q + 1.


(** Lifting the calls into the monad. *)
Definition call_fs_at {L} (f : Z -> node -> outcome unit * node) : M L unit :=
  fun s => call_fs (f (clock (fst s))) s.

Definition query_fs {L A} (f : node -> outcome A) : M L A :=
  fun s => (f (fs (fst s)), s).

(* ===================================================================== *)
(** ** 5. [FileManager] *)
(* ===================================================================== *)

(** Body of the loop of [organize_by_extension] (one [file_path]). *)
Definition organize_entry (source_path file_path : path) : M Dict unit :=
  isf <- read_fs (is_file file_path) ;;
  when isf (
    let ext := str_or (suffix file_path) "no_extension" in
    let ext_dir := joinpath source_path (lstrip_dot ext) in
    call_fs_at (fun now => mkdir_exist_ok now ext_dir) ;;
    try_except (
      call_fs (shutil_move file_path (joinpath ext_dir (name file_path))) ;;
      incr "organized" ;;
      emit INFO "Organized: {file_path.name} -> {ext}"
           [AStr (name file_path); AStr ext] ;;
      append_to "details" ("Moved " +:+ name file_path +:+ " to " +:+ ext +:+ "/"))
    (fun e =>
      incr "errors" ;;
      emit ERROR "Failed to organize {file_path.name}: {e}"
           [AStr (name file_path); AExn e])).

(** [FileManager.organize_by_extension(source_dir)]. *)
Definition organize_by_extension (source_dir : path) : World -> outcome Dict * World :=
  method ({[ "organized" := VInt 0; "errors" := VInt 0; "details" := VList [] ]} : Dict) (
    emit INFO "Starting file organization in {source_dir}" [APath source_dir] ;;
    let source_path := source_dir in
    found <- read_fs (path_exists source_path) ;;
    if negb found then
      emit ERROR "Source directory does not exist: {source_dir}" [APath source_dir] ;;
      get_local
    else
      try_except (
        files <- read_fs (glob_star source_path) ;;
        for_each files (organize_entry source_path))
      (fun e =>
        emit ERROR "File organization failed: {e}" [AExn e] ;;
        incr "errors") ;;
      organized <- get_int "organized" ;;
      errors <- get_int "errors" ;;
      emit INFO "File organization complete: {results['organized']} organized, {results['errors']} errors"
           [AInt organized; AInt errors] ;;
      get_local).

(** Body of the loop of [cleanup_empty_dirs] (one [dir_path]); the test is
    [dir_path.is_dir() and not list(dir_path.iterdir())]. *)
Definition remove_if_empty (dir_path : path) : M Dict unit :=
  isd <- read_fs (is_dir dir_path) ;;
  empty <- (if isd
            then (l <- query_fs (iterdir dir_path) ;;
                  ret (match l with [] => true | _ :: _ => false end))
            else ret false) ;;
  when empty (
    try_except (
      call_fs (os_rmdir dir_path) ;;
      incr "removed" ;;
      emit INFO "Removed empty directory: {dir_path}" [APath dir_path])
    (fun e =>
      incr "errors" ;;
      emit WARNING "Could not remove {dir_path}: {e}" [APath dir_path; AExn e])).

(** [FileManager.cleanup_empty_dirs(target_dir, recursive=True)]. *)
Definition cleanup_empty_dirs (target_dir : path) (recursive : bool)
  : World -> outcome Dict * World :=
  method ({[ "removed" := VInt 0; "errors" := VInt 0 ]} : Dict) (
    emit INFO "Cleaning empty directories in {target_dir}" [APath target_dir] ;;
    let target_path := target_dir in
    found <- read_fs (path_exists target_path) ;;
    if negb found then
      emit ERROR "Target directory does not exist: {target_dir}" [APath target_dir] ;;
      get_local
    else
      try_except (
        when recursive (
          dirs <- read_fs (rglob_dot target_path) ;;
          for_each (sorted_reverse dirs) remove_if_empty))
      (fun e =>
        emit ERROR "Cleanup failed: {e}" [AExn e] ;;
        incr "errors") ;;
      removed <- get_int "removed" ;;
      emit INFO "Cleanup complete: {results['removed']} directories removed"
           [AInt removed] ;;
      get_local).

(** Body of the loop of [cleanup_old_files] (one [file_path]). *)
Definition delete_if_old (cutoff_time : Z) (file_path : path) : M Dict unit :=
  isf <- read_fs (is_file file_path) ;;
  when isf (
    st <- query_fs (path_stat file_path) ;;
    let file_time := st_mtime st in
    when (file_time <? cutoff_time) (
      try_except (
        call_fs (os_unlink file_path) ;;
        incr "deleted" ;;
        emit INFO "Deleted old file: {file_path}" [APath file_path] ;;
        append_to "details" ("Deleted " +:+ name file_path))
      (fun e =>
        incr "errors" ;;
        emit WARNING "Could not delete {file_path}: {e}" [APath file_path; AExn e]))).

(** [FileManager.cleanup_old_files(target_dir, days=30)]. *)
Definition cleanup_old_files (target_dir : path) (days : Z)
  : World -> outcome Dict * World :=
  method ({[ "deleted" := VInt 0; "errors" := VInt 0; "details" := VList [] ]} : Dict) (
    emit INFO "Cleaning files older than {days} days in {target_dir}"
         [AInt days; APath target_dir] ;;
    let target_path := target_dir in
    now <- time_time ;;
    let cutoff_time := now - days * 86400 in
    found <- read_fs (path_exists target_path) ;;
    if negb found then
      emit ERROR "Target directory does not exist: {target_dir}" [APath target_dir] ;;
      get_local
    else
      try_except (
        files <- read_fs (rglob_star target_path) ;;
        for_each files (delete_if_old cutoff_time))
      (fun e =>
        emit ERROR "Old file cleanup failed: {e}" [AExn e] ;;
        incr "errors") ;;
      deleted <- get_int "deleted" ;;
      errors <- get_int "errors" ;;
      emit INFO "Old file cleanup complete: {results['deleted']} deleted, {results['errors']} errors"
           [AInt deleted; AInt errors] ;;
      get_local).

(** Body of the recursive loop of [change_permissions] (one [item]). *)
Definition chmod_item (mode : Z) (item : path) : M Dict unit :=
  try_except (
    call_fs (os_chmod item mode) ;;
    incr "changed" ;;
    emit DEBUG "Changed permissions: {item}" [APath item])
  (fun e =>
    incr "errors" ;;
    emit WARNING "Could not change {item}: {e}" [APath item; AExn e]).

(** [FileManager.change_permissions(target_path, mode, recursive=False)]. *)
Definition change_permissions (target_path : path) (mode : Z) (recursive : bool)
  : World -> outcome Dict * World :=
  method ({[ "changed" := VInt 0; "errors" := VInt 0 ]} : Dict) (
    emit INFO "Changing permissions for {target_path} to {oct(mode)}"
         [APath target_path; AInt mode] ;;
    let target := target_path in
    found <- read_fs (path_exists target) ;;
    if negb found then
      emit ERROR "Target does not exist: {target_path}" [APath target_path] ;;
      get_local
    else
      try_except (
        isd <- read_fs (is_dir target) ;;
        if recursive && isd then
          items <- read_fs (rglob_star target) ;;
          for_each items (chmod_item mode)
        else
          call_fs (os_chmod target mode) ;;
          incr "changed" ;;
          emit INFO "Changed permissions for {target_path}" [APath target_path])
      (fun e =>
        emit ERROR "Permission change failed: {e}" [AExn e] ;;
        incr "errors") ;;
      get_local).




(* --------------------------------------------------------------------- *)
(** *** The mutating policies, their results and their log records *)
(* --------------------------------------------------------------------- *)

(** The four methods that change the tree, with their arguments. *)
Inductive policy : Type :=
| OrganizeByExtension (source_dir : path)
| CleanupEmptyDirs (target_dir : path) (recursive : bool)
| CleanupOldFiles (target_dir : path) (days : Z)
| ChangePermissions (target_path : path) (mode : Z) (recursive : bool).

Definition run (pol : policy) : World -> outcome Dict * World :=
  match pol with
  | OrganizeByExtension d => organize_by_extension d
  | CleanupEmptyDirs d r => cleanup_empty_dirs d r
  | CleanupOldFiles d days => cleanup_old_files d days
  | ChangePermissions p m r => change_permissions p m r
  end.

(** The root or target a policy is invoked on. *)
Definition root_of (pol : policy) : path :=
  match pol with
  | OrganizeByExtension d => d
  | CleanupEmptyDirs d _ => d
  | CleanupOldFiles d _ => d
  | ChangePermissions p _ _ => p
  end.

(** The key of the success counter in the dictionary a policy returns. *)
Definition success_key (pol : policy) : string :=
  match pol with
  | OrganizeByExtension _ => "organized"
  | CleanupEmptyDirs _ _ => "removed"
  | CleanupOldFiles _ _ => "deleted"
  | ChangePermissions _ _ _ => "changed"
  end.

(** The dictionary a policy starts from. *)
Definition fresh_results (pol : policy) : Dict :=
  match pol with
  | OrganizeByExtension _ =>
      {[ "organized" := VInt 0; "errors" := VInt 0; "details" := VList [] ]}
  | CleanupEmptyDirs _ _ => {[ "removed" := VInt 0; "errors" := VInt 0 ]}
  | CleanupOldFiles _ _ =>
      {[ "deleted" := VInt 0; "errors" := VInt 0; "details" := VList [] ]}
  | ChangePermissions _ _ _ => {[ "changed" := VInt 0; "errors" := VInt 0 ]}
  end.

(** [results[key]] of a returned dictionary, when it is an integer. *)
Definition counter (key : string) (o : outcome Dict) : option Z :=
  match o with
  | Return d => match d !! key with Some (VInt n) => Some n | _ => None end
  | Raise _ => None
  end.

(** [results[key]] of a returned dictionary, when it is a list. *)
Definition listed (key : string) (o : outcome Dict) : option (list string) :=
  match o with
  | Return d => match d !! key with Some (VList l) => Some l | _ => None end
  | Raise _ => None
  end.

(** The records a run appended to the log. *)
Definition emitted (w w' : World) : list LogRecord :=
  drop (length (log w)) (log w').

Definition has_template (tpls : list string) (r : LogRecord) : bool :=
  bool_decide (template r ∈ tpls).

(** Messages of the per-entry records: the mutation went through ... *)
Definition success_templates : list string :=
  [ "Organized: {file_path.name} -> {ext}";
    "Removed empty directory: {dir_path}";
    "Deleted old file: {file_path}";
    "Changed permissions: {item}";
    "Changed permissions for {target_path}" ].

(** ... or raised (the record names the entry and the exception). *)
Definition failure_templates : list string :=
  [ "Failed to organize {file_path.name}: {e}";
    "Could not remove {dir_path}: {e}";
    "Could not delete {file_path}: {e}";
    "Could not change {item}: {e}" ].

(** Messages of the records of an exception that ended the iteration. *)
Definition abort_templates : list string :=
  [ "File organization failed: {e}";
    "Cleanup failed: {e}";
    "Old file cleanup failed: {e}";
    "Permission change failed: {e}" ].

Definition entry_successes (l : list LogRecord) : list LogRecord :=
  filter (fun r => has_template success_templates r = true) l.

Definition entry_failures (l : list LogRecord) : list LogRecord :=
  filter (fun r => has_template failure_templates r = true) l.

Definition operation_failures (l : list LogRecord) : list LogRecord :=
  filter (fun r => has_template abort_templates r = true) l.

(** Sample inodes for the examples. *)
Definition plain (mtime size : Z) : node := File (Meta 420 mtime size false).
Definition folder (es : list (string * node)) : node := Dir (Meta 493 0 4096 false) es.
Definition world_of (t : node) (now : Z) : World := mkWorld t [] now.

(* --------------------------------------------------------------------- *)
(** *** Notions used to state the properties *)
(* --------------------------------------------------------------------- *)

Definition len {A} (l : list A) : Z := Z.of_nat (length l).

(** The two shapes of result dictionary. *)
Definition has_details (pol : policy) : bool :=
  match pol with
  | OrganizeByExtension _ | CleanupOldFiles _ _ => true
  | CleanupEmptyDirs _ _ | ChangePermissions _ _ _ => false
  end.

Definition results_of (pol : policy) (ok err : Z) (det : list string) : Dict :=
  if has_details pol
  then {[ success_key pol := VInt ok; "errors" := VInt err; "details" := VList det ]}
  else {[ success_key pol := VInt ok; "errors" := VInt err ]}.

(** The per-entry records of a log, and the entry a record is about (the
    first replacement field of its message). *)
Definition entry_records (l : list LogRecord) : list LogRecord :=
  filter (fun r => has_template (success_templates ++ failure_templates) r = true) l.

Definition subject (r : LogRecord) : arg :=
  match args r with a :: _ => a | [] => AStr "" end.

(** The entries a policy iterates over, as its log records name them, in the
    order of iteration. *)
Definition scanned (pol : policy) (t : node) : list arg :=
  match pol with
  | OrganizeByExtension d => map (fun p => AStr (name p)) (glob_star d t)
  | CleanupEmptyDirs d r =>
      if r then map APath (sorted_reverse (rglob_dot d t)) else []
  | CleanupOldFiles d _ => map APath (rglob_star d t)
  | ChangePermissions p _ r =>
      if r && is_dir p t then map APath (rglob_star p t) else [APath p]
  end.

(** Loop invariant of the four policies: the counters are the numbers of
    records appended to the log since [log0], the details list has one line
    per success, and the per-entry records name, in order, entries among
    those [seen] so far, each at most once. *)
Definition tallied (pol : policy) (log0 : list LogRecord) (seen : list arg)
    (s : World * Dict) : Prop :=
  exists new det,
    log (fst s) = log0 ++ new /\
    snd s = results_of pol (len (entry_successes new))
              (len (entry_failures new) + len (operation_failures new)) det /\
    (if has_details pol then length det = length (entry_successes new) else det = []) /\
    sublist (map subject (entry_records new)) seen.

(** The class of a log record. *)
Inductive record_class : Type := CSuccess | CFailure | CAbort | COther.

Definition classify (r : LogRecord) : record_class :=
  if has_template success_templates r then CSuccess
  else if has_template failure_templates r then CFailure
  else if has_template abort_templates r then CAbort
  else COther.

(** The state a method starts its loop from. *)
Definition started (pol : policy) (w : World) (r : LogRecord) : World * Dict :=
  (mkWorld (fs w) (log w ++ [r]) (clock w), fresh_results pol).







(** The effect of a loop that isolates the failure of each entry, on the
    tree and the two counters: [guard] selects the entries, [mutate] is the
    guarded call. *)
Definition sweep_step (guard : path -> node -> bool)
    (mutate : path -> node -> outcome unit * node)
    (acc : node * Z * Z) (x : path) : node * Z * Z :=
  let '(t, ok, err) := acc in
  if guard x t then
    match mutate x t with
    | (Return _, t') => (t', ok + 1, err)
    | (Raise _, t') => (t', ok, err + 1)
    end
  else acc.

Definition sweep (guard : path -> node -> bool)
    (mutate : path -> node -> outcome unit * node)
    (xs : list path) (acc : node * Z * Z) : node * Z * Z :=
  fold_left (sweep_step guard mutate) xs acc.

(** The guards of the three loops. *)
Definition is_empty_dir (x : path) (t : node) : bool :=
  match lookup_path x t with Some (Dir _ []) => true | _ => false end.

Definition is_old_file (cutoff_time : Z) (x : path) (t : node) : bool :=
  match lookup_path x t with
  | Some (File m) => st_mtime m <? cutoff_time
  | _ => false
  end.

Definition always (x : path) (t : node) : bool := true.

(** How two paths lie to each other. *)
Inductive path_relation (p q : path) : Prop :=
| PathBelow (r : path) : q = p ++ r -> path_relation p q
| PathAbove (c : string) (r : path) : p = q ++ c :: r -> path_relation p q
| PathBeside (k : path) (x y : string) (p' q' : path) :
    p = k ++ x :: p' -> q = k ++ y :: q' -> x <> y -> path_relation p q.

(** The tree after one step of a sweep. *)
Definition tree_step (guard : path -> node -> bool)
    (mutate : path -> node -> outcome unit * node) (t : node) (x : path) : node :=
  if guard x t then snd (mutate x t) else t.

(** What is left of a chain [a/y/z] of directories: all three ([3]), [a/y]
    ([2]), [a] alone and empty ([1]), nothing ([0]). *)
Definition chain_left (a : path) (y z : string) (ma mb mc : meta)
    (k : nat) (t : node) : Prop :=
  match k with
  | 0%nat => lookup_path a t = None
  | 1%nat => lookup_path a t = Some (Dir ma [])
  | 2%nat => lookup_path a t = Some (Dir ma [(y, Dir mb [])])
  | 3%nat => lookup_path a t = Some (Dir ma [(y, Dir mb [(z, Dir mc [])])])
  | _ => False
  end.

Definition chain_at_most (a : path) (y z : string) (ma mb mc : meta)
    (k : nat) (t : node) : Prop :=
  exists j, (j <= k)%nat /\ chain_left a y z ma mb mc j t /\
            (j <> 0%nat -> immutable_at (parent a) t = false).
(** Sample tree: a chain of empty directories beside a directory that holds
    a file. *)
Definition tree_chain : node :=
  folder [("work", folder [("a", folder [("b", folder [("c", folder [])])]);
                           ("z", folder [("f", plain 1 1)])])].

(** What [os.chmod] does to an inode. *)
Definition chmod_meta (mode : Z) (m : meta) : meta :=
  Meta (Z.land mode 4095) (st_mtime m) (st_size m) (immutable m).

(** [os.stat] of a path, if it resolves. *)
Definition stat_at (p : path) (t : node) : option meta :=
  node_meta <$> lookup_path p t.



(** Sample tree: one file whose time stamp is the cutoff of the first run. *)
Definition tree_aged : node := folder [("work", folder [("f", plain 0 10)])].

(** The same tree and log, read at another time. *)
Definition at_time (now : Z) (w : World) : World := mkWorld (fs w) (log w) now.


(** The bucket of an entry named [k]: [(suffix or 'no_extension').lstrip('.')]. *)
Definition bucket (k : string) : string :=
  lstrip_dot (str_or (suffix [k]) "no_extension").

(** One iteration of [organize_by_extension] that raises nothing, on the
    tree; [None] if the bucket cannot be made or the move fails. *)
Definition organize_step (now : Z) (source_path : path) (t : node) (x : path)
  : option node :=
  if is_file x t then
    match mkdir_exist_ok now (joinpath source_path (bucket (name x))) t with
    | (Return _, t1) =>
        match shutil_move x (joinpath (joinpath source_path (bucket (name x))) (name x)) t1 with
        | (Return _, t2) => Some t2
        | (Raise _, _) => None
        end
    | (Raise _, _) => None
    end
  else Some t.

Fixpoint organize_fold (now : Z) (source_path : path) (xs : list path) (t : node)
  : option node :=
  match xs with
  | [] => Some t
  | x :: xs' =>
      match organize_step now source_path t x with
      | Some t' => organize_fold now source_path xs' t'
      | None => None
      end
  end.
(** Where a run of [organize_by_extension] on [source_path] puts the file
    named [k] of the root of the tree [t]: under its bucket, and inside the
    directory of the file's own name if the bucket holds one
    ([shutil.move] into a directory). *)
Definition destination (source_path : path) (t : node) (k : string) : path :=
  if is_dir (source_path ++ [bucket k; k]) t
  then source_path ++ [bucket k; k; k]
  else source_path ++ [bucket k; k].

(** Loop invariant of [organize_by_extension] on the tree: [t0] is the tree
    at the start, [done] the names gone through, [t] the tree reached. *)
Definition organized (d : path) (t0 : node) (done : list string) (t : node) : Prop :=
  is_dir d t = true /\
  (forall k m, lookup_path (d ++ [k]) t = Some (File m) ->
     lookup_path (d ++ [k]) t0 = Some (File m)) /\
  (forall k m, lookup_path (d ++ [k]) t0 = Some (File m) ->
     lookup_path (d ++ [k]) t = Some (File m) \/
     (is_file (d ++ [k]) t = false /\
      lookup_path (destination d t0 k) t = Some (File m))) /\
  (forall k, k ∈ done -> is_file (d ++ [k]) t = false) /\
  (forall j, is_dir (d ++ [j]) t0 = true -> is_dir (d ++ [j]) t = true) /\
  (forall k b, is_file (d ++ [k]) t = true ->
     is_dir (d ++ [b; k]) t = is_dir (d ++ [b; k]) t0) /\
  (forall j, is_dir (d ++ [j]) t0 = true ->
     (forall k, is_file (d ++ [k]) t0 = true -> bucket k <> j) ->
     lookup_path (d ++ [j]) t = lookup_path (d ++ [j]) t0) /\
  (forall j c r,
     (forall k, is_file (d ++ [k]) t0 = true -> bucket k = j -> k <> c) ->
     lookup_path (d ++ j :: c :: r) t = lookup_path (d ++ j :: c :: r) t0).
(** Sample tree: two files and a directory in [work]. *)
Definition tree_mixed : node :=
  folder [("work", folder [("data.CSV", plain 5 10); ("report", plain 6 20);
                           ("sub", folder [("c.txt", plain 1 1)])])].

(** Sample tree: an immutable empty directory beside an empty one. *)
Definition tree_kept : node :=
  folder [("work", folder [("keep", Dir (Meta 493 0 4096 true) []); ("gone", folder [])])].

(** The files [cleanup_old_files] unlinks, and those whose [unlink] is
    refused, among the files older than the cutoff. *)
Definition deleted_as_old (cutoff_time : Z) (t : node) (q : path) : bool :=
  match lookup_path q t with
  | Some (File m) =>
      (st_mtime m <? cutoff_time)
      && negb (immutable m) && negb (immutable_at (parent q) t)
  | _ => false
  end.

Definition refused_as_old (cutoff_time : Z) (t : node) (q : path) : bool :=
  match lookup_path q t with
  | Some (File m) =>
      (st_mtime m <? cutoff_time) && (immutable m || immutable_at (parent q) t)
  | _ => false
  end.

(** The line [organize_by_extension] adds to [details] for the file [k]:
    [f"Moved {file_path.name} to {ext}/"], where [ext] still has its dot. *)
Definition moved_line (k : string) : string :=
  "Moved " +:+ k +:+ " to " +:+ str_or (suffix [k]) "no_extension" +:+ "/".

(** Sample tree: a file of the root and a file of the same name already in
    its bucket. *)
Definition tree_twice : node :=
  folder [("work", folder [("a.txt", plain 7 70);
                           ("txt", folder [("a.txt", plain 1 10)])])].

(* ===================================================================== *)
(** ** 5b. [SystemOperations], [AutomationLogger] and the cleanup script *)
(* ===================================================================== *)

(** *** Strings and numbers as Python has them *)

(** A character stands for a code point below 256.  [str.isspace] holds of
    the code points 9 to 13, 28 to 32, 133 and 160 among these. *)
Definition is_space (a : ascii) : bool :=
  let n := Z.of_nat (nat_of_ascii a) in
  ((9 <=? n) && (n <=? 13)) || ((28 <=? n) && (n <=? 32))
  || (n =? 133) || (n =? 160).

(** [s.lstrip()], [s.rstrip()] and [s.strip()]. *)
Fixpoint lstrip (s : string) : string :=
  match s with
  | String a s' => if is_space a then lstrip s' else s
  | EmptyString => EmptyString
  end.



(** [s.split(sep)] for a separator of one character. *)
Fixpoint split_on (sep : ascii) (s : string) : list string :=
  match s with
  | EmptyString => [EmptyString]
  | String a s' =>
      if Ascii.eqb a sep then EmptyString :: split_on sep s'
      else match split_on sep s' with
           | h :: t => String a h :: t
           | [] => [String a EmptyString]
           end
  end.

(** Truth value of a string: the empty string is falsy. *)
Definition truthy (s : string) : bool :=
  match s with EmptyString => false | _ => true end.

(** [s * n]. *)
Fixpoint str_repeat (s : string) (n : nat) : string :=
  match n with O => EmptyString | S n' => s +:+ str_repeat s n' end.

(** [str(n)] of an integer. *)
Definition str_of_int (n : Z) : string := NilZero.string_of_int (Z.to_int n).

(** A [float] is a binary64 number. *)
Abbreviation float := spec_float.

(** [a / b] on integers: the quotient correctly rounded, [ZeroDivisionError]
    ([None]) if [b] is zero.  (A quotient beyond the range of binary64, for
    which Python raises [OverflowError], does not arise from sizes in
    bytes.) *)
Definition exact_float (n : Z) : float :=
  match n with
  | Z0 => S754_zero false
  | Zpos p => S754_finite false p 0
  | Zneg p => S754_finite true p 0
  end.

Definition quotient (a b : Z) : float :=
  SFdiv 53 1024 (exact_float a) (exact_float b).

Definition int_truediv (a b : Z) : option float :=
  if b =? 0 then None else Some (quotient a b).

(** [x * n] of a float and an integer. *)
Definition float_mul_int (x : float) (n : Z) : float :=
  SFmul 53 1024 x (binary_normalize 53 1024 n 0 false).

(** [f"{x:.1f}"]: the exact value rounded to tenths, a tie to the even
    neighbour. *)
Definition format_1f (x : float) : string :=
  match x with
  | S754_zero s => if s then "-0.0" else "0.0"
  | S754_infinity s => if s then "-inf" else "inf"
  | S754_nan => "nan"
  | S754_finite s m e =>
      let tenths :=
        if 0 <=? e then Zpos m * 2 ^ e * 10
        else round_half_even (Zpos m * 10) (2 ^ (- e)) in
      (if s then "-" else "") +:+ str_of_int (tenths / 10) +:+ "."
      +:+ str_of_int (tenths mod 10)
  end.

(** Values of the dictionaries [SystemOperations] returns. *)
Inductive pyvalue : Type :=
| PBool (b : bool)
| PInt (n : Z)
| PStr (s : string)
| PFloat (x : float)
| PLines (l : list string).

Abbreviation PDict := (gmap string pyvalue).

(** Truth value ([if v:]). *)
Definition pytruth (v : pyvalue) : bool :=
  match v with
  | PBool b => b
  | PInt n => negb (n =? 0)
  | PStr s => truthy s
  | PFloat x => match x with S754_zero _ => false | _ => true end
  | PLines l => match l with [] => false | _ => true end
  end.

(** *** What the operating system decides *)

(** How a spawned shell ends: it exits, or cannot be run. *)
Inductive shell_result : Type :=
| Exited (returncode : Z) (stdout stderr : string)
| SpawnError (e : exn).

(** The part of the environment the model leaves open: what a shell command
    does (to the tree, and what it prints and returns), what [statvfs]
    reports, the working directory as [str(Path.cwd())] gives it, the local
    date of a clock reading as [strftime('%Y%m%d')] writes it, and the text
    of exceptions. *)
Record OS : Type := mkOS {
  shell : string -> node -> shell_result * node;
  disk_usage : path -> node -> outcome (Z * Z * Z);
  getcwd : node -> outcome string;
  today : Z -> string;
  exn_str : exn -> string;
  called_process_str : string -> Z -> string
}.

(** [results[key] = v] and [results[key]]. *)
Definition set_item {V} (key : string) (v : V) : M (gmap string V) unit :=
  d <- get_local ;; put_local (<[key := v]> d).

Definition get_item {V} (key : string) : M (gmap string V) V :=
  d <- get_local ;;
  match d !! key with
  | Some v => ret v
  | None => raise (KeyError key)
  end.

(** *** [SystemOperations] *)




(** Running a method of another object from a method: its world is the
    caller's, its local variables are its own. *)
Definition call {L A} (f : World -> outcome A * World) : M L A :=
  fun s => let (o, w') := f (fst s) in (o, (w', snd s)).


(** [d[key]] of a dictionary held in a variable. *)
Definition subscript {L V} (d : gmap string V) (key : string) : M L V :=
  match d !! key with
  | Some v => ret v
  | None => raise (KeyError key)
  end.


(** [SystemOperations.check_disk_usage(path='/')].  The [try] body can fail
    in two places: in [shutil.disk_usage], and in the division by
    [stat.total] when that is zero, after the first three entries have been
    assigned ([ZeroDivisionError], whose text is [division by zero]). *)
Definition check_disk_usage (os : OS) (p : path) : World -> outcome PDict * World :=
  method ({[ "total" := PInt 0; "used" := PInt 0; "free" := PInt 0;
             "percent" := PInt 0; "success" := PBool false ]} : PDict) (
    emit INFO "Checking disk usage for {path}" [APath p] ;;
    t <- read_fs id ;;
    match disk_usage os p t with
    | Raise e => emit ERROR "Failed to check disk usage: {e}" [AExn e]
    | Return (total, used, free) =>
        set_item "total" (PFloat (quotient total (1024 ^ 3))) ;;
        set_item "used" (PFloat (quotient used (1024 ^ 3))) ;;
        set_item "free" (PFloat (quotient free (1024 ^ 3))) ;;
        match int_truediv used total with
        | None =>
            emit ERROR "Failed to check disk usage: {e}" [AStr "division by zero"]
        | Some ratio =>
            set_item "percent" (PFloat (float_mul_int ratio 100)) ;;
            set_item "success" (PBool true) ;;
            emit INFO "Disk usage: {result['percent']:.1f}% used ({result['used']:.1f}GB/{result['total']:.1f}GB)"
                 [AStr (format_1f (float_mul_int ratio 100));
                  AStr (format_1f (quotient used (1024 ^ 3)));
                  AStr (format_1f (quotient total (1024 ^ 3)))]
        end
    end ;;
    get_local).

(** *** [logging] and [AutomationLogger] *)

(** [Path.mkdir(parents=True, exist_ok=True)]:
<<
    try: os.mkdir(self, mode)
    except FileNotFoundError:
        if not parents or self.parent == self: raise
        self.parent.mkdir(parents=True, exist_ok=True)
        self.mkdir(mode, parents=False, exist_ok=exist_ok)
    except OSError:
        if not exist_ok or not self.is_dir(): raise
>>
    The recursion goes up the path, so the length of the path bounds it. *)
Fixpoint mkdir_parents_from (depth : nat) (now : Z) (p : path) (t : node)
  : outcome unit * node :=
  match os_mkdir now p t with
  | (Return tt, t') => (Return tt, t')
  | (Raise FileNotFoundError, t') =>
      match p, depth with
      | [], _ => (Raise FileNotFoundError, t')
      | _ :: _, O => (Raise FileNotFoundError, t')
      | _ :: _, S depth' =>
          match mkdir_parents_from depth' now (parent p) t' with
          | (Return tt, t1) => mkdir_exist_ok now p t1
          | (Raise e, t1) => (Raise e, t1)
          end
      end
  | (Raise e, t') => if is_dir p t' then okay t' else (Raise e, t')
  end.

Definition mkdir_parents (now : Z) (p : path) (t : node) : outcome unit * node :=
  mkdir_parents_from (length p) now p t.

(** [open(p, 'a')], as [logging.FileHandler] does when it is made: the file
    is created empty if it is not there. *)
Definition open_append (now : Z) (p : path) (t : node) : outcome unit * node :=
  match lookup_path p t with
  | Some (Dir _ _) => fail IsADirectoryError t
  | Some (File m) => if immutable m then fail PermissionError t else okay t
  | None =>
      match lookup_path (parent p) t with
      | None => fail FileNotFoundError t
      | Some (File _) => fail NotADirectoryError t
      | Some (Dir pm _) =>
          if immutable pm then fail PermissionError t
          else okay (attach p (File (Meta 420 now 0 false)) t)
      end
  end.

(** Where a handler writes. *)
Inductive sink : Type :=
| ToFile (p : path)
| ToStderr.

Record Handler : Type := mkHandler {
  h_sink : sink;
  h_level : level;
  h_format : string;
  h_datefmt : string
}.

Definition levelno (l : level) : Z :=
  match l with DEBUG => 10 | INFO => 20 | WARNING => 30 | ERROR => 40 end.

(** What lives as long as the process: the logger named
    ['automation_toolkit'] ([logging.getLogger] returns the same object for
    the same name), that is its level ([None]: not set) and its handlers, and
    what has been printed ([print] calls, as the text and the values put in
    it). *)
Inductive printed : Type :=
| Printed (text : string) (counters : list value) (numbers : list pyvalue).

Record Process : Type := mkProcess {
  logger_level : option level;
  handlers : list Handler;
  stdout : list printed
}.

(** The sinks a record reaches ([Logger.handle], [Logger.callHandlers]): a
    level that is not set means [WARNING], the root logger's; with no handler
    at all the handler of last resort writes warnings and errors to
    [stderr].  (Nothing configures the root logger.) *)
Definition deliveries (p : Process) (r : LogRecord) : list sink :=
  let effective := match logger_level p with Some l => l | None => WARNING end in
  if levelno (levelname r) <? levelno effective then []
  else
    match handlers p with
    | [] => if levelno WARNING <=? levelno (levelname r) then [ToStderr] else []
    | hs =>
        map h_sink
          (filter (fun h => (levelno (h_level h) <=? levelno (levelname r)) = true) hs)
    end.

Definition formatter_fmt : string :=
  "%(asctime)s - %(name)s - %(levelname)s - [%(funcName)s:%(lineno)d] - %(message)s".

Definition formatter_datefmt : string := "%Y-%m-%d %H:%M:%S".

(** The name of the day's log file. *)
Definition log_file (os : OS) (log_dir : path) (now : Z) : path :=
  joinpath log_dir ("automation_" +:+ today os now +:+ ".log").

(** [AutomationLogger.__init__(log_dir)].  The records the handlers write
    are kept in the [log] of the world; the size and the modification time
    of the log file in the tree do not follow them. *)
Definition automation_logger (os : OS) (log_dir : path) : M Process unit :=
  call_fs_at (fun now => mkdir_parents now log_dir) ;;
  g <- get_local ;;
  put_local (mkProcess (Some DEBUG) (handlers g) (stdout g)) ;;
  now <- time_time ;;
  call_fs_at (fun now => open_append now (log_file os log_dir now)) ;;
  let fh := mkHandler (ToFile (log_file os log_dir now)) DEBUG
              formatter_fmt formatter_datefmt in
  let ch := mkHandler ToStderr INFO formatter_fmt formatter_datefmt in
  g <- get_local ;;
  put_local (mkProcess (logger_level g) (handlers g ++ [fh]) (stdout g)) ;;
  g <- get_local ;;
  put_local (mkProcess (logger_level g) (handlers g ++ [ch]) (stdout g)).

(** The default [log_dir], ["/var/log/automation"]. *)
Definition default_log_dir : path := ["var"; "log"; "automation"].

(** *** [cleanup_script.run_daily_cleanup] *)

(** What the dictionary the script returns holds. *)
Inductive operation : Type :=
| Counters (d : Dict)
| Numbers (d : PDict).

Inductive report_value : Type :=
| RBool (b : bool)
| RStr (s : string)
| ROperations (ops : list (string * operation)).

Abbreviation Report := (gmap string report_value).

(** [d[key] = v] on a dictionary kept in the order of insertion. *)
Fixpoint assign {V} (key : string) (v : V) (d : list (string * V)) : list (string * V) :=
  match d with
  | [] => [(key, v)]
  | (k, x) :: d' => if String.eqb k key then (k, v) :: d' else (k, x) :: assign key v d'
  end.

(** A statement on the process state, and one on the local variables. *)
Definition global {G V A} (m : M G A) : M (G * V) A :=
  fun s =>
    let '(o, (w', g')) := m (fst s, fst (snd s)) in
    (o, (w', (g', snd (snd s)))).

Definition local {G V A} (m : M V A) : M (G * V) A :=
  fun s =>
    let '(o, (w', v')) := m (fst s, snd (snd s)) in
    (o, (w', (fst (snd s), v'))).

(** [print(text)]. *)
Definition print {V} (text : string) (counters : list value) (numbers : list pyvalue)
  : M (Process * V) unit :=
  fun s =>
    let g := fst (snd s) in
    (Return tt,
     (fst s,
      (mkProcess (logger_level g) (handlers g)
         (stdout g ++ [Printed text counters numbers]),
       snd (snd s)))).

(** [results['operations'][key] = v]. *)
Definition record_operation (key : string) (v : operation) : M Report unit :=
  ops <- get_item "operations" ;;
  match ops with
  | ROperations l => set_item "operations" (ROperations (assign key v l))
  | _ => raise TypeError
  end.

(** A function of the script: the process state outlives the call, the local
    variables do not. *)
Definition procedure {V A} (init : V) (body : M (Process * V) A)
  : World * Process -> outcome A * (World * Process) :=
  fun s =>
    let '(o, (w', (g', _))) := body (fst s, (snd s, init)) in
    (o, (w', g')).

Definition rule : string := str_repeat "=" 80.

(** The newline character. *)
Definition newline : string := String "010" EmptyString.

(** The report printed when [log_output] is true. *)
Definition print_report {V} (cleanup_result empty_dir_result : Dict) (disk_usage : PDict)
  : M (Process * V) unit :=
  print (newline +:+ rule) [] [] ;;
  print "CLEANUP REPORT" [] [] ;;
  print rule [] [] ;;
  deleted <- subscript cleanup_result "deleted" ;;
  print "Old files deleted: {cleanup_result['deleted']}" [deleted] [] ;;
  errors <- subscript cleanup_result "errors" ;;
  print "Errors during deletion: {cleanup_result['errors']}" [errors] [] ;;
  removed <- subscript empty_dir_result "removed" ;;
  print "Empty directories removed: {empty_dir_result['removed']}" [removed] [] ;;
  errors <- subscript empty_dir_result "errors" ;;
  print "Errors during removal: {empty_dir_result['errors']}" [errors] [] ;;
  success <- subscript disk_usage "success" ;;
  when (pytruth success) (
    percent <- subscript disk_usage "percent" ;;
    used <- subscript disk_usage "used" ;;
    total <- subscript disk_usage "total" ;;
    print "Disk usage: {disk_usage['percent']:.1f}% ({disk_usage['used']:.1f}GB/{disk_usage['total']:.1f}GB)"
          [] [percent; used; total]) ;;
  print (rule +:+ newline) [] [].

(** The body of the [try] of [run_daily_cleanup]. *)
Definition daily_operations (os : OS) (target_dir : path) (log_output : bool)
  : M (Process * Report) unit :=
  emit INFO "Starting old file cleanup..." [] ;;
  cleanup_result <- call (cleanup_old_files target_dir 30) ;;
  local (record_operation "old_file_cleanup" (Counters cleanup_result)) ;;
  emit INFO "Starting empty directory cleanup..." [] ;;
  empty_dir_result <- call (cleanup_empty_dirs target_dir true) ;;
  local (record_operation "empty_dir_cleanup" (Counters empty_dir_result)) ;;
  emit INFO "Checking system health..." [] ;;
  disk_usage <- call (check_disk_usage os []) ;;
  local (record_operation "disk_usage" (Numbers disk_usage)) ;;
  emit INFO "Generating cleanup report..." [] ;;
  when log_output (print_report cleanup_result empty_dir_result disk_usage) ;;
  emit INFO "Daily cleanup completed successfully" [].

(** [run_daily_cleanup(target_dir, log_output=True)]. *)
Definition run_daily_cleanup (os : OS) (target_dir : path) (log_output : bool)
  : World * Process -> outcome Report * (World * Process) :=
  procedure (∅ : Report) (
    global (automation_logger os default_log_dir) ;;
    emit INFO rule [] ;;
    emit INFO "Daily Cleanup Started - Target: {target_dir}" [APath target_dir] ;;
    emit INFO rule [] ;;
    let target_path := target_dir in
    found <- read_fs (path_exists target_path) ;;
    if negb found then
      emit ERROR "Target directory does not exist: {target_dir}" [APath target_dir] ;;
      ret ({[ "success" := RBool false; "error" := RStr "Directory not found" ]} : Report)
    else
      cwd <- query_fs (getcwd os) ;;
      local (put_local ({[ "success" := RBool true; "timestamp" := RStr cwd;
                           "operations" := ROperations [] ]} : Report)) ;;
      try_except (daily_operations os target_dir log_output)
        (fun e =>
          emit ERROR "Cleanup operation failed: {e}" [AExn e] ;;
          local (set_item "success" (RBool false)) ;;
          local (set_item "error" (RStr (exn_str os e)))) ;;
      local get_local).

(** The tree [t'] is [t] with entries added on the way to [p] at most:
    nothing changes off that way, no file changes, no directory goes. *)
Definition adds_along (p : path) (t t' : node) : Prop :=
  (forall q, ~ q `prefix_of` p -> lookup_path q t' = lookup_path q t) /\
  (forall q m, lookup_path q t = Some (File m) -> lookup_path q t' = Some (File m)) /\
  (forall q, is_dir q t = true -> is_dir q t' = true).

(** [n] loggers made one after the other in one process. *)
Definition automation_loggers (os : OS) (log_dir : path) (n : nat) : M Process unit :=
  for_each (replicate n tt) (fun _ => automation_logger os log_dir).

(** Sample environment: every command prints two lines and exits with
    status 1; the disk is a quarter full. *)
Definition sample_os : OS :=
  mkOS (fun _ t => (Exited 1 ("root 1 init" +:+ String "010" "" +:+ "  " +:+ String "010" "") "", t))
       (fun _ _ => Return (100 * 1024 ^ 3, 25 * 1024 ^ 3, 75 * 1024 ^ 3))
       (fun _ => Return "/root")
       (fun _ => "20240101")
       (fun _ => "error")
       (fun _ _ => "Command returned non-zero exit status.").

(** A process that has not touched [logging] yet. *)
Definition fresh_process : Process := mkProcess None [] [].

(** Sample tree: a directory [tmp] that holds old files only. *)
Definition tree_stale : node :=
  folder [("tmp", folder [("a.log", plain 10 5); ("b.log", plain 20 7)]);
          ("home", folder [("notes", plain 30 9)])].


(* ===================================================================== *)
(** ** 6. Theory *)
(* ===================================================================== *)

(* --------------------------------------------------------------------- *)
(** *** The monad, loops and dictionaries *)
(* --------------------------------------------------------------------- *)

Lemma for_each_app {L A} (xs ys : list A) (body : A -> M L unit) (s : World * L) :
  for_each (xs ++ ys) body s =
  match for_each xs body s with
  | (Return _, s') => for_each ys body s'
  | (Raise e, s') => (Raise e, s')
  end.
Proof.
  revert s. induction xs as [|x xs IH]; intros s; simpl; [reflexivity|].
  unfold bind. destruct (body x s) as [[[]|e] s']; [apply IH|reflexivity].
Qed.

(** An invariant indexed by the entries gone through holds, when the loop
    ends, of a prefix of the list: of all of it unless the body raised. *)
Lemma for_each_invariant {L A} (I : list A -> World * L -> Prop)
    (body : A -> M L unit) (xs : list A) :
  (forall pre x s, I pre s -> I (pre ++ [x]) (snd (body x s))) ->
  forall pre s, I pre s ->
    exists done, done `prefix_of` xs /\
      I (pre ++ done) (snd (for_each xs body s)) /\
      (forall u, fst (for_each xs body s) = Return u -> done = xs).
Proof.
  intros Hstep. induction xs as [|x xs IH]; intros pre s HI; simpl.
  - exists []. rewrite app_nil_r. repeat split; auto using prefix_nil.
  - unfold bind. pose proof (Hstep pre x s HI) as H1.
    destruct (body x s) as [[[]|e] s']; simpl in *.
    + destruct (IH (pre ++ [x]) s' H1) as (done & Hp & Hd & Hr).
      exists (x :: done). rewrite <- app_assoc in Hd. simpl in Hd.
      repeat split; auto.
      * apply prefix_cons, Hp.
      * intros u Hu. f_equal. eauto.
    + exists [x]. repeat split; auto.
      * apply prefix_cons, prefix_nil.
      * discriminate.
Qed.

Lemma success_key_not_errors pol : success_key pol <> "errors".
Proof. destruct pol; discriminate. Qed.

Section dict_ops.
Context (pol : policy) (w : World) (ok err : Z) (det : list string).

Lemma incr_success :
  incr (success_key pol) (w, results_of pol ok err det)
  = (Return tt, (w, results_of pol (ok + 1) err det)).
Proof. destruct pol; reflexivity. Qed.

Lemma incr_errors :
  incr "errors" (w, results_of pol ok err det)
  = (Return tt, (w, results_of pol ok (err + 1) det)).
Proof. destruct pol; reflexivity. Qed.

Lemma append_details (s : string) :
  has_details pol = true ->
  append_to "details" s (w, results_of pol ok err det)
  = (Return tt, (w, results_of pol ok err (det ++ [s]))).
Proof. destruct pol; try discriminate; reflexivity. Qed.

Lemma get_success :
  get_int (success_key pol) (w, results_of pol ok err det)
  = (Return ok, (w, results_of pol ok err det)).
Proof. destruct pol; reflexivity. Qed.

Lemma get_errors :
  get_int "errors" (w, results_of pol ok err det)
  = (Return err, (w, results_of pol ok err det)).
Proof. destruct pol; reflexivity. Qed.

Lemma counter_success :
  counter (success_key pol) (Return (results_of pol ok err det)) = Some ok.
Proof. destruct pol; reflexivity. Qed.

Lemma counter_errors :
  counter "errors" (Return (results_of pol ok err det)) = Some err.
Proof. destruct pol; reflexivity. Qed.

Lemma listed_details :
  has_details pol = true ->
  listed "details" (Return (results_of pol ok err det)) = Some det.
Proof. destruct pol; try discriminate; reflexivity. Qed.

(** A result dictionary holds a list under no key but [details]. *)
Lemma listed_results_of (k : string) (l : list string) :
  listed k (Return (results_of pol ok err det)) = Some l ->
  k = "details" /\ l = det /\ has_details pol = true.
Proof.
  unfold listed.
  destruct (results_of pol ok err det !! k) as [[]|] eqn:E; try discriminate.
  intros [= ->]. unfold results_of in E.
  destruct (decide (k = success_key pol)) as [->|N1].
  { destruct pol; discriminate E. }
  destruct (decide (k = "errors")) as [->|N2].
  { destruct pol; discriminate E. }
  destruct (has_details pol).
  - rewrite lookup_insert_ne, lookup_insert_ne in E by congruence.
    apply lookup_singleton_Some in E as [<- [= ->]]. auto.
  - rewrite lookup_insert_ne in E by congruence.
    apply lookup_singleton_Some in E as [<- ?]. congruence.
Qed.
End dict_ops.

Lemma fresh_results_of pol : fresh_results pol = results_of pol 0 0 [].
Proof. destruct pol; reflexivity. Qed.

(* --------------------------------------------------------------------- *)
(** *** Counters and log records *)
(* --------------------------------------------------------------------- *)

Lemma filter_snoc_bool {A} (f : A -> bool) (l : list A) (x : A) :
  filter (fun r => f r = true) (l ++ [x])
  = filter (fun r => f r = true) l ++ (if f x then [x] else []).
Proof.
  rewrite filter_app. f_equal. rewrite filter_cons, filter_nil.
  destruct (f x) eqn:E; case_decide; congruence.
Qed.

Lemma len_snoc {A} (l : list A) x : len (l ++ [x]) = len l + 1.
Proof. unfold len. rewrite length_app. simpl. lia. Qed.

Lemma emitted_app w w' new : log w' = log w ++ new -> emitted w w' = new.
Proof. intros H. unfold emitted. rewrite H. apply drop_app_length. Qed.

Lemma templates_apart :
  Forall (fun t => (t ∉ failure_templates) /\ (t ∉ abort_templates)) success_templates /\
  Forall (fun t => t ∉ abort_templates) failure_templates.
Proof. split; apply (bool_decide_unpack _); vm_compute; exact I. Qed.

Lemma has_template_app l1 l2 r :
  has_template (l1 ++ l2) r = has_template l1 r || has_template l2 r.
Proof.
  unfold has_template. apply eq_true_iff_eq.
  rewrite orb_true_iff, !bool_decide_eq_true, elem_of_app. tauto.
Qed.

Lemma classify_cases r :
  match classify r with
  | CSuccess => has_template success_templates r = true /\
                has_template failure_templates r = false /\
                has_template abort_templates r = false
  | CFailure => has_template success_templates r = false /\
                has_template failure_templates r = true /\
                has_template abort_templates r = false
  | CAbort => has_template success_templates r = false /\
              has_template failure_templates r = false /\
              has_template abort_templates r = true
  | COther => has_template success_templates r = false /\
              has_template failure_templates r = false /\
              has_template abort_templates r = false
  end.
Proof.
  destruct templates_apart as [A1 A2]. rewrite Forall_forall in A1, A2.
  unfold classify, has_template.
  repeat case_bool_decide; repeat split; try reflexivity; exfalso;
    match goal with
    | H : _ ∈ success_templates, H' : _ ∈ failure_templates |- _ =>
        exact (proj1 (A1 _ H) H')
    | H : _ ∈ success_templates, H' : _ ∈ abort_templates |- _ =>
        exact (proj2 (A1 _ H) H')
    | H : _ ∈ failure_templates, H' : _ ∈ abort_templates |- _ =>
        exact (A2 _ H H')
    end.
Qed.

(** How one more record changes the tallies. *)
Lemma tallies_snoc l r :
  match classify r with
  | CSuccess =>
      entry_successes (l ++ [r]) = entry_successes l ++ [r] /\
      len (entry_failures (l ++ [r])) + len (operation_failures (l ++ [r]))
        = len (entry_failures l) + len (operation_failures l) /\
      entry_records (l ++ [r]) = entry_records l ++ [r]
  | CFailure =>
      entry_successes (l ++ [r]) = entry_successes l /\
      len (entry_failures (l ++ [r])) + len (operation_failures (l ++ [r]))
        = len (entry_failures l) + len (operation_failures l) + 1 /\
      entry_records (l ++ [r]) = entry_records l ++ [r]
  | CAbort =>
      entry_successes (l ++ [r]) = entry_successes l /\
      len (entry_failures (l ++ [r])) + len (operation_failures (l ++ [r]))
        = len (entry_failures l) + len (operation_failures l) + 1 /\
      entry_records (l ++ [r]) = entry_records l
  | COther =>
      entry_successes (l ++ [r]) = entry_successes l /\
      len (entry_failures (l ++ [r])) + len (operation_failures (l ++ [r]))
        = len (entry_failures l) + len (operation_failures l) /\
      entry_records (l ++ [r]) = entry_records l
  end.
Proof.
  pose proof (classify_cases r) as H.
  unfold entry_successes, entry_failures, operation_failures, entry_records.
  rewrite !filter_snoc_bool, has_template_app.
  destruct (classify r); destruct H as (-> & -> & ->); simpl;
    rewrite ?app_nil_r, ?len_snoc; repeat split; lia.
Qed.

Arguments results_of : simpl never.

Ltac run_monad :=
  unfold bind, ret, raise, try_except, when, read_fs, call_fs_at, call_fs, query_fs,
    emit, get_local, put_local, time_time; simpl.

(** The invariant is kept by an iteration that touches neither the log nor
    the dictionary. *)
Lemma tallied_skip pol log0 seen a w w' d :
  log w' = log w ->
  tallied pol log0 seen (w, d) -> tallied pol log0 (seen ++ [a]) (w', d).
Proof.
  intros Hw (new & det & Hl & Hd & Hn & Hs). exists new, det. simpl in *.
  rewrite Hw. repeat split; auto. by apply sublist_inserts_r.
Qed.

Lemma tallied_weaken pol log0 seen a s :
  tallied pol log0 seen s -> tallied pol log0 (seen ++ [a]) s.
Proof. destruct s. by apply tallied_skip. Qed.

(** One more record in the log, with the matching change of the dictionary. *)
Lemma tallied_success pol log0 seen w t' new det r line :
  log w = log0 ++ new ->
  (if has_details pol then length det = length (entry_successes new) else det = []) ->
  sublist (map subject (entry_records new)) seen ->
  classify r = CSuccess ->
  tallied pol log0 (seen ++ [subject r])
    (mkWorld t' (log w ++ [r]) (clock w),
     results_of pol (len (entry_successes new) + 1)
       (len (entry_failures new) + len (operation_failures new))
       (if has_details pol then det ++ [line] else det)).
Proof.
  intros Hl Hn Hs Hc. exists (new ++ [r]), (if has_details pol then det ++ [line] else det).
  pose proof (tallies_snoc new r) as T. rewrite Hc in T. destruct T as (T1 & T2 & T3).
  simpl. rewrite Hl, <- app_assoc, T1, T2, T3, len_snoc, map_app. simpl.
  repeat split.
  - destruct (has_details pol); [|assumption]. rewrite !length_app. simpl. lia.
  - by apply sublist_app.
Qed.

Lemma tallied_failure pol log0 seen w t' new det r :
  log w = log0 ++ new ->
  (if has_details pol then length det = length (entry_successes new) else det = []) ->
  sublist (map subject (entry_records new)) seen ->
  classify r = CFailure ->
  tallied pol log0 (seen ++ [subject r])
    (mkWorld t' (log w ++ [r]) (clock w),
     results_of pol (len (entry_successes new))
       (len (entry_failures new) + len (operation_failures new) + 1) det).
Proof.
  intros Hl Hn Hs Hc. exists (new ++ [r]), det.
  pose proof (tallies_snoc new r) as T. rewrite Hc in T. destruct T as (T1 & T2 & T3).
  simpl. rewrite Hl, <- app_assoc, T1, T2, T3, map_app. simpl.
  repeat split; auto. by apply sublist_app.
Qed.

Lemma tallied_abort pol log0 seen w t' new det r :
  log w = log0 ++ new ->
  (if has_details pol then length det = length (entry_successes new) else det = []) ->
  sublist (map subject (entry_records new)) seen ->
  classify r = CAbort ->
  tallied pol log0 seen
    (mkWorld t' (log w ++ [r]) (clock w),
     results_of pol (len (entry_successes new))
       (len (entry_failures new) + len (operation_failures new) + 1) det).
Proof.
  intros Hl Hn Hs Hc. exists (new ++ [r]), det.
  pose proof (tallies_snoc new r) as T. rewrite Hc in T. destruct T as (T1 & T2 & T3).
  simpl. rewrite Hl, <- app_assoc, T1, T2, T3. repeat split; auto.
Qed.

Lemma tallied_other pol log0 seen w d t' r :
  classify r = COther ->
  tallied pol log0 seen (w, d) ->
  tallied pol log0 seen (mkWorld t' (log w ++ [r]) (clock w), d).
Proof.
  intros Hc (new & det & Hl & Hd & Hn & Hs). exists (new ++ [r]), det.
  pose proof (tallies_snoc new r) as T. rewrite Hc in T. destruct T as (T1 & T2 & T3).
  simpl in *. rewrite Hl, <- app_assoc, T1, T2, T3. repeat split; auto.
Qed.

(** The four loop bodies keep the invariant. *)
Lemma organize_entry_tallied d log0 seen src x s :
  tallied (OrganizeByExtension d) log0 seen s ->
  tallied (OrganizeByExtension d) log0 (seen ++ [AStr (name x)])
    (snd (organize_entry src x s)).
Proof.
  destruct s as [w dict]. intros HT. pose proof HT as (new & det & Hl & Hd & Hn & Hs).
  simpl in Hl, Hd. subst dict. unfold organize_entry. run_monad.
  destruct (is_file x (fs w)); simpl; [|by apply tallied_weaken].
  destruct (mkdir_exist_ok _ _ _) as [[[]|e] t1]; simpl.
  - destruct (shutil_move _ _ t1) as [[[]|e] t2]; simpl.
    + rewrite (incr_success (OrganizeByExtension d)). simpl.
      rewrite (append_details (OrganizeByExtension d)) by reflexivity. simpl.
      eapply (tallied_success (OrganizeByExtension d) _ _ w t2 new det (Log _ _ (_ :: _))); eauto.
    + rewrite (incr_errors (OrganizeByExtension d)). simpl.
      eapply (tallied_failure (OrganizeByExtension d) _ _ w t2 new det (Log _ _ (_ :: _))); eauto.
  - eapply tallied_skip; [|exact HT]. reflexivity.
Qed.

Lemma remove_if_empty_tallied d r log0 seen x s :
  tallied (CleanupEmptyDirs d r) log0 seen s ->
  tallied (CleanupEmptyDirs d r) log0 (seen ++ [APath x]) (snd (remove_if_empty x s)).
Proof.
  destruct s as [w dict]. intros HT. pose proof HT as (new & det & Hl & Hd & Hn & Hs).
  simpl in Hl, Hd. subst dict. unfold remove_if_empty. run_monad.
  destruct (is_dir x (fs w)); simpl; [|by apply tallied_weaken].
  destruct (iterdir x (fs w)) as [[|]|e]; simpl; try by apply tallied_weaken.
  destruct (os_rmdir x (fs w)) as [[[]|e] t1]; simpl.
  - rewrite (incr_success (CleanupEmptyDirs d r)). simpl.
    eapply (tallied_success (CleanupEmptyDirs d r) _ _ w t1 new det (Log _ _ (_ :: _)) ""); eauto.
  - rewrite (incr_errors (CleanupEmptyDirs d r)). simpl.
    eapply (tallied_failure (CleanupEmptyDirs d r) _ _ w t1 new det (Log _ _ (_ :: _))); eauto.
Qed.

Lemma delete_if_old_tallied d days log0 seen cutoff x s :
  tallied (CleanupOldFiles d days) log0 seen s ->
  tallied (CleanupOldFiles d days) log0 (seen ++ [APath x]) (snd (delete_if_old cutoff x s)).
Proof.
  destruct s as [w dict]. intros HT. pose proof HT as (new & det & Hl & Hd & Hn & Hs).
  simpl in Hl, Hd. subst dict. unfold delete_if_old. run_monad.
  destruct (is_file x (fs w)); simpl; [|by apply tallied_weaken].
  destruct (path_stat x (fs w)) as [st|e]; simpl; [|by apply tallied_weaken].
  destruct (st_mtime st <? cutoff); simpl; [|by apply tallied_weaken].
  destruct (os_unlink x (fs w)) as [[[]|e] t1]; simpl.
  - rewrite (incr_success (CleanupOldFiles d days)). simpl.
    rewrite (append_details (CleanupOldFiles d days)) by reflexivity. simpl.
    eapply (tallied_success (CleanupOldFiles d days) _ _ w t1 new det (Log _ _ (_ :: _))); eauto.
  - rewrite (incr_errors (CleanupOldFiles d days)). simpl.
    eapply (tallied_failure (CleanupOldFiles d days) _ _ w t1 new det (Log _ _ (_ :: _))); eauto.
Qed.

Lemma chmod_item_tallied d m r log0 seen mode x s :
  tallied (ChangePermissions d m r) log0 seen s ->
  tallied (ChangePermissions d m r) log0 (seen ++ [APath x]) (snd (chmod_item mode x s)).
Proof.
  destruct s as [w dict]. intros HT. pose proof HT as (new & det & Hl & Hd & Hn & Hs).
  simpl in Hl, Hd. subst dict. unfold chmod_item. run_monad.
  destruct (os_chmod x mode (fs w)) as [[[]|e] t1]; simpl.
  - rewrite (incr_success (ChangePermissions d m r)). simpl.
    eapply (tallied_success (ChangePermissions d m r) _ _ w t1 new det (Log _ _ (_ :: _)) ""); eauto.
  - rewrite (incr_errors (ChangePermissions d m r)). simpl.
    eapply (tallied_failure (ChangePermissions d m r) _ _ w t1 new det (Log _ _ (_ :: _))); eauto.
Qed.

Lemma tallied_start pol w t' r :
  classify r = COther ->
  tallied pol (log w) [] (mkWorld t' (log w ++ [r]) (clock w), fresh_results pol).
Proof.
  intros Hc. apply tallied_other; [assumption|].
  exists [], []. simpl. rewrite app_nil_r, fresh_results_of.
  repeat split; auto. destruct (has_details pol); reflexivity.
Qed.

Lemma tallied_more pol log0 seen seen' s :
  seen `prefix_of` seen' -> tallied pol log0 seen s -> tallied pol log0 seen' s.
Proof.
  intros [k ->] (new & det & Hl & Hd & Hn & Hs). exists new, det.
  repeat split; auto. by apply sublist_inserts_r.
Qed.

(** The loop of a policy, run under the invariant. *)
Lemma loop_tallied pol log0 (f : path -> arg) (body : path -> M Dict unit) xs s :
  (forall seen x s, tallied pol log0 seen s ->
     tallied pol log0 (seen ++ [f x]) (snd (body x s))) ->
  tallied pol log0 [] s ->
  tallied pol log0 (map f xs) (snd (for_each xs body s)).
Proof.
  intros Hbody H0.
  destruct (for_each_invariant (fun pre s => tallied pol log0 (map f pre) s) body xs)
    with (pre := @nil path) (s := s) as (done & Hp & HI & _); auto.
  - intros pre x s' H. rewrite map_app. by apply Hbody.
  - simpl in HI. eapply tallied_more; [|exact HI].
    destruct Hp as [k ->]. rewrite map_app. by eexists.
Qed.

(** What is left to do once the loop is over: the handler of the outer
    [try], if the loop raised, then the closing record. *)
Lemma tallied_handler pol log0 seen w d e tpl :
  classify (Log ERROR tpl [AExn e]) = CAbort ->
  tallied pol log0 seen (w, d) ->
  exists w' d',
    (emit ERROR tpl [AExn e] ;; incr "errors") (w, d) = (Return tt, (w', d')) /\
    fs w' = fs w /\ clock w' = clock w /\
    tallied pol log0 seen (w', d').
Proof.
  intros Hc (new & det & Hl & Hd & Hn & Hs). simpl in *. subst d.
  run_monad. rewrite incr_errors. do 2 eexists. split; [reflexivity|].
  split; [reflexivity|]. split; [reflexivity|].
  by apply (tallied_abort pol _ _ w (fs w) new det).
Qed.

Lemma finish_loop pol log0 seen tpl (loop : M Dict unit) s0 :
  (forall lv a, classify (Log lv tpl a) = CAbort) ->
  tallied pol log0 seen (snd (loop s0)) ->
  exists s1,
    try_except loop (fun e => emit ERROR tpl [AExn e] ;; incr "errors") s0
      = (Return tt, s1) /\
    fs (fst s1) = fs (fst (snd (loop s0))) /\
    clock (fst s1) = clock (fst (snd (loop s0))) /\
    tallied pol log0 seen s1 /\
    (forall u, fst (loop s0) = Return u -> s1 = snd (loop s0)).
Proof.
  intros Hc HT. unfold try_except. destruct (loop s0) as [[[]|e] [w d]]; simpl in *.
  - exists (w, d). repeat split; auto.
  - destruct (tallied_handler _ _ _ _ _ e tpl (Hc _ _) HT) as (w' & d' & E & Hf & Hk & HT').
    exists (w', d'). rewrite E. repeat split; auto. discriminate.
Qed.

(** The closing records of the methods. *)
Lemma closing_two pol log0 seen tpl s :
  (forall lv a, classify (Log lv tpl a) = COther) ->
  tallied pol log0 seen s ->
  exists w',
    (ok <- get_int (success_key pol) ;; err <- get_int "errors" ;;
     emit INFO tpl [AInt ok; AInt err] ;; get_local) s = (Return (snd s), (w', snd s)) /\
    fs w' = fs (fst s) /\ clock w' = clock (fst s) /\
    tallied pol log0 seen (w', snd s).
Proof.
  intros Hc HT. destruct s as [w d]. pose proof HT as (new & det & Hl & Hd & Hn & Hs).
  simpl in Hl, Hd. subst d. unfold bind at 1. rewrite get_success.
  unfold bind at 1. rewrite get_errors. run_monad.
  eexists. split; [reflexivity|]. repeat split. by apply tallied_other.
Qed.

Lemma closing_one pol log0 seen tpl s :
  (forall lv a, classify (Log lv tpl a) = COther) ->
  tallied pol log0 seen s ->
  exists w',
    (ok <- get_int (success_key pol) ;;
     emit INFO tpl [AInt ok] ;; get_local) s = (Return (snd s), (w', snd s)) /\
    fs w' = fs (fst s) /\ clock w' = clock (fst s) /\
    tallied pol log0 seen (w', snd s).
Proof.
  intros Hc HT. destruct s as [w d]. pose proof HT as (new & det & Hl & Hd & Hn & Hs).
  simpl in Hl, Hd. subst d. unfold bind at 1. rewrite get_success. run_monad.
  eexists. split; [reflexivity|]. repeat split. by apply tallied_other.
Qed.

Lemma bind_Return {L A B} (m : M L A) (k : A -> M L B) s a s' :
  m s = (Return a, s') -> bind m k s = k a s'.
Proof. unfold bind. by intros ->. Qed.

(** [organize_by_extension] on an existing directory: the loop, then what
    the method returns. *)
Lemma organize_unfold d w :
  path_exists d (fs w) = true ->
  let pol := OrganizeByExtension d in
  let s0 := started pol w (Log INFO "Starting file organization in {source_dir}" [APath d]) in
  let r := for_each (glob_star d (fs w)) (organize_entry d) s0 in
  exists dict w',
    organize_by_extension d w = (Return dict, w') /\
    fs w' = fs (fst (snd r)) /\
    tallied pol (log w) (scanned pol (fs w)) (w', dict) /\
    (forall u, fst r = Return u -> dict = snd (snd r)).
Proof.
  intros Hex pol s0 r.
  assert (HT : tallied pol (log w) (scanned pol (fs w)) (snd r)).
  { apply loop_tallied; [intros; by apply organize_entry_tallied|].
    by apply tallied_start. }
  destruct (finish_loop pol _ _ "File organization failed: {e}"
              (files <- read_fs (glob_star d) ;; for_each files (organize_entry d))
              s0 ltac:(reflexivity) HT)
    as (s1 & E1 & Hf1 & Hk1 & HT1 & Hr1).
  destruct (closing_two pol _ _
    "File organization complete: {results['organized']} organized, {results['errors']} errors"
    s1 ltac:(reflexivity) HT1) as (w' & E2 & Hf2 & Hk2 & HT2).
  exists (snd s1), w'. split; [|split; [|split]].
  - unfold organize_by_extension, method.
    erewrite bind_Return by reflexivity.
    erewrite bind_Return by reflexivity.
    simpl. rewrite Hex. simpl.
    erewrite bind_Return by exact E1.
    fold pol. simpl in E2. rewrite E2. reflexivity.
  - rewrite Hf2. exact Hf1.
  - exact HT2.
  - intros u Hu. by rewrite (Hr1 u Hu).
Qed.

(** [cleanup_empty_dirs] on an existing directory. *)
Lemma cleanup_empty_dirs_unfold d recursive w :
  path_exists d (fs w) = true ->
  let pol := CleanupEmptyDirs d recursive in
  let s0 := started pol w (Log INFO "Cleaning empty directories in {target_dir}" [APath d]) in
  let r := for_each (if recursive then sorted_reverse (rglob_dot d (fs w)) else [])
             remove_if_empty s0 in
  exists dict w',
    cleanup_empty_dirs d recursive w = (Return dict, w') /\
    fs w' = fs (fst (snd r)) /\
    tallied pol (log w) (scanned pol (fs w)) (w', dict) /\
    (forall u, fst r = Return u -> dict = snd (snd r)).
Proof.
  intros Hex pol s0 r.
  assert (HT : tallied pol (log w) (scanned pol (fs w)) (snd r)).
  { replace (scanned pol (fs w))
      with (map APath (if recursive then sorted_reverse (rglob_dot d (fs w)) else []))
      by (simpl; by destruct recursive).
    apply loop_tallied; [intros; by apply remove_if_empty_tallied|].
    by apply tallied_start. }
  set (loop := when recursive
                 (dirs <- read_fs (rglob_dot d) ;;
                  for_each (sorted_reverse dirs) remove_if_empty) : M Dict unit).
  assert (Hloop : loop s0 = r) by (unfold loop, r; by destruct recursive).
  rewrite <- Hloop in HT.
  destruct (finish_loop pol _ _ "Cleanup failed: {e}" loop s0 ltac:(reflexivity) HT)
    as (s1 & E1 & Hf1 & Hk1 & HT1 & Hr1).
  destruct (closing_one pol _ _
    "Cleanup complete: {results['removed']} directories removed"
    s1 ltac:(reflexivity) HT1) as (w' & E2 & Hf2 & Hk2 & HT2).
  exists (snd s1), w'. split; [|split; [|split]].
  - unfold cleanup_empty_dirs, method.
    erewrite bind_Return by reflexivity.
    erewrite bind_Return by reflexivity.
    simpl. rewrite Hex. simpl.
    erewrite bind_Return by exact E1.
    fold pol. simpl in E2. rewrite E2. reflexivity.
  - rewrite Hf2, Hf1, Hloop. reflexivity.
  - exact HT2.
  - intros u Hu. rewrite <- Hloop in Hu |- *. by rewrite (Hr1 u Hu).
Qed.

(** [cleanup_old_files] on an existing directory. *)
Lemma cleanup_old_files_unfold d days w :
  path_exists d (fs w) = true ->
  let pol := CleanupOldFiles d days in
  let s0 := started pol w
              (Log INFO "Cleaning files older than {days} days in {target_dir}"
                   [AInt days; APath d]) in
  let r := for_each (rglob_star d (fs w)) (delete_if_old (clock w - days * 86400)) s0 in
  exists dict w',
    cleanup_old_files d days w = (Return dict, w') /\
    fs w' = fs (fst (snd r)) /\
    tallied pol (log w) (scanned pol (fs w)) (w', dict) /\
    (forall u, fst r = Return u -> dict = snd (snd r)).
Proof.
  intros Hex pol s0 r.
  assert (HT : tallied pol (log w) (scanned pol (fs w)) (snd r)).
  { apply loop_tallied; [intros; by apply delete_if_old_tallied|].
    by apply tallied_start. }
  destruct (finish_loop pol _ _ "Old file cleanup failed: {e}"
              (files <- read_fs (rglob_star d) ;;
               for_each files (delete_if_old (clock w - days * 86400)))
              s0 ltac:(reflexivity) HT)
    as (s1 & E1 & Hf1 & Hk1 & HT1 & Hr1).
  destruct (closing_two pol _ _
    "Old file cleanup complete: {results['deleted']} deleted, {results['errors']} errors"
    s1 ltac:(reflexivity) HT1) as (w' & E2 & Hf2 & Hk2 & HT2).
  exists (snd s1), w'. split; [|split; [|split]].
  - unfold cleanup_old_files, method.
    erewrite bind_Return by reflexivity.
    erewrite bind_Return by reflexivity.
    erewrite bind_Return by reflexivity.
    simpl. rewrite Hex. simpl.
    erewrite bind_Return by exact E1.
    fold pol. simpl in E2. rewrite E2. reflexivity.
  - rewrite Hf2. exact Hf1.
  - exact HT2.
  - intros u Hu. by rewrite (Hr1 u Hu).
Qed.

(** The single [chmod] of the non-recursive branch keeps the invariant. *)
Lemma chmod_target_tallied d m r log0 mode s :
  tallied (ChangePermissions d m r) log0 [] s ->
  tallied (ChangePermissions d m r) log0 [APath d]
    (snd ((call_fs (os_chmod d mode) ;; incr "changed" ;;
           emit INFO "Changed permissions for {target_path}" [APath d]) s)).
Proof.
  destruct s as [w dict]. intros HT. pose proof HT as (new & det & Hl & Hd & Hn & Hs).
  simpl in Hl, Hd. subst dict. run_monad.
  destruct (os_chmod d mode (fs w)) as [[[]|e] t1]; simpl.
  - rewrite (incr_success (ChangePermissions d m r)). simpl.
    eapply (tallied_success (ChangePermissions d m r) _ [] w t1 new det (Log _ _ (_ :: _)) ""); eauto.
  - eapply (tallied_skip _ _ [] (APath d)); [|exact HT]. reflexivity.
Qed.

(** [change_permissions] on an existing target. *)
Lemma change_permissions_unfold d mode recursive w :
  path_exists d (fs w) = true ->
  let pol := ChangePermissions d mode recursive in
  let s0 := started pol w
              (Log INFO "Changing permissions for {target_path} to {oct(mode)}"
                   [APath d; AInt mode]) in
  let r := if recursive && is_dir d (fs w)
           then for_each (rglob_star d (fs w)) (chmod_item mode) s0
           else (call_fs (os_chmod d mode) ;; incr "changed" ;;
                 emit INFO "Changed permissions for {target_path}" [APath d]) s0 in
  exists dict w',
    change_permissions d mode recursive w = (Return dict, w') /\
    fs w' = fs (fst (snd r)) /\
    tallied pol (log w) (scanned pol (fs w)) (w', dict) /\
    (forall u, fst r = Return u -> dict = snd (snd r)).
Proof.
  intros Hex pol s0 r.
  assert (HT : tallied pol (log w) (scanned pol (fs w)) (snd r)).
  { unfold r. simpl. destruct (recursive && is_dir d (fs w)).
    - apply loop_tallied; [intros; by apply chmod_item_tallied|].
      by apply tallied_start.
    - apply chmod_target_tallied. by apply tallied_start. }
  set (loop := (isd <- read_fs (is_dir d) ;;
                if recursive && isd
                then (items <- read_fs (rglob_star d) ;; for_each items (chmod_item mode))
                else (call_fs (os_chmod d mode) ;; incr "changed" ;;
                      emit INFO "Changed permissions for {target_path}" [APath d]))
               : M Dict unit).
  assert (Hloop : loop s0 = r).
  { unfold loop, r. unfold bind at 1. simpl. by destruct (recursive && is_dir d (fs w)). }
  rewrite <- Hloop in HT.
  destruct (finish_loop pol _ _ "Permission change failed: {e}" loop s0 ltac:(reflexivity) HT)
    as (s1 & E1 & Hf1 & Hk1 & HT1 & Hr1).
  exists (snd s1), (fst s1). split; [|split; [|split]].
  - unfold change_permissions, method.
    erewrite bind_Return by reflexivity.
    erewrite bind_Return by reflexivity.
    simpl. rewrite Hex. simpl.
    erewrite bind_Return by exact E1.
    reflexivity.
  - rewrite Hf1, Hloop. reflexivity.
  - by destruct s1.
  - intros u Hu. rewrite <- Hloop in Hu |- *. by rewrite (Hr1 u Hu).
Qed.

(** Every policy invoked on a path that does not exist: two records are
    logged and the fresh dictionary is returned. *)
Lemma run_missing pol w :
  path_exists (root_of pol) (fs w) = false ->
  exists r1 r2,
    run pol w = (Return (fresh_results pol),
                 mkWorld (fs w) (log w ++ [r1; r2]) (clock w)) /\
    levelname r2 = ERROR /\ args r2 = [APath (root_of pol)] /\
    classify r1 = COther /\ classify r2 = COther.
Proof.
  intros Hex. destruct pol; simpl in *.
  all: unfold organize_by_extension, cleanup_empty_dirs, cleanup_old_files,
         change_permissions, method.
  all: repeat (erewrite bind_Return by reflexivity); simpl; rewrite Hex; simpl.
  all: repeat (erewrite bind_Return by reflexivity); simpl.
  all: unfold get_local; simpl; rewrite <- app_assoc; simpl.
  all: do 2 eexists; split; [reflexivity|]; repeat split; reflexivity.
Qed.

(** Every run of a policy ends under the invariant. *)
Lemma run_tallied pol w :
  exists dict w',
    run pol w = (Return dict, w') /\
    tallied pol (log w) (scanned pol (fs w)) (w', dict).
Proof.
  destruct (path_exists (root_of pol) (fs w)) eqn:Hex.
  - destruct pol; simpl in *.
    + destruct (organize_unfold _ _ Hex) as (dict & w' & E & _ & HT & _); eauto.
    + destruct (cleanup_empty_dirs_unfold _ recursive _ Hex) as (dict & w' & E & _ & HT & _); eauto.
    + destruct (cleanup_old_files_unfold _ days _ Hex) as (dict & w' & E & _ & HT & _); eauto.
    + destruct (change_permissions_unfold _ mode recursive _ Hex) as (dict & w' & E & _ & HT & _); eauto.
  - destruct (run_missing pol w Hex) as (r1 & r2 & E & _ & _ & C1 & C2).
    do 2 eexists. split; [exact E|].
    replace (log w ++ [r1; r2]) with ((log w ++ [r1]) ++ [r2]) by (by rewrite <- app_assoc).
    apply (tallied_other pol (log w) _ (mkWorld (fs w) (log w ++ [r1]) (clock w))); [assumption|].
    eapply tallied_more; [apply prefix_nil|]. by apply tallied_start.
Qed.

(* --------------------------------------------------------------------- *)
(** *** A root that does not exist *)
(* --------------------------------------------------------------------- *)








(* --------------------------------------------------------------------- *)
(** *** Counters, failures and the log *)
(* --------------------------------------------------------------------- *)

Lemma entry_records_split l :
  len (entry_records l) = len (entry_successes l) + len (entry_failures l).
Proof.
  induction l as [|r l IH] using rev_ind; [reflexivity|].
  pose proof (tallies_snoc l r) as T. pose proof (classify_cases r) as C.
  unfold entry_failures in *. rewrite filter_snoc_bool.
  destruct (classify r); destruct T as (-> & _ & ->); destruct C as (_ & -> & _);
    rewrite ?app_nil_r, ?len_snoc; lia.
Qed.


(** What every run of a mutating policy satisfies: counters and records. *)
Lemma run_counters (pol : policy) (w : World) :
  let o := fst (run pol w) in
  let new := emitted w (snd (run pol w)) in
  (exists ok err det, o = Return (results_of pol ok err det)) /\
  counter "errors" o = Some (len (entry_failures new) + len (operation_failures new)) /\
  counter (success_key pol) o = Some (len (entry_successes new)) /\
  (forall k l, listed k o = Some l ->
     k = "details" /\ length l = length (entry_successes new)) /\
  len (entry_records new) = len (entry_successes new) + len (entry_failures new) /\
  sublist (map subject (entry_records new)) (scanned pol (fs w)).
Proof.
  destruct (run_tallied pol w) as (dict & w' & E & new & det & Hl & Hd & Hn & Hs).
  simpl in Hl, Hd. cbv zeta. rewrite E. simpl. rewrite (emitted_app w w' new Hl). subst dict.
  split; [eauto|]. split; [apply counter_errors|]. split; [apply counter_success|].
  split; [|split; [apply entry_records_split|exact Hs]].
  intros k l H. apply listed_results_of in H as (-> & -> & Hd). rewrite Hd in Hn. auto.
Qed.



(* --------------------------------------------------------------------- *)
(** *** The tree: resolution and rewriting *)
(* --------------------------------------------------------------------- *)

Lemma eqb_decide (a b : string) : String.eqb a b = bool_decide (a = b).
Proof.
  destruct (String.eqb_spec a b); symmetry;
    [by apply bool_decide_eq_true|by apply bool_decide_eq_false].
Qed.

Lemma assoc_map_entry c c' g es :
  assoc c' (map_entry c g es) =
  if decide (c = c') then g <$> assoc c' es else assoc c' es.
Proof.
  induction es as [|[k v] es IH]; simpl.
  - by destruct (decide (c = c')).
  - rewrite (eqb_decide k c). case_bool_decide as Hk; simpl.
    + subst k. rewrite (eqb_decide c c').
      destruct (decide (c = c')) as [->|N]; [by rewrite bool_decide_eq_true_2|].
      by rewrite bool_decide_eq_false_2.
    + rewrite IH, (eqb_decide k c').
      destruct (decide (c = c')) as [->|N]; [by rewrite bool_decide_eq_false_2|].
      by case_bool_decide.
Qed.

Lemma assoc_remove_entry c c' es :
  assoc c' (remove_entry c es) = if decide (c = c') then None else assoc c' es.
Proof.
  induction es as [|[k v] es IH]; simpl.
  - by destruct (decide (c = c')).
  - rewrite (eqb_decide k c). case_bool_decide as Hk; simpl.
    + subst k. rewrite IH, (eqb_decide c c').
      destruct (decide (c = c')) as [->|N]; [done|]. by rewrite bool_decide_eq_false_2.
    + rewrite IH, (eqb_decide k c').
      destruct (decide (c = c')) as [->|N]; [by rewrite bool_decide_eq_false_2|done].
Qed.

Lemma assoc_app c es es' :
  assoc c (es ++ es') = match assoc c es with Some v => Some v | None => assoc c es' end.
Proof.
  induction es as [|[k v] es IH]; simpl; [done|]. by destruct (String.eqb k c).
Qed.

Lemma assoc_In c v es : assoc c es = Some v -> In (c, v) es.
Proof.
  induction es as [|[k v'] es IH]; simpl; [done|].
  rewrite (eqb_decide k c). case_bool_decide as Hk; [intros [= ->]; left; congruence|auto].
Qed.

Lemma assoc_None_not_In c es : assoc c es = None -> c ∉ map fst es.
Proof.
  induction es as [|[k v'] es IH]; simpl; [intros _; apply not_elem_of_nil|].
  rewrite (eqb_decide k c). case_bool_decide as Hk; [done|].
  intros Hn. apply not_elem_of_cons. split; [congruence|auto].
Qed.

Lemma In_assoc c v es : In (c, v) es -> exists v', assoc c es = Some v'.
Proof.
  induction es as [|[k v'] es IH]; simpl; [done|].
  rewrite (eqb_decide k c). case_bool_decide as Hk; [eauto|].
  intros [[= -> ->]|Hin]; [done|auto].
Qed.

Lemma lookup_path_app p q t :
  lookup_path (p ++ q) t =
  match lookup_path p t with Some n => lookup_path q n | None => None end.
Proof.
  revert t. induction p as [|c p IH]; intros t; simpl; [done|].
  destruct t as [m|m es]; [done|]. destruct (assoc c es); [apply IH|done].
Qed.

Lemma lookup_path_snoc p c t :
  lookup_path (p ++ [c]) t =
  match lookup_path p t with
  | Some (Dir _ es) => assoc c es
  | _ => None
  end.
Proof.
  rewrite lookup_path_app. destruct (lookup_path p t) as [[m|m es]|]; simpl; try done.
  by destruct (assoc c es).
Qed.

(** Below the rewritten node. *)
Lemma lookup_update_below p r g t :
  lookup_path (p ++ r) (update_path p g t) =
  match lookup_path p t with Some n => lookup_path r (g n) | None => None end.
Proof.
  revert t. induction p as [|c p IH]; intros t; simpl; [done|].
  destruct t as [m|m es]; [done|]. rewrite assoc_map_entry.
  destruct (decide (c = c)); [|done].
  destruct (assoc c es); simpl; [apply IH|done].
Qed.

(** Above the rewritten node. *)
Lemma lookup_update_above q r g t :
  lookup_path q (update_path (q ++ r) g t) = update_path r g <$> lookup_path q t.
Proof.
  revert t. induction q as [|c q IH]; intros t; simpl; [done|].
  destruct t as [m|m es]; [done|]. rewrite assoc_map_entry.
  destruct (decide (c = c)); [|done].
  destruct (assoc c es); simpl; [apply IH|done].
Qed.

(** Beside the rewritten node. *)
Lemma lookup_update_beside k x y p q g t :
  x <> y ->
  lookup_path (k ++ y :: q) (update_path (k ++ x :: p) g t) = lookup_path (k ++ y :: q) t.
Proof.
  intros Hxy. revert t. induction k as [|c k IH]; intros t; simpl.
  - destruct t as [m|m es]; [done|]. rewrite assoc_map_entry.
    by destruct (decide (x = y)).
  - destruct t as [m|m es]; [done|]. rewrite assoc_map_entry.
    destruct (decide (c = c)); [|done].
    destruct (assoc c es); simpl; [apply IH|done].
Qed.

Lemma path_relation_total p q : path_relation p q.
Proof.
  revert q. induction p as [|a p IH]; intros q.
  - by apply (PathBelow [] q q).
  - destruct q as [|b q]; [by apply (PathAbove _ [] a p)|].
    destruct (decide (a = b)) as [->|N].
    + destruct (IH q) as [r ->|c r ->|k x y p' q' -> -> Hxy].
      * by apply (PathBelow _ _ r).
      * by apply (PathAbove _ _ c r).
      * by apply (PathBeside _ _ (b :: k) x y p' q').
    + by apply (PathBeside _ _ [] a b p q).
Qed.

Lemma parent_name p : p <> [] -> p = parent p ++ [name p].
Proof. intros H. unfold parent, name. by apply app_removelast_last. Qed.

Lemma parent_snoc p c : parent (p ++ [c]) = p.
Proof. unfold parent. apply removelast_last. Qed.

Lemma name_snoc p c : name (p ++ [c]) = c.
Proof. unfold name. apply last_last. Qed.

(* --------------------------------------------------------------------- *)
(** *** The order of paths and [sorted(..., reverse=True)] *)
(* --------------------------------------------------------------------- *)

Lemma ascii_compare_refl a : Ascii.compare a a = Eq.
Proof. unfold Ascii.compare. apply N.compare_refl. Qed.

Lemma ascii_compare_lt_trans a b c :
  Ascii.compare a b = Lt -> Ascii.compare b c = Lt -> Ascii.compare a c = Lt.
Proof. unfold Ascii.compare. rewrite !N.compare_lt_iff. lia. Qed.

Lemma string_compare_refl s : String.compare s s = Eq.
Proof. induction s as [|a s IH]; simpl; [done|]. by rewrite ascii_compare_refl. Qed.

Lemma string_compare_lt_trans s1 s2 s3 :
  String.compare s1 s2 = Lt -> String.compare s2 s3 = Lt -> String.compare s1 s3 = Lt.
Proof.
  revert s2 s3. induction s1 as [|a s1 IH]; intros [|b s2] [|c s3]; simpl; try done.
  destruct (Ascii.compare a b) eqn:E1; try done;
    destruct (Ascii.compare b c) eqn:E2; try done; intros H1 H2.
  - apply Ascii.compare_eq_iff in E1, E2. subst. rewrite ascii_compare_refl. eauto.
  - apply Ascii.compare_eq_iff in E1. subst. by rewrite E2.
  - apply Ascii.compare_eq_iff in E2. subst. by rewrite E1.
  - by rewrite (ascii_compare_lt_trans _ _ _ E1 E2).
Qed.

Lemma path_compare_refl p : path_compare p p = Eq.
Proof. induction p as [|a p IH]; simpl; [done|]. by rewrite string_compare_refl. Qed.

Lemma path_compare_eq p q : path_compare p q = Eq -> p = q.
Proof.
  revert q. induction p as [|a p IH]; intros [|b q]; simpl; try done.
  destruct (String.compare a b) eqn:E; try done.
  apply String.compare_eq_iff in E. intros H. f_equal; auto.
Qed.

Lemma path_compare_antisym p q : path_compare p q = CompOpp (path_compare q p).
Proof.
  revert q. induction p as [|a p IH]; intros [|b q]; simpl; try done.
  rewrite (String.compare_antisym a b).
  destruct (String.compare b a); simpl; auto.
Qed.

Lemma path_compare_lt_trans p q r :
  path_compare p q = Lt -> path_compare q r = Lt -> path_compare p r = Lt.
Proof.
  revert q r. induction p as [|a p IH]; intros [|b q] [|c r]; simpl; try done.
  destruct (String.compare a b) eqn:E1; try done;
    destruct (String.compare b c) eqn:E2; try done; intros H1 H2.
  - apply String.compare_eq_iff in E1, E2. subst. rewrite string_compare_refl. eauto.
  - apply String.compare_eq_iff in E1. subst. by rewrite E2.
  - apply String.compare_eq_iff in E2. subst. by rewrite E1.
  - by rewrite (string_compare_lt_trans _ _ _ E1 E2).
Qed.

(** A path sorts before every path it is a proper prefix of. *)
Lemma path_compare_below p c r : path_compare p (p ++ c :: r) = Lt.
Proof. induction p as [|a p IH]; simpl; [done|]. by rewrite string_compare_refl. Qed.

Lemma path_le_cases p q : path_le p q <-> path_compare p q = Lt \/ p = q.
Proof.
  unfold path_le. split.
  - destruct (path_compare p q) eqn:E; [right; by apply path_compare_eq|by left|done].
  - intros [->| ->]; [done|]. by rewrite path_compare_refl.
Qed.

#[global] Instance path_ge_total : Total (flip path_le).
Proof.
  intros p q. unfold flip, path_le. rewrite (path_compare_antisym p q).
  destruct (path_compare q p); simpl; [left|left|right]; congruence.
Qed.

#[global] Instance path_ge_trans : Transitive (flip path_le).
Proof.
  intros p q r. unfold flip. rewrite !path_le_cases.
  intros [H1| ->] [H2| ->]; auto. left. eapply path_compare_lt_trans; eauto.
Qed.

Lemma path_le_antisym p q : path_le p q -> path_le q p -> p = q.
Proof.
  rewrite !path_le_cases. intros [H1|H1] [H2|H2]; auto.
  rewrite path_compare_antisym, H2 in H1. discriminate.
Qed.

Lemma sorted_reverse_sorted l : StronglySorted (flip path_le) (sorted_reverse l).
Proof. apply StronglySorted_merge_sort; apply _. Qed.

Lemma sorted_reverse_perm l : sorted_reverse l ≡ₚ l.
Proof. apply merge_sort_Permutation. Qed.

Lemma elem_of_sorted_reverse p l : p ∈ sorted_reverse l <-> p ∈ l.
Proof. by rewrite sorted_reverse_perm. Qed.

(** Deepest first: if a path and a proper extension of it are both in the
    list, the extension is met first. *)
Lemma sorted_reverse_deepest_first l p c r :
  p ∈ l -> p ++ c :: r ∈ l ->
  exists l1 l2 l3, sorted_reverse l = l1 ++ (p ++ c :: r) :: l2 ++ p :: l3.
Proof.
  intros Hp Hq. apply elem_of_sorted_reverse in Hp, Hq.
  pose proof (sorted_reverse_sorted l) as HS.
  apply list_elem_of_split in Hq as (l1 & l2' & E). rewrite E in HS, Hp |- *.
  apply elem_of_app in Hp as [Hp|Hp].
  - exfalso. apply StronglySorted_app_1_elem_of with (x1 := p) (x2 := p ++ c :: r) in HS;
      [|done|by left].
    unfold flip, path_le in HS. rewrite path_compare_antisym, path_compare_below in HS.
    by apply HS.
  - apply elem_of_cons in Hp as [Hp|Hp].
    + exfalso. apply (f_equal length) in Hp. rewrite length_app in Hp. simpl in Hp. lia.
    + apply list_elem_of_split in Hp as (l2 & l3 & ->). eauto.
Qed.

(* --------------------------------------------------------------------- *)
(** *** Walking the tree: [rglob] *)
(* --------------------------------------------------------------------- *)

Lemma node_ind (P : node -> Prop) :
  (forall m, P (File m)) ->
  (forall m es, Forall (fun e => P (snd e)) es -> P (Dir m es)) ->
  forall n, P n.
Proof.
  intros HF HD. fix IH 1. intros [m|m es]; [apply HF|]. apply HD.
  induction es as [|[k v] es IHes]; constructor; [apply IH|apply IHes].
Qed.

Lemma walk_dirs_Dir base m es :
  walk_dirs base (Dir m es)
  = base :: flat_map (fun e => walk_dirs (base ++ [fst e]) (snd e)) es.
Proof.
  simpl. f_equal. induction es as [|[k v] es IH]; simpl; [done|]. by rewrite IH.
Qed.

(** Every path walked from [base] extends [base]. *)
Lemma walk_dirs_extends n : forall base q,
  q ∈ walk_dirs base n -> exists r, q = base ++ r.
Proof.
  induction n as [m|m es IH] using node_ind; intros base q.
  - by intros ?%elem_of_nil.
  - rewrite walk_dirs_Dir. intros [->|H]%elem_of_cons.
    + exists []. by rewrite app_nil_r.
    + apply list_elem_of_In, in_flat_map in H as ([k v] & Hin & Hq).
      rewrite Forall_forall in IH. apply list_elem_of_In in Hin, Hq.
      destruct (IH _ Hin _ _ Hq) as (r & ->). simpl.
      exists (k :: r). by rewrite <- app_assoc.
Qed.

(** The paths walked below the starting directory are proper extensions. *)
Lemma walk_dirs_proper base (es : list (string * node)) q :
  q ∈ flat_map (fun e => walk_dirs (base ++ [fst e]) (snd e)) es ->
  exists c r, q = base ++ c :: r.
Proof.
  intros H. apply list_elem_of_In, in_flat_map in H as ([k v] & Hin & Hq).
  apply list_elem_of_In, walk_dirs_extends in Hq as (r & ->). simpl.
  exists k, r. by rewrite <- app_assoc.
Qed.

(** Every directory that resolves is walked. *)
Lemma walk_dirs_complete r : forall base n m es,
  lookup_path r n = Some (Dir m es) -> base ++ r ∈ walk_dirs base n.
Proof.
  induction r as [|c r IH]; intros base n m es.
  - intros [= ->]. rewrite app_nil_r, walk_dirs_Dir. by left.
  - simpl. destruct n as [m'|m' es']; [done|].
    destruct (assoc c es') as [ch|] eqn:E; [|done]. intros H.
    rewrite walk_dirs_Dir. right.
    apply list_elem_of_In, in_flat_map. exists (c, ch). split; [by apply assoc_In|].
    simpl. apply list_elem_of_In.
    replace (base ++ c :: r) with ((base ++ [c]) ++ r) by (by rewrite <- app_assoc).
    eapply IH; eauto.
Qed.

Lemma rglob_dot_complete p r t m es :
  lookup_path (p ++ r) t = Some (Dir m es) -> p ++ r ∈ rglob_dot p t.
Proof.
  rewrite lookup_path_app. unfold rglob_dot.
  destruct (lookup_path p t) as [n|]; [|done]. by apply walk_dirs_complete.
Qed.

Lemma rglob_dot_extends p t q : q ∈ rglob_dot p t -> exists r, q = p ++ r.
Proof.
  unfold rglob_dot. destruct (lookup_path p t); [apply walk_dirs_extends|].
  by intros ?%elem_of_nil.
Qed.

(** The target itself comes first, the rest lies properly below it. *)
Lemma rglob_dot_is_dir p t :
  is_dir p t = true ->
  exists rest, rglob_dot p t = p :: rest /\
    forall q, q ∈ rest -> exists c r, q = p ++ c :: r.
Proof.
  unfold is_dir, rglob_dot. destruct (lookup_path p t) as [[m|m es]|]; try done.
  intros _. rewrite walk_dirs_Dir. eexists. split; [done|].
  intros q. by apply walk_dirs_proper.
Qed.

Lemma elem_of_children q d t :
  q ∈ children d t <->
  exists c m es, q = d ++ [c] /\ lookup_path d t = Some (Dir m es) /\ c ∈ map fst es.
Proof.
  unfold children, listing. rewrite list_elem_of_fmap. split.
  - intros (c & -> & Hc). destruct (lookup_path d t) as [[m|m es]|];
      try by apply elem_of_nil in Hc. eauto 10.
  - intros (c & m & es & -> & -> & Hc). eauto.
Qed.

Lemma elem_of_map_fst_assoc c (es : list (string * node)) :
  c ∈ map fst es <-> is_Some (assoc c es).
Proof.
  split.
  - intros H. apply list_elem_of_fmap in H as ([k v] & -> & Hin).
    simpl. apply list_elem_of_In, In_assoc in Hin as (v' & E). rewrite E. eauto.
  - intros [v H]. apply assoc_In in H. apply list_elem_of_fmap. exists (c, v).
    split; [done|]. by apply list_elem_of_In.
Qed.

(** What [rglob('*')] yields resolves, and lies properly below the target. *)
Lemma rglob_star_sound p t q :
  q ∈ rglob_star p t ->
  (exists c r, q = p ++ c :: r) /\ is_Some (lookup_path q t).
Proof.
  unfold rglob_star. intros H. apply list_elem_of_In, in_flat_map in H as (d & Hd & Hq).
  apply list_elem_of_In in Hd, Hq.
  apply rglob_dot_extends in Hd as (r & ->).
  apply elem_of_children in Hq as (c & m & es & -> & Hl & Hc). split.
  - destruct r as [|c' r]; [exists c, []; by rewrite app_nil_r|].
    exists c', (r ++ [c]). by rewrite <- app_assoc.
  - rewrite lookup_path_snoc, Hl. by apply elem_of_map_fst_assoc.
Qed.

(** Everything that resolves properly below a directory is yielded. *)
Lemma rglob_star_complete p c r t :
  is_Some (lookup_path (p ++ c :: r) t) -> p ++ c :: r ∈ rglob_star p t.
Proof.
  intros H.
  destruct (exists_last (l := c :: r) ltac:(done)) as (r' & c' & E). rewrite E in *.
  rewrite app_assoc in *. rewrite lookup_path_snoc in H.
  destruct (lookup_path (p ++ r') t) as [[m|m es]|] eqn:El; try by destruct H.
  unfold rglob_star. apply list_elem_of_In, in_flat_map. exists (p ++ r'). split.
  - apply list_elem_of_In. eapply rglob_dot_complete; eauto.
  - apply list_elem_of_In, elem_of_children. exists c', m, es.
    repeat split; auto. by apply elem_of_map_fst_assoc.
Qed.

(* --------------------------------------------------------------------- *)
(** *** The loops as folds over the tree and the counters *)
(* --------------------------------------------------------------------- *)

Section isolated_loop.
Context (pol : policy) (guard : path -> node -> bool)
        (mutate : path -> node -> outcome unit * node)
        (body : path -> M Dict unit).
Hypothesis body_step : forall x w ok err det,
  exists w' ok' err' det',
    body x (w, results_of pol ok err det)
      = (Return tt, (w', results_of pol ok' err' det')) /\
    (fs w', ok', err') = sweep_step guard mutate (fs w, ok, err) x.

Lemma loop_is_sweep xs : forall w ok err det,
  exists w' ok' err' det',
    for_each xs body (w, results_of pol ok err det)
      = (Return tt, (w', results_of pol ok' err' det')) /\
    (fs w', ok', err') = sweep guard mutate xs (fs w, ok, err).
Proof.
  induction xs as [|x xs IH]; intros w ok err det; simpl.
  - by exists w, ok, err, det.
  - destruct (body_step x w ok err det) as (w1 & ok1 & err1 & det1 & E1 & S1).
    destruct (IH w1 ok1 err1 det1) as (w2 & ok2 & err2 & det2 & E2 & S2).
    exists w2, ok2, err2, det2. unfold bind. rewrite E1, E2. split; [done|].
    rewrite S2, S1. reflexivity.
Qed.
End isolated_loop.

Lemma remove_if_empty_step d r x w ok err det :
  exists w' ok' err' det',
    remove_if_empty x (w, results_of (CleanupEmptyDirs d r) ok err det)
      = (Return tt, (w', results_of (CleanupEmptyDirs d r) ok' err' det')) /\
    (fs w', ok', err') = sweep_step is_empty_dir os_rmdir (fs w, ok, err) x.
Proof.
  unfold remove_if_empty, sweep_step, is_empty_dir, is_dir, iterdir, children, listing.
  run_monad.
  destruct (lookup_path x (fs w)) as [[m|m [|e es]]|] eqn:El; simpl;
    rewrite ?El; simpl;
    try (exists w, ok, err, det; split; [by destruct w|done]).
  destruct (os_rmdir x (fs w)) as [[[]|e] t1]; simpl.
  - rewrite (incr_success (CleanupEmptyDirs d r)). simpl. eauto 10.
  - rewrite (incr_errors (CleanupEmptyDirs d r)). simpl. eauto 10.
Qed.

Lemma delete_if_old_step d days cutoff x w ok err det :
  exists w' ok' err' det',
    delete_if_old cutoff x (w, results_of (CleanupOldFiles d days) ok err det)
      = (Return tt, (w', results_of (CleanupOldFiles d days) ok' err' det')) /\
    (fs w', ok', err') = sweep_step (is_old_file cutoff) os_unlink (fs w, ok, err) x.
Proof.
  unfold delete_if_old, sweep_step, is_old_file, is_file, path_stat.
  run_monad.
  destruct (lookup_path x (fs w)) as [[m|m es]|] eqn:El; simpl;
    rewrite ?El; simpl;
    try (exists w, ok, err, det; split; [by destruct w|done]).
  destruct (st_mtime m <? cutoff); simpl;
    try (exists w, ok, err, det; split; [by destruct w|done]).
  destruct (os_unlink x (fs w)) as [[[]|e] t1]; simpl.
  - rewrite (incr_success (CleanupOldFiles d days)). simpl.
    rewrite (append_details (CleanupOldFiles d days)) by reflexivity. simpl. eauto 10.
  - rewrite (incr_errors (CleanupOldFiles d days)). simpl. eauto 10.
Qed.

Lemma chmod_item_step d m r mode x w ok err det :
  exists w' ok' err' det',
    chmod_item mode x (w, results_of (ChangePermissions d m r) ok err det)
      = (Return tt, (w', results_of (ChangePermissions d m r) ok' err' det')) /\
    (fs w', ok', err')
      = sweep_step always (fun x => os_chmod x mode) (fs w, ok, err) x.
Proof.
  unfold chmod_item, sweep_step, always. run_monad.
  destruct (os_chmod x mode (fs w)) as [[[]|e] t1]; simpl.
  - rewrite (incr_success (ChangePermissions d m r)). simpl. eauto 10.
  - rewrite (incr_errors (ChangePermissions d m r)). simpl. eauto 10.
Qed.

(** The three methods whose loop isolates every failure, as sweeps. *)
Lemma cleanup_empty_dirs_sweep d w :
  path_exists d (fs w) = true ->
  let S := sweep is_empty_dir os_rmdir (sorted_reverse (rglob_dot d (fs w))) (fs w, 0, 0) in
  exists det,
    fst (cleanup_empty_dirs d true w)
      = Return (results_of (CleanupEmptyDirs d true) (snd (fst S)) (snd S) det) /\
    fs (snd (cleanup_empty_dirs d true w)) = fst (fst S).
Proof.
  intros Hex S.
  destruct (cleanup_empty_dirs_unfold d true w Hex) as (dict & w' & E & Hf & _ & Hd).
  cbv zeta in Hf, Hd. unfold started in Hf, Hd. rewrite fresh_results_of in Hf, Hd.
  destruct (loop_is_sweep _ _ _ _ (remove_if_empty_step d true)
              (sorted_reverse (rglob_dot d (fs w)))
              (mkWorld (fs w)
                 (log w ++ [Log INFO "Cleaning empty directories in {target_dir}" [APath d]])
                 (clock w)) 0 0 [])
    as (w1 & ok & err & det & E1 & S1).
  rewrite E1 in Hf, Hd. simpl in Hf, Hd, S1. rewrite E. simpl.
  exists det. unfold S. rewrite <- S1. simpl. split; [|done].
  f_equal. by apply (Hd tt).
Qed.

Lemma cleanup_old_files_sweep d days w :
  path_exists d (fs w) = true ->
  let S := sweep (is_old_file (clock w - days * 86400)) os_unlink
             (rglob_star d (fs w)) (fs w, 0, 0) in
  exists det,
    fst (cleanup_old_files d days w)
      = Return (results_of (CleanupOldFiles d days) (snd (fst S)) (snd S) det) /\
    fs (snd (cleanup_old_files d days w)) = fst (fst S).
Proof.
  intros Hex S.
  destruct (cleanup_old_files_unfold d days w Hex) as (dict & w' & E & Hf & _ & Hd).
  cbv zeta in Hf, Hd. unfold started in Hf, Hd. rewrite fresh_results_of in Hf, Hd.
  destruct (loop_is_sweep _ _ _ _ (delete_if_old_step d days (clock w - days * 86400))
              (rglob_star d (fs w))
              (mkWorld (fs w)
                 (log w ++ [Log INFO "Cleaning files older than {days} days in {target_dir}"
                                [AInt days; APath d]])
                 (clock w)) 0 0 [])
    as (w1 & ok & err & det & E1 & S1).
  rewrite E1 in Hf, Hd. simpl in Hf, Hd, S1. rewrite E. simpl.
  exists det. unfold S. rewrite <- S1. simpl. split; [|done].
  f_equal. by apply (Hd tt).
Qed.

Lemma change_permissions_sweep d mode w :
  is_dir d (fs w) = true ->
  let S := sweep always (fun x => os_chmod x mode) (rglob_star d (fs w)) (fs w, 0, 0) in
  exists det,
    fst (change_permissions d mode true w)
      = Return (results_of (ChangePermissions d mode true) (snd (fst S)) (snd S) det) /\
    fs (snd (change_permissions d mode true w)) = fst (fst S).
Proof.
  intros Hd0 S.
  assert (Hex : path_exists d (fs w) = true).
  { unfold is_dir in Hd0. unfold path_exists. by destruct (lookup_path d (fs w)). }
  destruct (change_permissions_unfold d mode true w Hex) as (dict & w' & E & Hf & _ & Hd).
  cbv zeta in Hf, Hd. rewrite Hd0 in Hf, Hd. simpl in Hf, Hd.
  unfold started in Hf, Hd. rewrite fresh_results_of in Hf, Hd.
  destruct (loop_is_sweep _ _ _ _ (chmod_item_step d mode true mode)
              (rglob_star d (fs w))
              (mkWorld (fs w)
                 (log w ++ [Log INFO "Changing permissions for {target_path} to {oct(mode)}"
                                [APath d; AInt mode]])
                 (clock w)) 0 0 [])
    as (w1 & ok & err & det & E1 & S1).
  rewrite E1 in Hf, Hd. simpl in Hf, Hd, S1. rewrite E. simpl.
  exists det. unfold S. rewrite <- S1. simpl. split; [|done].
  f_equal. by apply (Hd tt).
Qed.

(* --------------------------------------------------------------------- *)
(** *** Unlinking an entry *)
(* --------------------------------------------------------------------- *)

Lemma parent_app_cons q c r : parent (q ++ c :: r) = q ++ parent (c :: r).
Proof.
  unfold parent. induction q as [|a q IH]; [done|].
  simpl. rewrite IH. by destruct q.
Qed.

Lemma name_app_cons q c r : name (q ++ c :: r) = name (c :: r).
Proof.
  unfold name. induction q as [|a q IH]; [done|].
  simpl. rewrite IH. by destruct q.
Qed.

(** At and below the unlinked entry nothing resolves any more. *)
Lemma lookup_detach_below p r t :
  p <> [] -> lookup_path (p ++ r) (detach p t) = None.
Proof.
  intros Hp. unfold detach. rewrite (parent_name p Hp) at 1.
  rewrite <- app_assoc, lookup_update_below. simpl.
  destruct (lookup_path (parent p) t) as [[m|m es]|]; simpl; try done.
  rewrite assoc_remove_entry. by destruct (decide (name p = name p)).
Qed.

(** Above it, the directory met on the way is rewritten the same way. *)
Lemma lookup_detach_above q c r t :
  lookup_path q (detach (q ++ c :: r) t) = detach (c :: r) <$> lookup_path q t.
Proof.
  unfold detach. rewrite parent_app_cons, name_app_cons. apply lookup_update_above.
Qed.

(** Beside it, nothing changes. *)
Lemma lookup_detach_beside k x y p q t :
  x <> y ->
  lookup_path (k ++ y :: q) (detach (k ++ x :: p) t) = lookup_path (k ++ y :: q) t.
Proof.
  intros Hxy. unfold detach. rewrite parent_app_cons, name_app_cons.
  destruct p as [|c p].
  - change (parent [x]) with (@nil string). change (name [x]) with x.
    rewrite app_nil_r, lookup_update_below, lookup_path_app.
    destruct (lookup_path k t) as [[m|m es]|]; simpl; try done.
    rewrite assoc_remove_entry. by destruct (decide (x = y)).
  - change (parent (x :: c :: p)) with (x :: parent (c :: p)).
    by apply lookup_update_beside.
Qed.

Lemma detach_cons_meta c r n : node_meta (detach (c :: r) n) = node_meta n.
Proof.
  unfold detach. destruct r as [|c' r].
  - change (parent [c]) with (@nil string). simpl. by destruct n.
  - change (parent (c :: c' :: r)) with (c :: parent (c' :: r)). simpl. by destruct n.
Qed.

Lemma detach_cons_kind c r n : is_dir_node (detach (c :: r) n) = is_dir_node n.
Proof.
  unfold detach. destruct r as [|c' r].
  - change (parent [c]) with (@nil string). simpl. by destruct n.
  - change (parent (c :: c' :: r)) with (c :: parent (c' :: r)). simpl. by destruct n.
Qed.

(** Unlinking creates nothing: what resolves afterwards resolved before, to a
    node of the same kind and inode, and a file is left as it was. *)
Lemma lookup_detach_Some p q t n :
  p <> [] ->
  lookup_path q (detach p t) = Some n ->
  exists n', lookup_path q t = Some n' /\
    node_meta n' = node_meta n /\ is_dir_node n' = is_dir_node n /\
    (is_dir_node n = false -> n' = n).
Proof.
  intros Hp. destruct (path_relation_total p q) as [r ->|c r ->|k x y p' q' -> -> Hxy].
  - by rewrite lookup_detach_below.
  - rewrite lookup_detach_above. destruct (lookup_path q t) as [n'|]; [|done].
    simpl. intros [= <-]. exists n'. rewrite detach_cons_meta, detach_cons_kind.
    repeat split; auto. intros Hk. destruct n'; [|done].
    unfold detach. by destruct (parent (c :: r)).
  - rewrite lookup_detach_beside by done. intros ->. eauto.
Qed.

(** The inode met at a path that is not at or below the unlinked entry. *)
Lemma lookup_detach_meta p q t :
  p <> [] -> ~ p `prefix_of` q ->
  node_meta <$> lookup_path q (detach p t) = node_meta <$> lookup_path q t.
Proof.
  intros Hp Hn. destruct (path_relation_total p q) as [r ->|c r ->|k x y p' q' -> -> Hxy].
  - exfalso. apply Hn. by exists r.
  - rewrite lookup_detach_above. destruct (lookup_path q t); [|done].
    simpl. by rewrite detach_cons_meta.
  - by rewrite lookup_detach_beside.
Qed.

(** [os.rmdir] and [os.unlink] either fail and leave the tree, or unlink. *)
Lemma os_rmdir_cases x t :
  (exists e, os_rmdir x t = (Raise e, t)) \/
  (os_rmdir x t = (Return tt, detach x t) /\ x <> [] /\
   exists m, lookup_path x t = Some (Dir m []) /\ immutable m = false /\
             immutable_at (parent x) t = false).
Proof.
  unfold os_rmdir, fail, okay.
  destruct (lookup_path x t) as [[m|m [|e es]]|]; try (left; eexists; reflexivity).
  destruct x as [|c x]; try (left; eexists; reflexivity).
  destruct (immutable m) eqn:E1, (immutable_at (parent (c :: x)) t) eqn:E2;
    cbn [orb]; try (left; eexists; reflexivity).
  right. repeat split; eauto.
Qed.

Lemma os_unlink_cases x t :
  (exists e, os_unlink x t = (Raise e, t)) \/
  (os_unlink x t = (Return tt, detach x t) /\
   exists m, lookup_path x t = Some (File m) /\ immutable m = false /\
             immutable_at (parent x) t = false).
Proof.
  unfold os_unlink, fail, okay.
  destruct (lookup_path x t) as [[m|m es]|]; try (left; eexists; reflexivity).
  destruct (immutable m) eqn:E1, (immutable_at (parent x) t) eqn:E2;
    cbn [orb]; try (left; eexists; reflexivity).
  right. repeat split; eauto.
Qed.

Lemma lookup_file_nonempty x t m : lookup_path x t = Some (File m) -> x <> [] \/ t = File m.
Proof. destruct x; [intros [= ->]; by right|by left]. Qed.
(* --------------------------------------------------------------------- *)
(** *** Removing empty directories, deepest first *)
(* --------------------------------------------------------------------- *)

Lemma sweep_tree guard mutate xs : forall t ok err,
  fst (fst (sweep guard mutate xs (t, ok, err)))
  = fold_left (tree_step guard mutate) xs t.
Proof.
  induction xs as [|x xs IH]; intros t ok err; [done|].
  unfold sweep in *. simpl. unfold tree_step at 2.
  destruct (guard x t); [|apply IH].
  destruct (mutate x t) as [[[]|e] t']; apply IH.
Qed.

(** A step of the sweep of [cleanup_empty_dirs] leaves the tree or removes
    the directory, which was empty and could be removed. *)
Lemma rmdir_step_cases t x :
  tree_step is_empty_dir os_rmdir t x = t \/
  (tree_step is_empty_dir os_rmdir t x = detach x t /\ x <> [] /\
   exists m, lookup_path x t = Some (Dir m []) /\ immutable m = false /\
             immutable_at (parent x) t = false).
Proof.
  unfold tree_step. destruct (is_empty_dir x t); [|by left].
  destruct (os_rmdir_cases x t) as [(e & ->)|(-> & H)]; [by left|by right].
Qed.

Lemma rmdir_step_removes t x m :
  x <> [] -> lookup_path x t = Some (Dir m []) -> immutable m = false ->
  immutable_at (parent x) t = false ->
  tree_step is_empty_dir os_rmdir t x = detach x t.
Proof.
  intros Hx Hl Hm Hp. unfold tree_step, is_empty_dir, os_rmdir. rewrite Hl.
  destruct x; [done|]. by rewrite Hm, Hp.
Qed.

Lemma prefix_of_parent (d a : path) : d `prefix_of` parent a -> d `prefix_of` a.
Proof.
  intros H. destruct a as [|c a]; [done|].
  rewrite (parent_name (c :: a)) by done. by apply prefix_app_r.
Qed.

Lemma immutable_at_detach d q t :
  d <> [] -> ~ d `prefix_of` q -> immutable_at q (detach d t) = immutable_at q t.
Proof.
  intros Hd Hn. unfold immutable_at.
  pose proof (lookup_detach_meta d q t Hd Hn) as H.
  destruct (lookup_path q (detach d t)), (lookup_path q t); simpl in H; congruence.
Qed.

Section chain.
Context (a : path) (y z : string) (ma mb mc : meta).
Hypothesis a_not_root : a <> [].
Hypothesis mutable_a : immutable ma = false.
Hypothesis mutable_b : immutable mb = false.
Hypothesis mutable_c : immutable mc = false.

Local Abbreviation left_of := (chain_left a y z ma mb mc).
Local Abbreviation at_most := (chain_at_most a y z ma mb mc).

Lemma chain_at_most_mono k k' t : (k <= k')%nat -> at_most k t -> at_most k' t.
Proof. intros Hk (j & Hj & H). exists j. split; [lia|done]. Qed.

(** Removing a directory of the chain: only the deepest one left is empty. *)
Lemma chain_remove_inside j r m t :
  left_of j t -> lookup_path (a ++ r) t = Some (Dir m []) ->
  exists j', j = S j' /\ left_of j' (detach (a ++ r) t) /\
    (j' <> 0%nat -> r <> []).
Proof.
  intros Hj. rewrite lookup_path_app.
  destruct j as [|[|[|[|j]]]]; simpl in Hj; try done; rewrite Hj.
  - done.
  - (* [a] alone *)
    destruct r as [|c r]; simpl; [|done]. intros _. exists 0%nat.
    split; [done|]. split; [|done]. simpl.
    pose proof (lookup_detach_below a [] t a_not_root) as H.
    by rewrite !app_nil_r in *.
  - (* [a/y] *)
    destruct r as [|c r]; simpl; [done|]. rewrite (eqb_decide y c).
    case_bool_decide as Hc; [subst c|done].
    destruct r as [|c' r]; simpl; [|done]. intros _. exists 1%nat.
    split; [done|]. split; [|done]. simpl.
    rewrite lookup_detach_above, Hj. simpl. unfold detach. simpl.
    by rewrite String.eqb_refl.
  - (* [a/y/z] *)
    destruct r as [|c r]; simpl; [done|]. rewrite (eqb_decide y c).
    case_bool_decide as Hc; [subst c|done].
    destruct r as [|c' r]; simpl; [done|]. rewrite (eqb_decide z c').
    case_bool_decide as Hc'; [subst c'|done].
    destruct r as [|c'' r]; simpl; [|done]. intros _. exists 2%nat.
    split; [done|]. split; [|done]. simpl.
    rewrite lookup_detach_above, Hj. simpl. unfold detach. simpl.
    by rewrite !String.eqb_refl.
Qed.

(** A step on a directory that is not properly above the chain takes
    nothing back. *)
Lemma chain_step k t d :
  (forall c r, a <> d ++ c :: r) ->
  at_most k t -> at_most k (tree_step is_empty_dir os_rmdir t d).
Proof.
  intros Hd (j & Hjk & Hj & Himm).
  destruct (rmdir_step_cases t d) as [->|(-> & Hne & m & Hl & _)]; [by exists j|].
  destruct (path_relation_total a d) as [r ->|c r ->|k0 x x' a' d' -> -> Hxy].
  - destruct (chain_remove_inside j r m t Hj Hl) as (j' & -> & Hj' & Hr).
    exists j'. split; [lia|]. split; [done|]. intros H0.
    rewrite immutable_at_detach; [auto|done|].
    intros Hp%prefix_of_parent. apply prefix_length in Hp.
    rewrite length_app in Hp. specialize (Hr H0). destruct r; [done|simpl in Hp; lia].
  - by destruct (Hd c r).
  - exists j. split; [done|]. split.
    + destruct j as [|[|[|[|j]]]]; simpl in *; try done;
        by rewrite lookup_detach_beside.
    + intros H0. rewrite immutable_at_detach; [auto|done|].
      intros [s Hs]%prefix_of_parent. rewrite <- app_assoc in Hs.
      apply app_inv_head in Hs. simpl in Hs. congruence.
Qed.

Lemma chain_steps k t ds :
  (forall d, d ∈ ds -> forall c r, a <> d ++ c :: r) ->
  at_most k t -> at_most k (fold_left (tree_step is_empty_dir os_rmdir) ds t).
Proof.
  revert t. induction ds as [|d ds IH]; intros t Hds H; [done|].
  simpl. apply IH.
  - intros d' Hd'. apply Hds. by right.
  - apply chain_step; [|done]. apply Hds. by left.
Qed.

(** The step on the deepest directory left removes it. *)
Lemma chain_step_down k t r :
  r = match k with 0%nat => [] | 1%nat => [y] | _ => [y; z] end ->
  at_most (S k) t -> (k <= 2)%nat ->
  at_most k (tree_step is_empty_dir os_rmdir t (a ++ r)).
Proof.
  intros Hr (j & Hjk & Hj & Himm) Hk.
  destruct (decide (j = S k)) as [->|Hne].
  2: { apply chain_step; [|exists j; split; [lia|done]].
       intros c s E. apply (f_equal length) in E. rewrite !length_app in E.
       simpl in E. lia. }
  assert (Hl : exists m, lookup_path (a ++ r) t = Some (Dir m []) /\ immutable m = false /\
                         immutable_at (parent (a ++ r)) t = false).
  { rewrite lookup_path_app. unfold immutable_at.
    destruct k as [|[|[|k]]]; simpl in Hj; try lia; subst r.
    - rewrite app_nil_r, Hj. exists ma. repeat split; auto.
    - rewrite parent_snoc, Hj. simpl. rewrite String.eqb_refl. by exists mb.
    - replace (a ++ [y; z]) with ((a ++ [y]) ++ [z]) by (by rewrite <- app_assoc).
      rewrite parent_snoc, lookup_path_app, Hj. simpl. rewrite !String.eqb_refl.
      simpl. rewrite ?String.eqb_refl. by exists mc. }
  destruct Hl as (m & Hl & Hm & Hp).
  rewrite (rmdir_step_removes t (a ++ r) m); auto.
  2: { destruct a; [done|]. done. }
  destruct (chain_remove_inside (S k) r m t Hj Hl) as (j' & [= <-] & Hj' & Hr').
  exists k. split; [lia|]. split; [done|]. intros H0.
  rewrite immutable_at_detach; [auto| |].
  - destruct a; done.
  - intros Hpre%prefix_of_parent. apply prefix_length in Hpre.
    rewrite length_app in Hpre. specialize (Hr' H0). destruct r; [done|simpl in Hpre; lia].
Qed.

(** Once the chain is gone it stays gone. *)
Lemma chain_gone t ds :
  lookup_path a t = None ->
  lookup_path a (fold_left (tree_step is_empty_dir os_rmdir) ds t) = None.
Proof.
  revert t. induction ds as [|d ds IH]; intros t H; [done|]. simpl. apply IH.
  destruct (rmdir_step_cases t d) as [->|(-> & Hne & _)]; [done|].
  destruct (lookup_path a (detach d t)) as [n|] eqn:E; [|done].
  apply lookup_detach_Some in E as (n' & E & _); [congruence|done].
Qed.
End chain.
Lemma sorted_split_first (L : list path) (a : path) :
  StronglySorted (flip path_le) L -> a ∈ L ->
  exists X Y, L = X ++ a :: Y /\ StronglySorted (flip path_le) X /\
    (forall d, d ∈ X -> path_le a d) /\ (forall d, d ∈ Y -> path_le d a).
Proof.
  intros HS Ha. apply list_elem_of_split in Ha as (X & Y & ->).
  exists X, Y. split; [done|]. split; [by apply StronglySorted_app_1_l in HS|]. split.
  - intros d Hd. apply (StronglySorted_app_1_elem_of _ _ _ d a HS Hd). by left.
  - intros d Hd. apply StronglySorted_app_1_r, StronglySorted_inv in HS as [_ HF].
    rewrite Forall_forall in HF. by apply HF.
Qed.

Lemma path_le_not_above a d c r : path_le a d -> a <> d ++ c :: r.
Proof.
  intros H ->. unfold path_le in H.
  by rewrite path_compare_antisym, path_compare_below in H.
Qed.

Lemma not_path_le_below a c r : ~ path_le (a ++ c :: r) a.
Proof. intros H. by apply (path_le_not_above _ _ c r H). Qed.

(** A chain [a/y/z] of empty, removable directories is removed by one sweep
    over a list sorted deepest first that holds the three. *)
Lemma chain_removed a y z ma mb mc t L :
  a <> [] -> immutable ma = false -> immutable mb = false -> immutable mc = false ->
  StronglySorted (flip path_le) L ->
  a ∈ L -> a ++ [y] ∈ L -> a ++ [y; z] ∈ L ->
  lookup_path a t = Some (Dir ma [(y, Dir mb [(z, Dir mc [])])]) ->
  immutable_at (parent a) t = false ->
  lookup_path a (fold_left (tree_step is_empty_dir os_rmdir) L t) = None.
Proof.
  intros Ha Hma Hmb Hmc HS Ia Ib Ic Hl Hp.
  destruct (sorted_split_first L a HS Ia) as (X & L4 & -> & HSX & HX & HL4).
  assert (Ib' : a ++ [y] ∈ X).
  { apply elem_of_app in Ib as [?|[E|Hin]%elem_of_cons]; [done| |].
    - apply (f_equal length) in E. rewrite length_app in E. simpl in E. lia.
    - by apply HL4, not_path_le_below in Hin. }
  assert (Ic' : a ++ [y; z] ∈ X).
  { apply elem_of_app in Ic as [?|[E|Hin]%elem_of_cons]; [done| |].
    - apply (f_equal length) in E. rewrite length_app in E. simpl in E. lia.
    - by apply HL4, not_path_le_below in Hin. }
  destruct (sorted_split_first X (a ++ [y]) HSX Ib') as (Y & L3 & -> & HSY & HY & HL3).
  assert (Ic'' : a ++ [y; z] ∈ Y).
  { apply elem_of_app in Ic' as [?|[E|Hin]%elem_of_cons]; [done| |].
    - apply (f_equal length) in E. rewrite !length_app in E. simpl in E. lia.
    - apply HL3 in Hin. replace (a ++ [y; z]) with ((a ++ [y]) ++ [z]) in Hin
        by (by rewrite <- app_assoc). by apply not_path_le_below in Hin. }
  apply list_elem_of_split in Ic'' as (L1 & L2 & ->).
  assert (Hnot : forall d, d ∈ (L1 ++ (a ++ [y; z]) :: L2) ++ (a ++ [y]) :: L3 ->
                           forall c r, a <> d ++ c :: r).
  { intros d Hd c r. by apply path_le_not_above, HX. }
  rewrite !fold_left_app. simpl. rewrite ?fold_left_app. simpl.
  apply chain_gone.
  match goal with
  | |- lookup_path a ?T = None => assert (H0 : chain_at_most a y z ma mb mc 0 T)
  end.
  { match goal with
    | |- chain_at_most _ _ _ _ _ _ _ (tree_step _ _ ?T' a) =>
        cut (chain_at_most a y z ma mb mc 1 T');
          [intros H1;
           pose proof (chain_step_down a y z ma mb mc Ha Hma Hmb Hmc 0 T' []
                         eq_refl H1 ltac:(lia)) as H0;
           by rewrite app_nil_r in H0|]
    end.
    apply chain_steps; [done| |].
    { intros d Hd. apply Hnot.
      repeat (rewrite elem_of_app || rewrite elem_of_cons). tauto. }
    apply (chain_step_down a y z ma mb mc Ha Hma Hmb Hmc 1); [done| |lia].
    apply chain_steps; [done| |].
    { intros d Hd. apply Hnot.
      repeat (rewrite elem_of_app || rewrite elem_of_cons). tauto. }
    apply (chain_step_down a y z ma mb mc Ha Hma Hmb Hmc 2); [done| |lia].
    apply chain_steps; [done| |].
    { intros d Hd. apply Hnot.
      repeat (rewrite elem_of_app || rewrite elem_of_cons). tauto. }
    exists 3%nat. split; [lia|]. split; [exact Hl|done]. }
  destruct H0 as (j & Hj & Hleft & _). by replace j with 0%nat in Hleft by lia.
Qed.

(** The target itself is the last directory of the list. *)
Lemma sorted_reverse_root_last target t :
  is_dir target t = true ->
  exists l, sorted_reverse (rglob_dot target t) = l ++ [target] /\
    forall q, q ∈ l -> exists c r, q = target ++ c :: r.
Proof.
  intros Hd. destruct (rglob_dot_is_dir target t Hd) as (rest & E & Hrest).
  pose proof (sorted_reverse_sorted (rglob_dot target t)) as HS.
  pose proof (sorted_reverse_perm (rglob_dot target t)) as HP.
  rewrite E in HP.
  assert (Hin : target ∈ sorted_reverse (rglob_dot target t)).
  { rewrite E. apply elem_of_sorted_reverse. by left. }
  destruct (sorted_split_first _ target HS Hin) as (X & Y & EL & _ & _ & HY).
  rewrite E in EL. rewrite EL in HP.
  apply Permutation_sym, Permutation_cons_app_inv in HP.
  destruct Y as [|y Y].
  - exists X. rewrite E, EL. split; [done|]. intros q Hq. apply Hrest.
    rewrite HP. rewrite app_nil_r. done.
  - exfalso. assert (Hy : y ∈ rest) by (rewrite HP; apply elem_of_app; right; by left).
    destruct (Hrest y Hy) as (c & r & ->).
    apply (not_path_le_below target c r), HY. by left.
Qed.
Lemma cleanup_empty_dirs_tree d w :
  path_exists d (fs w) = true ->
  fs (snd (cleanup_empty_dirs d true w))
  = fold_left (tree_step is_empty_dir os_rmdir) (sorted_reverse (rglob_dot d (fs w))) (fs w).
Proof.
  intros Hex. destruct (cleanup_empty_dirs_sweep d w Hex) as (det & _ & ->).
  apply sweep_tree.
Qed.

Lemma path_exists_prefix p r t : path_exists (p ++ r) t = true -> path_exists p t = true.
Proof.
  unfold path_exists. rewrite lookup_path_app. by destruct (lookup_path p t).
Qed.

Lemma path_exists_below p r t : path_exists p t = false -> path_exists (p ++ r) t = false.
Proof.
  unfold path_exists. rewrite lookup_path_app. by destruct (lookup_path p t).
Qed.

(** C6. In one recursive run of [cleanup_empty_dirs] every directory is gone
    through after all the directories below it; so a chain [a/y/z] of empty
    directories below the root (none of them the root) is removed whole:
    [a/y/z], then [a/y], by then empty, then [a]. *)
Theorem deepest_first_removes_chain
    (w : World) (target a : path) (y z : string) (ma mb mc : meta) :
  (exists c r, a = target ++ c :: r) ->
  lookup_path a (fs w) = Some (Dir ma [(y, Dir mb [(z, Dir mc [])])]) ->
  immutable ma = false -> immutable mb = false -> immutable mc = false ->
  immutable_at (parent a) (fs w) = false ->
  let dirs := sorted_reverse (rglob_dot target (fs w)) in
  let w' := snd (cleanup_empty_dirs target true w) in
  (forall p c r, p ∈ rglob_dot target (fs w) -> p ++ c :: r ∈ rglob_dot target (fs w) ->
     exists l1 l2 l3, dirs = l1 ++ (p ++ c :: r) :: l2 ++ p :: l3) /\
  (exists l1 l2 l3 l4, dirs = l1 ++ (a ++ [y; z]) :: l2 ++ (a ++ [y]) :: l3 ++ a :: l4) /\
  path_exists (a ++ [y; z]) (fs w') = false /\
  path_exists (a ++ [y]) (fs w') = false /\
  path_exists a (fs w') = false.
Proof.
  intros (c0 & r0 & Ea) Hl Hma Hmb Hmc Hp dirs w'.
  assert (Ia : a ∈ rglob_dot target (fs w)).
  { rewrite Ea in Hl |- *. eapply rglob_dot_complete; eauto. }
  assert (Ib : a ++ [y] ∈ rglob_dot target (fs w)).
  { rewrite Ea, <- app_assoc. eapply (rglob_dot_complete _ _ _ mb).
    rewrite app_assoc, <- Ea, lookup_path_app, Hl. simpl. by rewrite String.eqb_refl. }
  assert (Ic : a ++ [y; z] ∈ rglob_dot target (fs w)).
  { rewrite Ea, <- app_assoc. eapply (rglob_dot_complete _ _ _ mc).
    rewrite app_assoc, <- Ea, lookup_path_app, Hl. simpl. rewrite String.eqb_refl.
    simpl. by rewrite String.eqb_refl. }
  assert (Hgone : lookup_path a (fs w') = None).
  { unfold w'. rewrite cleanup_empty_dirs_tree.
    - apply (chain_removed a y z ma mb mc); auto.
      + rewrite Ea. by destruct target.
      + apply sorted_reverse_sorted.
      + by apply elem_of_sorted_reverse.
      + by apply elem_of_sorted_reverse.
      + by apply elem_of_sorted_reverse.
    - apply (path_exists_prefix target (c0 :: r0)). rewrite <- Ea.
      unfold path_exists. by rewrite Hl. }
  assert (Hex : path_exists a (fs w') = false) by (unfold path_exists; by rewrite Hgone).
  split; [intros p c r; apply sorted_reverse_deepest_first|].
  split; [|by rewrite !path_exists_below].
  destruct (sorted_reverse_deepest_first _ _ y [] Ia Ib) as (k1 & k2 & k3 & E1).
  destruct (sorted_reverse_deepest_first _ (a ++ [y]) z [] Ib) as (j1 & j2 & j3 & E2).
  { by rewrite <- app_assoc. }
  rewrite <- app_assoc in E2. simpl in E2.
  (* the three occurrences, in this order *)
  pose proof (sorted_reverse_sorted (rglob_dot target (fs w))) as HS.
  fold dirs in E1, E2, HS.
  assert (Hin : a ∈ j3).
  { assert (Hd : a ∈ dirs) by (unfold dirs; by apply elem_of_sorted_reverse).
    rewrite E2 in Hd, HS.
    apply elem_of_app in Hd as [Hd|[Hd|Hd]%elem_of_cons].
    - exfalso. apply (StronglySorted_app_1_elem_of _ _ _ a (a ++ [y; z]) HS) in Hd;
        [|by left]. by apply not_path_le_below in Hd.
    - apply (f_equal length) in Hd. rewrite length_app in Hd. simpl in Hd. lia.
    - apply elem_of_app in Hd as [Hd|[Hd|Hd]%elem_of_cons]; [| |done].
      + exfalso. apply StronglySorted_app_1_r, StronglySorted_inv in HS as [HS _].
        apply (StronglySorted_app_1_elem_of _ _ _ a (a ++ [y]) HS) in Hd; [|by left].
        by apply not_path_le_below in Hd.
      + apply (f_equal length) in Hd. rewrite length_app in Hd. simpl in Hd. lia. }
  apply list_elem_of_split in Hin as (l3 & l4 & ->). by exists j1, j2, l3, l4.
Qed.

Lemma deepest_first_removes_chain_witness :
  path_exists ["work"; "a"]
    (fs (snd (cleanup_empty_dirs ["work"] true (world_of tree_chain 0)))) = false.
Proof.
  apply (deepest_first_removes_chain (world_of tree_chain 0) ["work"] ["work"; "a"]
           "b" "c" (Meta 493 0 4096 false) (Meta 493 0 4096 false) (Meta 493 0 4096 false)).
  - by exists "a", [].
  - reflexivity.
  - reflexivity.
  - reflexivity.
  - reflexivity.
  - reflexivity.
Defined.

(** C3, as stated, fails: invoked on [work/a], whose only content is the
    chain of empty directories [b/c], the run removes [c], [b] and then
    [work/a] itself, the root it was invoked on. *)
Lemma root_is_removed_once_empty :
  is_dir ["work"; "a"] tree_chain = true /\
  path_exists ["work"; "a"]
    (fs (snd (cleanup_empty_dirs ["work"; "a"] true (world_of tree_chain 0)))) = false /\
  counter "removed" (fst (cleanup_empty_dirs ["work"; "a"] true (world_of tree_chain 0)))
    = Some 3.
Proof. vm_compute. auto. Qed.

(** C3, amended. In a recursive run of [cleanup_empty_dirs] the root is a
    removal candidate like every directory below it: it is the last one gone
    through, after all its descendants, and it is removed if it is empty by
    then (and [rmdir] is not refused). After the run the root is therefore
    never left behind as an empty directory that could have been removed. *)
Theorem root_is_the_last_removal_candidate (w : World) (target : path) :
  is_dir target (fs w) = true ->
  let w' := snd (cleanup_empty_dirs target true w) in
  (exists below,
     sorted_reverse (rglob_dot target (fs w)) = below ++ [target] /\
     (forall q, q ∈ below -> exists c r, q = target ++ c :: r) /\
     fs w' = tree_step is_empty_dir os_rmdir
               (fold_left (tree_step is_empty_dir os_rmdir) below (fs w)) target) /\
  (forall m, lookup_path target (fs w') = Some (Dir m []) ->
     target = [] \/ immutable m = true \/ immutable_at (parent target) (fs w') = true).
Proof.
  intros Hd w'.
  assert (Hex : path_exists target (fs w) = true).
  { unfold is_dir in Hd. unfold path_exists. by destruct (lookup_path target (fs w)). }
  destruct (sorted_reverse_root_last target (fs w) Hd) as (below & E & Hbelow).
  assert (Hfs : fs w' = tree_step is_empty_dir os_rmdir
                  (fold_left (tree_step is_empty_dir os_rmdir) below (fs w)) target).
  { unfold w'. rewrite cleanup_empty_dirs_tree by done. by rewrite E, fold_left_app. }
  split; [by exists below|].
  intros m Hm. rewrite Hfs in Hm |- *.
  set (t1 := fold_left (tree_step is_empty_dir os_rmdir) below (fs w)) in *.
  destruct (decide (target = [])) as [|Hne]; [by left|right].
  destruct (rmdir_step_cases t1 target) as [E1|(E1 & _ & _)]; rewrite E1 in Hm |- *.
  - destruct (immutable m) eqn:Hi; [by left|right].
    destruct (immutable_at (parent target) t1) eqn:Hp; [done|].
    rewrite (rmdir_step_removes t1 target m Hne Hm Hi Hp) in E1.
    rewrite <- E1 in Hm.
    pose proof (lookup_detach_below target [] t1 Hne) as Hnone.
    rewrite app_nil_r in Hnone. congruence.
  - pose proof (lookup_detach_below target [] t1 Hne) as Hnone.
    rewrite app_nil_r in Hnone. congruence.
Qed.

Lemma root_is_the_last_removal_candidate_witness :
  exists below,
    sorted_reverse (rglob_dot ["work"; "a"] (fs (world_of tree_chain 0)))
      = below ++ [["work"; "a"]].
Proof.
  destruct (root_is_the_last_removal_candidate (world_of tree_chain 0) ["work"; "a"]
              eq_refl) as [(below & E & _) _].
  by exists below.
Defined.

(* --------------------------------------------------------------------- *)
(** *** Changing permissions *)
(* --------------------------------------------------------------------- *)

Lemma update_cons_meta c r g n : node_meta (update_path (c :: r) g n) = node_meta n.
Proof. by destruct n. Qed.

(** Rewriting the inode at [p] changes the inode met at [p] and at no other
    path. *)
Lemma stat_at_set_meta p q f t :
  stat_at q (update_path p (set_meta f) t)
  = (if decide (p = q) then f else id) <$> stat_at q t.
Proof.
  unfold stat_at.
  destruct (path_relation_total p q) as [r ->|c r ->|k x y p' q' -> -> Hxy].
  - rewrite lookup_update_below, lookup_path_app.
    destruct (lookup_path p t) as [n|]; simpl; [|done].
    destruct r as [|c r].
    + rewrite app_nil_r. destruct (decide (p = p)); [|done]. by destruct n.
    + destruct (decide (p = p ++ c :: r)) as [E|_].
      { apply (f_equal length) in E. rewrite length_app in E. simpl in E. lia. }
      destruct n as [m|m es]; simpl; [done|]. rewrite option_fmap_id. done.
  - rewrite lookup_update_above.
    destruct (decide (q ++ c :: r = q)) as [E|_].
    { apply (f_equal length) in E. rewrite length_app in E. simpl in E. lia. }
    destruct (lookup_path q t) as [n|]; simpl; [|done].
    by destruct n.
  - rewrite lookup_update_beside by done.
    destruct (decide (k ++ x :: p' = k ++ y :: q')) as [E|_].
    { apply app_inv_head in E. congruence. }
    by rewrite option_fmap_id.
Qed.

Lemma os_chmod_cases x mode t :
  (exists e, os_chmod x mode t = (Raise e, t) /\
     (path_exists x t = false \/ immutable_at x t = true)) \/
  (os_chmod x mode t = (Return tt, update_path x (set_meta (chmod_meta mode)) t) /\
   path_exists x t = true /\ immutable_at x t = false).
Proof.
  unfold os_chmod, path_exists, immutable_at, fail, okay.
  destruct (lookup_path x t) as [n|]; [|left; eauto].
  destruct (immutable (node_meta n)); [left; eauto|right; eauto].
Qed.



Lemma chmod_meta_idemp mode m : chmod_meta mode (chmod_meta mode m) = chmod_meta mode m.
Proof. done. Qed.


Lemma sweep_cons guard mutate x xs acc :
  sweep guard mutate (x :: xs) acc = sweep guard mutate xs (sweep_step guard mutate acc x).
Proof. done. Qed.




(* --------------------------------------------------------------------- *)
(** *** Large files *)
(* --------------------------------------------------------------------- *)




(* --------------------------------------------------------------------- *)
(** *** Deleting old files *)
(* --------------------------------------------------------------------- *)

Lemma sweep_step_errors guard mutate t ok err x :
  err <= snd (sweep_step guard mutate (t, ok, err) x).
Proof.
  unfold sweep_step. destruct (guard x t); simpl; [|lia].
  destruct (mutate x t) as [[[]|e] t']; simpl; lia.
Qed.

Lemma sweep_errors guard mutate xs : forall t ok err,
  err <= snd (sweep guard mutate xs (t, ok, err)).
Proof.
  induction xs as [|x xs IH]; intros t ok err; [simpl; lia|].
  rewrite sweep_cons.
  pose proof (sweep_step_errors guard mutate t ok err x) as H1.
  destruct (sweep_step guard mutate (t, ok, err) x) as [[t1 ok1] err1].
  specialize (IH t1 ok1 err1). simpl in *. lia.
Qed.

(** A sweep whose guard selects nothing does nothing. *)
Lemma sweep_nothing guard mutate xs t ok err :
  (forall x, x ∈ xs -> guard x t = false) ->
  sweep guard mutate xs (t, ok, err) = (t, ok, err).
Proof.
  induction xs as [|x xs IH]; intros H; [done|].
  rewrite sweep_cons. unfold sweep_step. rewrite H by (by left).
  apply IH. intros x' Hx'. apply H. by right.
Qed.

(** A sweep of [cleanup_old_files] that ends without an error leaves no old
    file among the paths gone through, and what it leaves was there. *)
Lemma unlink_sweep_clean cutoff xs : forall t ok err t' ok',
  (forall x, x ∈ xs -> x <> []) ->
  sweep (is_old_file cutoff) os_unlink xs (t, ok, err) = (t', ok', err) ->
  (forall x, x ∈ xs -> is_old_file cutoff x t' = false) /\
  (forall q n', lookup_path q t' = Some n' ->
     exists n, lookup_path q t = Some n /\ (is_dir_node n' = false -> n = n')).
Proof.
  induction xs as [|x xs IH]; intros t ok err t' ok' Hne E.
  - injection E as <- <-. split; [by intros x ?%elem_of_nil|eauto].
  - rewrite sweep_cons in E.
    pose proof (sweep_step_errors (is_old_file cutoff) os_unlink t ok err x) as H1.
    destruct (sweep_step (is_old_file cutoff) os_unlink (t, ok, err) x)
      as [[t1 ok1] err1] eqn:Es.
    pose proof (sweep_errors (is_old_file cutoff) os_unlink xs t1 ok1 err1) as H2.
    rewrite E in H2. simpl in H1, H2. assert (err1 = err) as -> by lia.
    destruct (IH t1 ok1 err t' ok') as (Hclean & Hback); [|done|].
    { intros x' Hx'. apply Hne. by right. }
    assert (Hx : x <> []) by (apply Hne; by left).
    unfold sweep_step in Es. destruct (is_old_file cutoff x t) eqn:Hg.
    + (* the file was old: it has been unlinked *)
      destruct (os_unlink_cases x t) as [(e & Eu)|(Eu & m & Hl & _)]; rewrite Eu in Es.
      { injection Es as _ _ Herr. lia. }
      injection Es as <- _. split.
      * intros x' [->|Hx']%elem_of_cons; [|by apply Hclean].
        unfold is_old_file. destruct (lookup_path x t') as [n'|] eqn:El'; [|done].
        apply Hback in El' as (n & El1 & _).
        pose proof (lookup_detach_below x [] t Hx) as Hnone.
        rewrite app_nil_r in Hnone. congruence.
      * intros q n' Hq. apply Hback in Hq as (n1 & Hq1 & Hsame).
        apply lookup_detach_Some in Hq1 as (n & Hq0 & _ & Hk & Hfile); [|done].
        exists n. split; [done|]. intros Hf. specialize (Hsame Hf). subst n1.
        by apply Hfile.
    + injection Es as <- _. split; [|done].
      intros x' [->|Hx']%elem_of_cons; [|by apply Hclean].
      unfold is_old_file in *. destruct (lookup_path x t') as [[m|m es]|] eqn:El'; try done.
      apply Hback in El' as (n & El & Hsame). rewrite (Hsame eq_refl) in El.
      by rewrite El in Hg.
Qed.
(** C8, as stated, fails: the second run reads the clock again. A file whose
    time stamp is the cutoff of the first run is kept by it (the run reports
    no error and leaves the tree as it was); a second later the file is older
    than the cutoff, and the second run deletes it. *)
Lemma second_cleanup_deletes_aged_file :
  let w := world_of tree_aged 86400 in
  let r1 := cleanup_old_files ["work"] 1 w in
  let r2 := cleanup_old_files ["work"] 1 (at_time 86401 (snd r1)) in
  counter "errors" (fst r1) = Some 0 /\
  fs (snd r1) = tree_aged /\
  fs (at_time 86401 (snd r1)) = fs (snd r1) /\
  counter "deleted" (fst r2) = Some 1.
Proof. vm_compute. auto. Qed.

(** C8, amended. If a run of [cleanup_old_files] reports no error and the
    tree is not modified before a second run, the second run deletes nothing
    and reports no error, provided no file the first run kept has become
    older than the cutoff in the meantime, that is, has a modification time
    at or after the first cutoff but before the second (as when both runs
    compare against the same cutoff). *)
Theorem second_cleanup_finds_nothing (w w2 : World) (target : path) (days : Z) :
  let r1 := cleanup_old_files target days w in
  let r2 := cleanup_old_files target days w2 in
  counter "errors" (fst r1) = Some 0 ->
  fs w2 = fs (snd r1) ->
  (forall p m, p ∈ rglob_star target (fs w) ->
     lookup_path p (fs w) = Some (File m) ->
     clock w - days * 86400 <= st_mtime m -> clock w2 - days * 86400 <= st_mtime m) ->
  counter "deleted" (fst r2) = Some 0 /\
  counter "errors" (fst r2) = Some 0 /\
  fs (snd r2) = fs w2.
Proof.
  intros r1 r2 Herr Hfs Hage.
  destruct (path_exists target (fs w2)) eqn:Hex2.
  2: { destruct (run_missing (CleanupOldFiles target days) w2 Hex2) as (? & ? & E & _).
       simpl in E. unfold r2. rewrite E. by vm_compute. }
  destruct (cleanup_old_files_sweep target days w2 Hex2) as (det2 & E2 & F2).
  cbv zeta in E2, F2.
  assert (Hnothing : forall x, x ∈ rglob_star target (fs w2) ->
            is_old_file (clock w2 - days * 86400) x (fs w2) = false).
  { destruct (path_exists target (fs w)) eqn:Hex1.
    2: { destruct (run_missing (CleanupOldFiles target days) w Hex1) as (? & ? & E & _).
         simpl in E. unfold r1 in Hfs. rewrite E in Hfs. simpl in Hfs.
         rewrite Hfs in Hex2. congruence. }
    destruct (cleanup_old_files_sweep target days w Hex1) as (det1 & E1 & F1).
    cbv zeta in E1, F1. fold r1 in E1, F1. rewrite E1 in Herr.
    rewrite (counter_errors (CleanupOldFiles target days)) in Herr.
    injection Herr as Herr.
    destruct (sweep (is_old_file (clock w - days * 86400)) os_unlink
                (rglob_star target (fs w)) (fs w, 0, 0)) as [[t1 ok1] err1] eqn:ES.
    simpl in Herr, F1. subst err1.
    assert (Hne : forall x, x ∈ rglob_star target (fs w) -> x <> []).
    { intros x Hx. apply rglob_star_sound in Hx as [(c & s & ->) _]. by destruct target. }
    destruct (unlink_sweep_clean _ _ _ _ _ _ _ Hne ES) as (Hclean & Hback).
    intros x Hx. rewrite Hfs, F1 in Hx |- *.
    apply rglob_star_sound in Hx as [(c & s & ->) [n' Hn']].
    unfold is_old_file. rewrite Hn'. destruct n' as [m|m es]; [|done].
    destruct (Hback _ _ Hn') as (n & Hn & Hsame). rewrite (Hsame eq_refl) in Hn.
    assert (Hin : target ++ c :: s ∈ rglob_star target (fs w)).
    { apply rglob_star_complete. by rewrite Hn. }
    specialize (Hclean _ Hin). unfold is_old_file in Hclean. rewrite Hn' in Hclean.
    apply Z.ltb_ge in Hclean. apply Z.ltb_ge. eapply Hage; eauto. }
  rewrite (sweep_nothing _ _ _ _ _ _ Hnothing) in E2, F2. simpl in E2, F2.
  unfold r2. rewrite E2, F2.
  rewrite (counter_success (CleanupOldFiles target days)),
          (counter_errors (CleanupOldFiles target days)). done.
Qed.

Lemma second_cleanup_finds_nothing_witness :
  counter "deleted"
    (fst (cleanup_old_files ["work"] 1
            (snd (cleanup_old_files ["work"] 1 (world_of tree_aged 86401)))))
  = Some 0.
Proof.
  apply (second_cleanup_finds_nothing (world_of tree_aged 86401)
           (snd (cleanup_old_files ["work"] 1 (world_of tree_aged 86401))) ["work"] 1).
  - vm_compute. reflexivity.
  - reflexivity.
  - intros p m _ _ H. exact H.
Defined.

(* --------------------------------------------------------------------- *)
(** *** Linking an entry *)
(* --------------------------------------------------------------------- *)

Lemma assoc_put_entry c c' v m es :
  assoc c' (entries_of (put_entry c v (Dir m es)))
  = if decide (c = c') then Some v else assoc c' es.
Proof.
  unfold put_entry. destruct (assoc c es) as [v0|] eqn:E; simpl.
  - rewrite assoc_map_entry. destruct (decide (c = c')) as [->|]; [|done].
    by rewrite E.
  - rewrite assoc_app. simpl. rewrite (eqb_decide c c').
    destruct (decide (c = c')) as [->|N].
    + rewrite E. by rewrite bool_decide_eq_true_2.
    + rewrite bool_decide_eq_false_2 by done. by destruct (assoc c' es).
Qed.

Lemma put_entry_Dir c v m es : exists es', put_entry c v (Dir m es) = Dir m es'.
Proof. unfold put_entry. destruct (assoc c es); eauto. Qed.

(** Below the linked entry, when the directory it is put in resolves. *)
Lemma lookup_attach_below p r v t m es :
  p <> [] -> lookup_path (parent p) t = Some (Dir m es) ->
  lookup_path (p ++ r) (attach p v t) = lookup_path r v.
Proof.
  intros Hp Hl. unfold attach. rewrite (parent_name p Hp) at 1.
  rewrite <- app_assoc, lookup_update_below, Hl.
  destruct (put_entry_Dir (name p) v m es) as (es' & E).
  pose proof (assoc_put_entry (name p) (name p) v m es) as H. rewrite E in *. simpl in *.
  rewrite H. by destruct (decide (name p = name p)).
Qed.

Lemma lookup_attach_above q c r v t :
  lookup_path q (attach (q ++ c :: r) v t) = attach (c :: r) v <$> lookup_path q t.
Proof.
  unfold attach. rewrite parent_app_cons, name_app_cons. apply lookup_update_above.
Qed.

Lemma lookup_attach_beside k x y p q v t :
  x <> y ->
  lookup_path (k ++ y :: q) (attach (k ++ x :: p) v t) = lookup_path (k ++ y :: q) t.
Proof.
  intros Hxy. unfold attach. rewrite parent_app_cons, name_app_cons.
  destruct p as [|c p].
  - change (parent [x]) with (@nil string). change (name [x]) with x.
    rewrite app_nil_r, lookup_update_below, lookup_path_app.
    destruct (lookup_path k t) as [[m|m es]|]; try done.
    destruct (put_entry_Dir x v m es) as (es' & E).
    pose proof (assoc_put_entry x y v m es) as H. rewrite E in *. simpl in *.
    rewrite H. by destruct (decide (x = y)).
  - change (parent (x :: c :: p)) with (x :: parent (c :: p)).
    by apply lookup_update_beside.
Qed.

Lemma attach_cons_kind c r v n : is_dir_node (attach (c :: r) v n) = is_dir_node n.
Proof.
  unfold attach. destruct r as [|c' r].
  - change (parent [c]) with (@nil string). simpl. destruct n as [m|m es]; [done|].
    by destruct (put_entry_Dir (name [c]) v m es) as (es' & ->).
  - change (parent (c :: c' :: r)) with (c :: parent (c' :: r)). simpl. by destruct n.
Qed.

Lemma attach_cons_file c r v m : attach (c :: r) v (File m) = File m.
Proof. unfold attach. by destruct (parent (c :: r)). Qed.

Lemma detach_cons_file c r m : detach (c :: r) (File m) = File m.
Proof. unfold detach. by destruct (parent (c :: r)). Qed.

(** A file that is not at or below the linked or unlinked path stays. *)
Lemma lookup_attach_file p q v t m :
  ~ p `prefix_of` q -> lookup_path q t = Some (File m) ->
  lookup_path q (attach p v t) = Some (File m).
Proof.
  intros Hn Hl. destruct (path_relation_total p q) as [r ->|c r ->|k x y p' q' -> -> Hxy].
  - destruct Hn. by exists r.
  - rewrite lookup_attach_above, Hl. simpl. by rewrite attach_cons_file.
  - by rewrite lookup_attach_beside.
Qed.

Lemma lookup_detach_file p q t m :
  ~ p `prefix_of` q -> lookup_path q t = Some (File m) ->
  lookup_path q (detach p t) = Some (File m).
Proof.
  intros Hn Hl. destruct (path_relation_total p q) as [r ->|c r ->|k x y p' q' -> -> Hxy].
  - destruct Hn. by exists r.
  - rewrite lookup_detach_above, Hl. simpl. by rewrite detach_cons_file.
  - by rewrite lookup_detach_beside.
Qed.

(** A directory that is not at or below the linked or unlinked path stays a
    directory. *)
Lemma is_dir_attach p q v t :
  ~ p `prefix_of` q -> is_dir q t = true -> is_dir q (attach p v t) = true.
Proof.
  unfold is_dir. intros Hn Hl.
  destruct (path_relation_total p q) as [r ->|c r ->|k x y p' q' -> -> Hxy].
  - destruct Hn. by exists r.
  - rewrite lookup_attach_above. destruct (lookup_path q t) as [n|]; [|done]. simpl.
    pose proof (attach_cons_kind c r v n) as H.
    destruct n; [done|]. by destruct (attach (c :: r) v _).
  - by rewrite lookup_attach_beside.
Qed.

Lemma is_dir_detach p q t :
  ~ p `prefix_of` q -> is_dir q t = true -> is_dir q (detach p t) = true.
Proof.
  unfold is_dir. intros Hn Hl.
  destruct (path_relation_total p q) as [r ->|c r ->|k x y p' q' -> -> Hxy].
  - destruct Hn. by exists r.
  - rewrite lookup_detach_above. destruct (lookup_path q t) as [n|]; [|done]. simpl.
    pose proof (detach_cons_kind c r n) as H.
    destruct n; [done|]. by destruct (detach (c :: r) _).
  - by rewrite lookup_detach_beside.
Qed.

(** What resolves has resolving prefixes, directories all. *)
Lemma lookup_prefix_is_dir p c r t :
  is_Some (lookup_path (p ++ c :: r) t) -> is_dir p t = true.
Proof.
  unfold is_dir. rewrite lookup_path_app.
  destruct (lookup_path p t) as [[m|m es]|]; simpl; try done; by intros [? ?].
Qed.
(* --------------------------------------------------------------------- *)
(** *** Suffixes and buckets *)
(* --------------------------------------------------------------------- *)

Lemma rfind_dot_spec s i :
  rfind "." s = Some i ->
  exists stem rest,
    s = stem +:+ String "." rest /\ string_drop i s = String "." rest /\
    rfind "." rest = None /\ String.length s = (i + 1 + String.length rest)%nat.
Proof.
  revert i. induction s as [|a s IH]; intros i; simpl; [done|].
  destruct (rfind "." s) as [j|] eqn:E.
  - intros [= <-]. destruct (IH j eq_refl) as (stem & rest & -> & Hd & Hr & Hlen).
    exists (String a stem), rest. simpl. repeat split; auto.
  - destruct (Ascii.eqb_spec a "."); [|done]. intros [= <-]. subst a.
    exists "", s. simpl. repeat split; auto.
Qed.

Lemma lstrip_dot_no_dot s : rfind "." s = None -> lstrip_dot s = s.
Proof.
  destruct s as [|a s]; simpl; [done|].
  destruct (rfind "." s); [done|]. by destruct (Ascii.eqb a ".").
Qed.


(** The suffix of a name is empty, or the text of the name from its last dot
    on, as it is written; the bucket is that text without the dot, and
    [no_extension] when the suffix is empty. *)
Lemma bucket_spec k :
  (suffix [k] = "" /\ bucket k = "no_extension") \/
  (exists stem, k = stem +:+ suffix [k] /\ suffix [k] = String "." (bucket k) /\
     bucket k <> "" /\ rfind "." (bucket k) = None).
Proof.
  unfold bucket, suffix. change (name [k]) with k.
  destruct (rfind "." k) as [i|] eqn:E; [|by left].
  destruct (rfind_dot_spec k i E) as (stem & rest & Hk & Hd & Hr & Hlen).
  destruct ((0 <? Z.of_nat i) && (Z.of_nat i <? Z.of_nat (String.length k) - 1)) eqn:Hc;
    [|by left].
  right. exists stem. rewrite Hd. simpl.
  assert (Hs : lstrip_dot rest = rest) by (by apply lstrip_dot_no_dot).
  assert (Hne : rest <> "").
  { intros ->. simpl in Hlen. apply andb_true_iff in Hc as [_ Hc].
    apply Z.ltb_lt in Hc. lia. }
  change (Ascii.eqb "." ".") with true. cbv iota. rewrite Hs. by repeat split.
Qed.

Lemma bucket_nonempty k : bucket k <> "".
Proof.
  destruct (bucket_spec k) as [[_ ->]|(stem & _ & _ & H & _)]; [done|done].
Qed.

Lemma joinpath_bucket p k : joinpath p (bucket k) = p ++ [bucket k].
Proof. unfold joinpath. pose proof (bucket_nonempty k). by destruct (bucket k). Qed.

(* --------------------------------------------------------------------- *)
(** *** Moving a file *)
(* --------------------------------------------------------------------- *)

Lemma os_rename_cases src dst t :
  (exists e, os_rename src dst t = (Raise e, t)) \/
  (os_rename src dst t = (Return tt, t) /\ src = dst) \/
  (exists n, os_rename src dst t = (Return tt, attach dst n (detach src t)) /\
     lookup_path src t = Some n /\ ~ src `prefix_of` dst).
Proof.
  unfold os_rename, fail, okay.
  destruct (lookup_path src t) as [n|]; [|left; eauto].
  destruct (decide (src = dst)); [right; left; eauto|].
  destruct (decide (src = [])); [left; eauto|].
  destruct (lookup_path (parent dst) t) as [[pm|pm pes]|]; try (left; eauto; fail).
  destruct (_ || _); [left; eauto|].
  case_bool_decide as Hpre; [left; eauto|].
  destruct (lookup_path dst t) as [[dm|dm [|de des]]|], n as [m|m es];
    try (left; eauto; fail);
    try (destruct (immutable _); [left; eauto|right; right; eauto]);
    right; right; eauto.
Qed.

Lemma shutil_copy2_cases src dst t :
  (exists e, shutil_copy2 src dst t = (Raise e, t)) \/
  (exists m,
     lookup_path src t = Some (File m) /\
     shutil_copy2 src dst t
     = (Return tt,
        attach (if is_dir dst t then dst ++ [name src] else dst)
          (File (Meta (st_mode m) (st_mtime m) (st_size m) false)) t)).
Proof.
  unfold shutil_copy2, fail, okay.
  destruct (lookup_path src t) as [[m|m es]|]; try (left; eauto; fail).
  destruct (decide _); [left; eauto|].
  destruct (lookup_path (if is_dir dst t then dst ++ [name src] else dst) t)
    as [[m'|m' es']|]; try (left; eauto; fail).
  - destruct (immutable m'); [left; eauto|right; eauto].
  - destruct (lookup_path (parent _) t) as [[pm|pm pes]|]; try (left; eauto; fail).
    destruct (immutable pm); [left; eauto|right; eauto].
Qed.
(* --------------------------------------------------------------------- *)
(** *** Unlinking and linking in one directory commute *)
(* --------------------------------------------------------------------- *)

Lemma remove_map_entry k b g es :
  k <> b -> remove_entry k (map_entry b g es) = map_entry b g (remove_entry k es).
Proof.
  intros Hkb. induction es as [|[a v] es IH]; simpl; [done|].
  destruct (String.eqb_spec a b) as [->|Hab]; simpl.
  - destruct (String.eqb_spec b k) as [->|Hbk]; [done|]. simpl.
    by rewrite String.eqb_refl.
  - destruct (String.eqb_spec a k) as [->|Hak]; [done|]. simpl.
    destruct (String.eqb_spec a b); [done|]. by rewrite IH.
Qed.

Lemma map_entry_map_entry c f g es :
  map_entry c f (map_entry c g es) = map_entry c (fun n => f (g n)) es.
Proof.
  induction es as [|[a v] es IH]; simpl; [done|].
  destruct (String.eqb_spec a c) as [->|Hac]; simpl.
  - by rewrite String.eqb_refl.
  - destruct (String.eqb_spec a c); [done|]. by rewrite IH.
Qed.

Lemma map_entry_ext c f g es :
  (forall n, f n = g n) -> map_entry c f es = map_entry c g es.
Proof.
  intros H. induction es as [|[a v] es IH]; simpl; [done|].
  destruct (String.eqb a c); [by rewrite H|by rewrite IH].
Qed.

Lemma update_del_comm d k b p g t :
  k <> b ->
  update_path d (del_entry k) (update_path (d ++ b :: p) g t)
  = update_path (d ++ b :: p) g (update_path d (del_entry k) t).
Proof.
  intros Hkb. revert t. induction d as [|c d IH]; intros t; simpl.
  - destruct t as [m|m es]; simpl; [done|]. by rewrite remove_map_entry.
  - destruct t as [m|m es]; simpl; [done|]. rewrite !map_entry_map_entry.
    f_equal. apply map_entry_ext. intros n. apply IH.
Qed.

Lemma detach_attach_comm d k b c r v t :
  k <> b ->
  detach (d ++ [k]) (attach (d ++ b :: c :: r) v t)
  = attach (d ++ b :: c :: r) v (detach (d ++ [k]) t).
Proof.
  intros Hkb. unfold detach, attach.
  rewrite parent_snoc, name_snoc, parent_app_cons.
  change (parent (b :: c :: r)) with (b :: parent (c :: r)).
  by apply update_del_comm.
Qed.

(* --------------------------------------------------------------------- *)
(** *** One iteration of [organize_by_extension] on the tree *)
(* --------------------------------------------------------------------- *)

Lemma mkdir_exist_ok_cases now p t t1 :
  mkdir_exist_ok now p t = (Return tt, t1) ->
  (t1 = t /\ is_dir p t = true) \/
  (t1 = attach p (new_dir now) t /\ lookup_path p t = None /\
   exists m es, lookup_path (parent p) t = Some (Dir m es)).
Proof.
  unfold mkdir_exist_ok, os_mkdir, fail, okay.
  destruct (lookup_path p t) as [n|] eqn:El.
  - destruct (is_dir p t) eqn:Ed; [|done]. intros [= <-]. by left.
  - destruct (lookup_path (parent p) t) as [[m|m es]|] eqn:Ep; try done.
    + destruct (is_dir p t) eqn:Ed; [|done]. intros [= <-]. by left.
    + destruct (immutable m).
      * destruct (is_dir p t) eqn:Ed; [|done]. intros [= <-]. by left.
      * intros [= <-]. right. eauto.
Qed.

Lemma is_dir_exists p t : is_dir p t = true -> path_exists p t = true.
Proof. unfold is_dir, path_exists. by destruct (lookup_path p t). Qed.

Lemma is_file_lookup p t : is_file p t = true <-> exists m, lookup_path p t = Some (File m).
Proof.
  unfold is_file. split.
  - destruct (lookup_path p t) as [[m|m es]|]; try done. eauto.
  - by intros (m & ->).
Qed.

Lemma is_dir_lookup p t : is_dir p t = true <-> exists m es, lookup_path p t = Some (Dir m es).
Proof.
  unfold is_dir. split.
  - destruct (lookup_path p t) as [[m|m es]|]; try done. eauto.
  - by intros (m & es & ->).
Qed.

(** Where [shutil.move] puts a file of the root asked to go under its
    bucket: inside the directory of that name, if the bucket holds one. *)
Lemma shutil_move_file d k b t1 t' m :
  lookup_path (d ++ [k]) t1 = Some (File m) ->
  is_dir (d ++ [b]) t1 = true ->
  shutil_move (d ++ [k]) (joinpath (d ++ [b]) k) t1 = (Return tt, t') ->
  t' = attach (if is_dir (d ++ [b; k]) t1 then d ++ [b; k; k] else d ++ [b; k])
         (File m) (detach (d ++ [k]) t1).
Proof.
  intros Hx Hb.
  assert (Hkb : k <> b).
  { intros ->. unfold is_dir in Hb. by rewrite Hx in Hb. }
  assert (Hxd : is_dir (d ++ [k]) t1 = false) by (unfold is_dir; by rewrite Hx).
  set (real := if is_dir (d ++ [b; k]) t1 then d ++ [b; k; k] else d ++ [b; k]).
  set (dst := joinpath (d ++ [b]) k).
  assert (Hne : d ++ [k] <> dst).
  { unfold dst, joinpath. destruct k.
    - intros H. apply app_inv_head in H. congruence.
    - rewrite <- app_assoc. intros H. apply app_inv_head in H. discriminate. }
  unfold shutil_move. fold dst. rewrite name_snoc.
  rewrite (bool_decide_eq_false_2 _ Hne), andb_false_r.
  set (real_dst := if is_dir dst t1 then dst ++ [k] else dst).
  destruct (is_dir dst t1 && path_exists real_dst t1) eqn:Hchk; [done|].
  assert (Hreal : real_dst = real /\ is_dir real t1 = false).
  { unfold real_dst, real, dst, joinpath in *. destruct k as [|a k].
    - rewrite Hb in *. simpl in Hchk. rewrite <- app_assoc in *. simpl in *.
      assert (Hd : is_dir (d ++ [b; ""]) t1 = false).
      { unfold is_dir, path_exists in *. by destruct (lookup_path (d ++ [b; ""]) t1). }
      by rewrite Hd.
    - rewrite <- !app_assoc in *. simpl in *.
      destruct (is_dir (d ++ [b; String a k]) t1) eqn:Hd; simpl in *.
      + rewrite <- ?app_assoc in *. simpl in *. split; [done|].
        unfold is_dir, path_exists in *.
        by destruct (lookup_path (d ++ [b; String a k; String a k]) t1).
      + done. }
  destruct Hreal as [-> Hrd]. clear Hchk.
  assert (Hshape : exists c r, real = d ++ b :: c :: r).
  { unfold real. destruct (is_dir (d ++ [b; k]) t1); eauto. }
  destruct Hshape as (c & r & Hshape).
  assert (Hnp : ~ real `prefix_of` d ++ [k]).
  { rewrite Hshape. intros [z Hz]. rewrite <- app_assoc in Hz.
    apply app_inv_head in Hz. simpl in Hz. congruence. }
  destruct (os_rename_cases (d ++ [k]) real t1)
    as [(e & ->)|[(-> & Heq)|(n & -> & Hn & _)]].
  - rewrite Hxd.
    destruct (shutil_copy2_cases (d ++ [k]) real t1) as [(e' & ->)|(m' & Hm' & ->)]; [done|].
    rewrite Hrd. rewrite Hx in Hm'. injection Hm' as <-.
    set (t2 := attach real _ t1).
    destruct (os_unlink_cases (d ++ [k]) t2) as [(e' & ->)|(-> & m2 & Hm2 & Him & _)]; [done|].
    intros [= <-]. unfold t2 in *.
    rewrite (lookup_attach_file _ _ _ _ m Hnp Hx) in Hm2. injection Hm2 as <-.
    rewrite Hshape. rewrite detach_attach_comm by done.
    do 2 f_equal. destruct m. simpl in *. by subst.
  - exfalso. rewrite Hshape in Heq. rewrite (cons_middle b), app_assoc in Heq.
    apply (f_equal length) in Heq. rewrite !length_app in Heq. simpl in Heq. lia.
  - rewrite Hx in Hn. injection Hn as <-. by intros [= <-].
Qed.

Lemma organize_step_skip now d t x :
  is_file x t = false -> organize_step now d t x = Some t.
Proof. unfold organize_step. by intros ->. Qed.

Lemma organize_step_file now d k t t' m :
  lookup_path (d ++ [k]) t = Some (File m) ->
  organize_step now d t (d ++ [k]) = Some t' ->
  exists t1,
    ((t1 = t /\ is_dir (d ++ [bucket k]) t = true) \/
     (t1 = attach (d ++ [bucket k]) (new_dir now) t /\
      lookup_path (d ++ [bucket k]) t = None)) /\
    lookup_path (d ++ [k]) t1 = Some (File m) /\
    is_dir (d ++ [bucket k]) t1 = true /\
    t' = attach (if is_dir (d ++ [bucket k; k]) t1
                 then d ++ [bucket k; k; k] else d ++ [bucket k; k])
           (File m) (detach (d ++ [k]) t1).
Proof.
  intros Hx. unfold organize_step, is_file. rewrite Hx, name_snoc, joinpath_bucket.
  destruct (mkdir_exist_ok now (d ++ [bucket k]) t) as [[[]|e] t1] eqn:Emk; [|done].
  destruct (shutil_move _ _ t1) as [[[]|e] t2] eqn:Emv; [|done].
  intros [= <-]. exists t1.
  assert (H1 : lookup_path (d ++ [k]) t1 = Some (File m) /\
               is_dir (d ++ [bucket k]) t1 = true /\
               ((t1 = t /\ is_dir (d ++ [bucket k]) t = true) \/
                (t1 = attach (d ++ [bucket k]) (new_dir now) t /\
                 lookup_path (d ++ [bucket k]) t = None))).
  { apply mkdir_exist_ok_cases in Emk as [[-> Hd]|(-> & Hn & pm & pes & Hp)]; [by auto|].
    split; [|split; [|by auto]].
    - apply lookup_attach_file; [|done]. intros [z Hz]. rewrite <- app_assoc in Hz.
      apply app_inv_head in Hz. simpl in Hz.
      assert (Hbk : bucket k = k) by congruence.
      rewrite Hbk, Hx in Hn. discriminate Hn.
    - unfold is_dir. rewrite <- (app_nil_r (d ++ [bucket k])) at 1.
      rewrite (lookup_attach_below _ [] _ _ pm pes); [done| |done].
      by destruct d. }
  destruct H1 as (Hx1 & Hb1 & Hmk). repeat split; auto.
  by apply (shutil_move_file d k (bucket k) t1 t2 m).
Qed.
Ltac not_prefix :=
  let z := fresh "z" in
  let Hz := fresh "Hz" in
  intros [z Hz]; rewrite <- ?app_assoc in Hz;
  first [ apply app_inv_head in Hz; simpl in Hz; congruence
        | apply (f_equal length) in Hz; rewrite ?length_app in Hz; simpl in Hz; lia ].

Lemma lookup_below_file p c r t m :
  lookup_path p t = Some (File m) -> lookup_path (p ++ c :: r) t = None.
Proof. intros H. by rewrite lookup_path_app, H. Qed.

Lemma lookup_under_file d k c r t m :
  lookup_path (d ++ [k]) t = Some (File m) -> lookup_path (d ++ k :: c :: r) t = None.
Proof.
  intros H. rewrite (cons_middle k), app_assoc. by apply (lookup_below_file _ _ _ _ m).
Qed.

Lemma lookup_below_none p r t :
  lookup_path p t = None -> lookup_path (p ++ r) t = None.
Proof. intros H. by rewrite lookup_path_app, H. Qed.

(** What one iteration that moves the file [k] changes in the tree: the
    entry [k] of the root leaves it, the bucket is a directory and gains the
    file, and nothing else of the root changes. *)
Lemma organize_step_effect now d k t t' m :
  lookup_path (d ++ [k]) t = Some (File m) ->
  organize_step now d t (d ++ [k]) = Some t' ->
  k <> bucket k /\
  is_dir d t' = true /\
  is_dir (d ++ [bucket k]) t' = true /\
  (is_dir (d ++ [bucket k]) t = true \/ lookup_path (d ++ [bucket k]) t = None) /\
  (forall r, lookup_path (d ++ k :: r) t' = None) /\
  (forall j r, j <> k -> j <> bucket k ->
     lookup_path (d ++ j :: r) t' = lookup_path (d ++ j :: r) t) /\
  (forall c r, c <> k ->
     lookup_path (d ++ bucket k :: c :: r) t' = lookup_path (d ++ bucket k :: c :: r) t) /\
  lookup_path (if is_dir (d ++ [bucket k; k]) t
               then d ++ [bucket k; k; k] else d ++ [bucket k; k]) t' = Some (File m).
Proof.
  intros Hx Hstep.
  destruct (organize_step_file now d k t t' m Hx Hstep) as (t1 & Hmk & Hx1 & Hb1 & ->).
  set (b := bucket k) in *.
  assert (Hkb : k <> b).
  { intros E. unfold is_dir in Hb1. rewrite <- E in Hb1. by rewrite Hx1 in Hb1. }
  assert (Hd : is_dir d t = true).
  { apply (lookup_prefix_is_dir d k [] t). rewrite Hx. eauto. }
  assert (Hd1 : is_dir d t1 = true).
  { apply (lookup_prefix_is_dir d k [] t1). rewrite Hx1. eauto. }
  assert (F1 : forall j r, j <> b ->
             lookup_path (d ++ j :: r) t1 = lookup_path (d ++ j :: r) t).
  { intros j r Hj. destruct Hmk as [[-> _]|[-> _]]; [done|].
    by apply (lookup_attach_beside d b j []). }
  assert (F2 : forall c r,
             lookup_path (d ++ b :: c :: r) t1 = lookup_path (d ++ b :: c :: r) t).
  { intros c r. destruct Hmk as [[-> _]|[-> Hn]]; [done|].
    apply is_dir_lookup in Hd as (dm & des & Hd).
    rewrite (cons_middle b), app_assoc.
    rewrite (lookup_attach_below (d ++ [b]) (c :: r) _ t dm des);
      [|by destruct d|by rewrite parent_snoc].
    symmetry. by apply lookup_below_none. }
  set (real := if is_dir (d ++ [b; k]) t1 then d ++ [b; k; k] else d ++ [b; k]).
  assert (Hreal : is_dir (d ++ [b; k]) t1 = is_dir (d ++ [b; k]) t).
  { unfold is_dir. by rewrite (F2 k []). }
  assert (Hshape : exists rr, real = d ++ b :: k :: rr /\
                     is_dir (parent real) t1 = true /\ real <> []).
  { unfold real. destruct (is_dir (d ++ [b; k]) t1) eqn:E.
    - exists [k]. split; [done|]. split; [|by destruct d].
      rewrite (parent_app_cons d b [k; k]). exact E.
    - exists []. split; [done|]. split; [|by destruct d].
      rewrite (parent_app_cons d b [k]). exact Hb1. }
  destruct Hshape as (rr & Hshape & Hpar & Hne).
  split; [done|]. split; [|split; [|split; [|split; [|split; [|split]]]]].
  - apply is_dir_attach; [rewrite Hshape; not_prefix|].
    apply is_dir_detach; [not_prefix|done].
  - apply is_dir_attach; [rewrite Hshape; not_prefix|].
    apply is_dir_detach; [not_prefix|done].
  - destruct Hmk as [[_ H]|[_ H]]; auto.
  - intros r. rewrite Hshape.
    rewrite (lookup_attach_beside d b k) by done.
    rewrite (cons_middle k), app_assoc.
    apply lookup_detach_below. by destruct d.
  - intros j r Hjk Hjb. rewrite Hshape.
    rewrite (lookup_attach_beside d b j) by done.
    rewrite (lookup_detach_beside d k j []) by done.
    by apply F1.
  - intros c r Hck. rewrite Hshape.
    rewrite (cons_middle b d (k :: rr)), (cons_middle b d (c :: r)), !app_assoc.
    rewrite (lookup_attach_beside (d ++ [b]) k c) by done.
    rewrite <- !app_assoc. simpl.
    rewrite (lookup_detach_beside d k b []) by done.
    apply F2.
  - rewrite <- Hreal. fold real.
    apply is_dir_lookup in Hpar.
    assert (Hpar' : is_dir (parent real) (detach (d ++ [k]) t1) = true).
    { apply is_dir_detach; [|by apply is_dir_lookup].
      rewrite Hshape, parent_app_cons. destruct rr; simpl; not_prefix. }
    apply is_dir_lookup in Hpar' as (pm & pes & Hpar').
    rewrite <- (app_nil_r real) at 1.
    by rewrite (lookup_attach_below real [] _ _ pm pes).
Qed.

Lemma organized_start d t0 : is_dir d t0 = true -> organized d t0 [] t0.
Proof.
  intros Hd. repeat split; auto. intros k. by rewrite elem_of_nil.
Qed.

Lemma organized_step now d t0 done t k t' :
  organized d t0 done t ->
  organize_step now d t (d ++ [k]) = Some t' ->
  organized d t0 (done ++ [k]) t'.
Proof.
  intros (I1 & I2 & I3 & I4 & I5 & I6 & I7 & I8) Hstep.
  destruct (is_file (d ++ [k]) t) eqn:Hf.
  2: { rewrite organize_step_skip in Hstep by done. injection Hstep as <-.
       repeat split; auto.
       intros j [H| ->%list_elem_of_singleton]%elem_of_app; auto. }
  apply is_file_lookup in Hf as (m & Hm).
  destruct (organize_step_effect now d k t t' m Hm Hstep)
    as (Hkb & E6 & E3 & E9 & E2 & E1 & E4 & E5).
  set (b := bucket k) in *.
  assert (Hbf : forall mb, lookup_path (d ++ [b]) t <> Some (File mb)).
  { intros mb H. destruct E9 as [E9|E9].
    - unfold is_dir in E9. by rewrite H in E9.
    - by rewrite H in E9. }
  assert (R : forall j mj, lookup_path (d ++ [j]) t' = Some (File mj) ->
                lookup_path (d ++ [j]) t = Some (File mj) /\ j <> k).
  { intros j mj H. destruct (decide (j = k)) as [->|Hjk].
    { by rewrite (E2 []) in H. }
    split; [|done]. destruct (decide (j = b)) as [->|Hjb].
    { unfold is_dir in E3. by rewrite H in E3. }
    by rewrite <- (E1 j []). }
  assert (Rf : forall j, is_file (d ++ [j]) t = false -> is_file (d ++ [j]) t' = false).
  { intros j H. destruct (is_file (d ++ [j]) t') eqn:E; [|done].
    apply is_file_lookup in E as (mj & E). apply R in E as [E _].
    unfold is_file in H. by rewrite E in H. }
  split; [exact E6|]. split; [|split; [|split; [|split; [|split; [|split]]]]].
  - intros j mj H. apply R in H as [H _]. eauto.
  - intros j mj H0. destruct (I3 j mj H0) as [Hstill|[Hnf Hpl]].
    + destruct (decide (j = k)) as [->|Hjk].
      * right. split; [unfold is_file; by rewrite (E2 [])|].
        rewrite Hm in Hstill. injection Hstill as ->.
        unfold destination. rewrite <- (I6 k (bucket k)); [exact E5|].
        apply is_file_lookup. eauto.
      * left. rewrite (E1 j []); [done|done|].
        intros ->. by apply (Hbf mj).
    + right. split; [by apply Rf|].
      assert (Hjk : j <> k).
      { intros ->. unfold is_file in Hnf. by rewrite Hm in Hnf. }
      assert (Hsh : exists rr, destination d t0 j = d ++ bucket j :: j :: rr).
      { unfold destination. destruct (is_dir _ t0); eauto. }
      destruct Hsh as (rr & Hsh). rewrite Hsh in *.
      destruct (decide (bucket j = b)) as [Hjb|Hjb].
      * rewrite Hjb in *. by rewrite E4.
      * rewrite E1; [done| |done].
        intros Hbk.
        assert (Hdj : is_dir (d ++ [bucket j]) t = true).
        { apply (lookup_prefix_is_dir _ j rr). rewrite <- app_assoc. simpl.
          rewrite Hpl. eauto. }
        unfold is_dir in Hdj. rewrite Hbk in Hdj. by rewrite Hm in Hdj.
  - intros j [H| ->%list_elem_of_singleton]%elem_of_app; [by apply Rf, I4|].
    unfold is_file. by rewrite (E2 []).
  - intros j Hj. specialize (I5 j Hj).
    destruct (decide (j = b)) as [->|Hjb]; [done|].
    unfold is_dir in *. rewrite (E1 j []); [done| |done].
    intros ->. by rewrite Hm in I5.
  - intros j bb Hj. apply is_file_lookup in Hj as (mj & Hj). apply R in Hj as [Hj Hjk].
    rewrite <- (I6 j bb) by (apply is_file_lookup; eauto).
    unfold is_dir. destruct (decide (bb = k)) as [->|Hbk].
    { rewrite (E2 [j]). by rewrite (lookup_under_file d k j [] t m Hm). }
    destruct (decide (bb = b)) as [->|Hbb].
    { by rewrite (E4 j []). }
    by rewrite (E1 bb [j]).
  - intros j Hj Hnb. rewrite <- (I7 j Hj Hnb). apply (E1 j []).
    + intros ->. specialize (I5 k Hj). unfold is_dir in I5. by rewrite Hm in I5.
    + intros ->. apply (Hnb k); [|done]. apply is_file_lookup. eauto.
  - intros j c r Hc. rewrite <- (I8 j c r Hc).
    destruct (decide (j = k)) as [->|Hjk].
    { rewrite (E2 (c :: r)). by rewrite (lookup_under_file d k c r t m Hm). }
    destruct (decide (j = b)) as [->|Hjb].
    { apply E4. intros ->. apply (Hc k); [|done|done]. apply is_file_lookup. eauto. }
    by apply E1.
Qed.

Lemma organized_fold now d t0 ks : forall done t t',
  organized d t0 done t ->
  organize_fold now d (map (fun k => d ++ [k]) ks) t = Some t' ->
  organized d t0 (done ++ ks) t'.
Proof.
  induction ks as [|k ks IH]; intros done t t' HI; simpl.
  - intros [= <-]. by rewrite app_nil_r.
  - destruct (organize_step now d t (d ++ [k])) as [t1|] eqn:E; [|done].
    intros H. rewrite (cons_middle k done ks), app_assoc.
    eapply IH; [|exact H]. by eapply organized_step.
Qed.
(* --------------------------------------------------------------------- *)
(** *** [organize_by_extension]: a run without error is the fold *)
(* --------------------------------------------------------------------- *)

Lemma organize_entry_step d x w ok err det :
  exists o w' ok' err' det',
    organize_entry d x (w, results_of (OrganizeByExtension d) ok err det)
      = (o, (w', results_of (OrganizeByExtension d) ok' err' det')) /\
    clock w' = clock w /\
    match organize_step (clock w) d (fs w) x with
    | Some t' => o = Return tt /\ fs w' = t' /\ err' = err
    | None => ((exists e, o = Raise e) /\ err' = err) \/ (o = Return tt /\ err' = err + 1)
    end.
Proof.
  unfold organize_entry, organize_step.
  change (lstrip_dot (str_or (suffix x) "no_extension")) with (bucket (name x)).
  run_monad.
  destruct (is_file x (fs w)) eqn:Hf; simpl.
  2: { exists (Return tt), w, ok, err, det. by destruct w. }
  destruct (mkdir_exist_ok (clock w) (joinpath d (bucket (name x))) (fs w))
    as [[[]|e] t1] eqn:Emk; simpl.
  2: { do 5 eexists. split; [reflexivity|]. split; [done|]. left. eauto. }
  destruct (shutil_move x _ t1) as [[[]|e] t2] eqn:Emv; simpl.
  - rewrite (incr_success (OrganizeByExtension d)). simpl.
    rewrite (append_details (OrganizeByExtension d)) by reflexivity. simpl.
    do 5 eexists. split; [reflexivity|]. by repeat split.
  - rewrite (incr_errors (OrganizeByExtension d)). simpl.
    do 5 eexists. split; [reflexivity|]. split; [done|]. by right.
Qed.

Lemma organize_loop d xs : forall w ok err det,
  exists o w' ok' err' det',
    for_each xs (organize_entry d) (w, results_of (OrganizeByExtension d) ok err det)
      = (o, (w', results_of (OrganizeByExtension d) ok' err' det')) /\
    err <= err' /\
    (o = Return tt -> err' = err ->
     organize_fold (clock w) d xs (fs w) = Some (fs w')).
Proof.
  induction xs as [|x xs IH]; intros w ok err det; simpl.
  - exists (Return tt), w, ok, err, det. by repeat split.
  - destruct (organize_entry_step d x w ok err det)
      as (o1 & w1 & ok1 & err1 & det1 & E1 & Hk & Hs).
    unfold bind. rewrite E1.
    destruct (organize_step (clock w) d (fs w) x) as [t1|].
    + destruct Hs as (-> & <- & ->).
      destruct (IH w1 ok1 err det1) as (o2 & w2 & ok2 & err2 & det2 & E2 & Hle & Hf).
      rewrite E2. exists o2, w2, ok2, err2, det2. rewrite <- Hk. by repeat split.
    + destruct Hs as [[(e & ->) ->]|[-> ->]].
      * exists (Raise e), w1, ok1, err, det1. repeat split; [lia|done].
      * destruct (IH w1 ok1 (err + 1) det1)
          as (o2 & w2 & ok2 & err2 & det2 & E2 & Hle & Hf).
        rewrite E2. exists o2, w2, ok2, err2, det2. repeat split; [lia|]. lia.
Qed.

(** A run that reports no error went through every entry without raising. *)
Lemma organize_clean_run d w :
  path_exists d (fs w) = true ->
  counter "errors" (fst (organize_by_extension d w)) = Some 0 ->
  organize_fold (clock w) d (glob_star d (fs w)) (fs w)
  = Some (fs (snd (organize_by_extension d w))).
Proof.
  intros Hex.
  destruct (organize_loop d (glob_star d (fs w))
              (mkWorld (fs w)
                 (log w ++ [Log INFO "Starting file organization in {source_dir}" [APath d]])
                 (clock w)) 0 0 [])
    as (o & w1 & ok & err & det & E & Hle & Hf).
  assert (Hrun : exists w' err',
             organize_by_extension d w
               = (Return (results_of (OrganizeByExtension d) ok err' det), w') /\
             fs w' = fs w1 /\
             match o with Return _ => err' = err | Raise _ => err' = err + 1 end).
  { unfold organize_by_extension, method.
    erewrite bind_Return by reflexivity.
    erewrite bind_Return by reflexivity.
    simpl. rewrite Hex. simpl.
    change ({[ "organized" := VInt 0; "errors" := VInt 0; "details" := VList [] ]} : Dict)
      with (fresh_results (OrganizeByExtension d)).
    rewrite fresh_results_of.
    unfold bind at 1. unfold try_except, bind at 1, read_fs. simpl.
    rewrite E. destruct o as [[]|e].
    - unfold bind at 1. rewrite (get_success (OrganizeByExtension d)).
      unfold bind at 1. rewrite get_errors. run_monad. eauto.
    - run_monad. rewrite incr_errors.
      rewrite (get_success (OrganizeByExtension d)), get_errors. simpl. eauto. }
  destruct Hrun as (w' & err' & -> & Hfs & Herr). simpl fst. simpl snd.
  rewrite counter_errors. intros [= ->]. rewrite Hfs.
  destruct o as [[]|e]; [|lia]. subst err. by apply Hf.
Qed.
Lemma organize_run_organized d w :
  is_dir d (fs w) = true ->
  counter "errors" (fst (organize_by_extension d w)) = Some 0 ->
  organized d (fs w) (listing d (fs w)) (fs (snd (organize_by_extension d w))).
Proof.
  intros Hd Herr.
  apply (organized_fold (clock w) d (fs w) (listing d (fs w)) [] (fs w)).
  - by apply organized_start.
  - apply organize_clean_run; [by apply is_dir_exists|done].
Qed.

Lemma file_is_listed d k t m :
  lookup_path (d ++ [k]) t = Some (File m) -> k ∈ listing d t /\ is_dir d t = true.
Proof.
  unfold listing, is_dir. rewrite lookup_path_snoc.
  destruct (lookup_path d t) as [[dm|dm des]|]; try done.
  intros H. split; [|done]. apply elem_of_map_fst_assoc. rewrite H. eauto.
Qed.




(* --------------------------------------------------------------------- *)
(** *** One failing entry *)
(* --------------------------------------------------------------------- *)




(* --------------------------------------------------------------------- *)
(** *** What the methods leave alone *)
(* --------------------------------------------------------------------- *)



(** X1. [cleanup_empty_dirs] called with [recursive = False] removes
    nothing, whatever the target is (an empty directory included): it returns
    [{'removed': 0, 'errors': 0}] and leaves the tree as it was. *)
Theorem nonrecursive_cleanup_removes_nothing (d : path) (w : World) :
  fst (cleanup_empty_dirs d false w)
    = Return {[ "removed" := VInt 0; "errors" := VInt 0 ]} /\
  fs (snd (cleanup_empty_dirs d false w)) = fs w.
Proof.
  destruct (path_exists d (fs w)) eqn:Hex.
  - destruct (cleanup_empty_dirs_unfold d false w Hex) as (dict & w' & E & Hf & _ & Hd).
    cbv zeta in Hf, Hd. simpl in Hf, Hd. rewrite E. simpl. split; [|done].
    by rewrite (Hd tt eq_refl).
  - destruct (run_missing (CleanupEmptyDirs d false) w Hex) as (r1 & r2 & E & _).
    simpl in E. by rewrite E.
Qed.
(* --------------------------------------------------------------------- *)
(** *** [change_permissions]: the target alone, and what no call changes *)
(* --------------------------------------------------------------------- *)

Lemma change_permissions_single d mode recursive w :
  path_exists d (fs w) = true ->
  recursive && is_dir d (fs w) = false ->
  exists lg,
    change_permissions d mode recursive w
    = match os_chmod d mode (fs w) with
      | (Return _, t') =>
          (Return (results_of (ChangePermissions d mode recursive) 1 0 []),
           mkWorld t' lg (clock w))
      | (Raise _, t') =>
          (Return (results_of (ChangePermissions d mode recursive) 0 1 []),
           mkWorld t' lg (clock w))
      end.
Proof.
  intros Hex Hrec. unfold change_permissions, method.
  erewrite bind_Return by reflexivity.
  erewrite bind_Return by reflexivity.
  simpl. rewrite Hex. simpl.
  change ({[ "changed" := VInt 0; "errors" := VInt 0 ]} : Dict)
    with (fresh_results (ChangePermissions d mode recursive)).
  rewrite fresh_results_of.
  unfold bind at 1. unfold try_except, bind at 1, read_fs. simpl. rewrite Hrec.
  unfold bind at 1, call_fs. simpl.
  destruct (os_chmod d mode (fs w)) as [[[]|e] t1]; simpl.
  - unfold bind at 1. rewrite (incr_success (ChangePermissions d mode recursive)).
    run_monad. eauto.
  - run_monad. rewrite incr_errors. simpl. eauto.
Qed.

Lemma is_dir_set_meta p q f t :
  is_dir q (update_path p (set_meta f) t) = is_dir q t.
Proof.
  unfold is_dir.
  destruct (path_relation_total p q) as [s ->|c s ->|k x y p' q' -> -> Hxy].
  - rewrite lookup_update_below, lookup_path_app.
    destruct (lookup_path p t) as [[m|m es]|]; try done; by destruct s.
  - rewrite lookup_update_above.
    destruct (lookup_path q t) as [[m|m es]|]; done.
  - by rewrite lookup_update_beside.
Qed.



(** The tree a call of [change_permissions] leaves: [chmod] was called, one
    after the other, on paths at or below the target. *)
Lemma change_permissions_tree d mode recursive w :
  exists xs,
    (forall x, x ∈ xs -> d `prefix_of` x) /\
    fs (snd (change_permissions d mode recursive w))
    = fold_left (tree_step always (fun x => os_chmod x mode)) xs (fs w).
Proof.
  destruct (path_exists d (fs w)) eqn:Hex.
  - destruct (recursive && is_dir d (fs w)) eqn:Hrec.
    + apply andb_true_iff in Hrec as [-> Hd]. exists (rglob_star d (fs w)). split.
      * intros x Hx. apply rglob_star_sound in Hx as [(c & s & ->) _]. by eexists.
      * destruct (change_permissions_sweep d mode w Hd) as (det & _ & ->).
        apply sweep_tree.
    + exists [d]. split; [by intros x ->%list_elem_of_singleton|].
      destruct (change_permissions_single d mode recursive w Hex Hrec) as (lg & ->).
      simpl. unfold tree_step, always.
      by destruct (os_chmod d mode (fs w)) as [[[]|e] t1].
  - exists []. split; [by intros x ?%elem_of_nil|].
    destruct (run_missing (ChangePermissions d mode recursive) w Hex) as (r1 & r2 & E & _).
    simpl in E. by rewrite E.
Qed.

Lemma chmod_fold_stat mode xs : forall t q,
  let t' := fold_left (tree_step always (fun x => os_chmod x mode)) xs t in
  is_dir q t' = is_dir q t /\
  (stat_at q t' = stat_at q t \/ stat_at q t' = chmod_meta mode <$> stat_at q t) /\
  (q ∉ xs -> stat_at q t' = stat_at q t).
Proof.
  induction xs as [|x xs IH]; intros t q; simpl.
  - repeat split; auto.
  - set (t1 := tree_step always (fun x => os_chmod x mode) t x).
    destruct (IH t1 q) as (I1 & I2 & I3).
    assert (S : is_dir q t1 = is_dir q t /\
                (stat_at q t1 = stat_at q t \/
                 stat_at q t1 = chmod_meta mode <$> stat_at q t) /\
                (x <> q -> stat_at q t1 = stat_at q t)).
    { unfold t1, tree_step, always.
      destruct (os_chmod_cases x mode t) as [(e & -> & _)|(-> & _ & _)]; simpl.
      - repeat split; auto.
      - split; [apply is_dir_set_meta|]. rewrite stat_at_set_meta.
        destruct (decide (x = q)) as [->|]; [by split; [right|]|].
        rewrite option_fmap_id. by split; [left|]. }
    destruct S as (S1 & S2 & S3). split; [by rewrite I1|]. split.
    + destruct I2 as [I2|I2]; rewrite I2; [done|].
      destruct S2 as [S2|S2]; rewrite S2; [by right|]. right.
      rewrite <- option_fmap_compose. apply option_fmap_ext. intros m. apply chmod_meta_idemp.
    + intros Hq. rewrite I3 by (intros H; apply Hq; by right).
      apply S3. intros ->. apply Hq. by left.
Qed.

(** X3. No call of [change_permissions] adds or removes an entry, turns a
    file into a directory, or changes a size, a time stamp or the immutable
    attribute: at every path the inode is as before but for its permission
    bits, which are as before or those of [mode]; outside the target's
    subtree nothing changes at all. *)
Theorem chmod_changes_only_permission_bits
    (d : path) (mode : Z) (recursive : bool) (w : World) (q : path) :
  let t := fs w in
  let t' := fs (snd (change_permissions d mode recursive w)) in
  is_dir q t' = is_dir q t /\
  st_size <$> stat_at q t' = st_size <$> stat_at q t /\
  st_mtime <$> stat_at q t' = st_mtime <$> stat_at q t /\
  immutable <$> stat_at q t' = immutable <$> stat_at q t /\
  (st_mode <$> stat_at q t' = st_mode <$> stat_at q t \/
   st_mode <$> stat_at q t' = Some (Z.land mode 4095)) /\
  (~ d `prefix_of` q -> stat_at q t' = stat_at q t).
Proof.
  intros t t'. subst t t'.
  destruct (change_permissions_tree d mode recursive w) as (xs & Hxs & ->).
  destruct (chmod_fold_stat mode xs (fs w) q) as (H1 & H2 & H3). cbv zeta in *.
  split; [done|].
  assert (H4 : ~ d `prefix_of` q ->
               stat_at q (fold_left (tree_step always (fun x => os_chmod x mode)) xs (fs w))
               = stat_at q (fs w)).
  { intros Hn. apply H3. intros Hin. by apply Hn, Hxs. }
  destruct H2 as [H2|H2]; rewrite H2 in *; [by repeat split; auto|].
  destruct (stat_at q (fs w)) as [m|] eqn:E; simpl; [|by repeat split; auto].
  repeat split; auto.
Qed.
(* --------------------------------------------------------------------- *)
(** *** [cleanup_empty_dirs]: what stays and what cannot stay *)
(* --------------------------------------------------------------------- *)

(** The tree a call of [cleanup_empty_dirs] leaves. *)
Lemma cleanup_empty_dirs_fold d recursive w :
  exists xs,
    (xs = [] \/ (recursive = true /\ path_exists d (fs w) = true /\
                 xs = sorted_reverse (rglob_dot d (fs w)))) /\
    fs (snd (cleanup_empty_dirs d recursive w))
    = fold_left (tree_step is_empty_dir os_rmdir) xs (fs w).
Proof.
  destruct recursive.
  - destruct (path_exists d (fs w)) eqn:Hex.
    + exists (sorted_reverse (rglob_dot d (fs w))). split; [by right|].
      by apply cleanup_empty_dirs_tree.
    + exists []. split; [by left|].
      destruct (run_missing (CleanupEmptyDirs d true) w Hex) as (r1 & r2 & E & _).
      simpl in E. by rewrite E.
  - exists []. split; [by left|].
    destruct (path_exists d (fs w)) eqn:Hex.
    + destruct (cleanup_empty_dirs_unfold d false w Hex) as (dict & w' & E & Hf & _).
      cbv zeta in Hf. simpl in Hf. by rewrite E.
    + destruct (run_missing (CleanupEmptyDirs d false) w Hex) as (r1 & r2 & E & _).
      simpl in E. by rewrite E.
Qed.

(** One step of the sweep keeps every file, and makes no inode. *)
Lemma rmdir_step_keeps t x :
  let t1 := tree_step is_empty_dir os_rmdir t x in
  (forall q m, lookup_path q t = Some (File m) -> lookup_path q t1 = Some (File m)) /\
  (forall q n1, lookup_path q t1 = Some n1 ->
     exists n, lookup_path q t = Some n /\ node_meta n = node_meta n1 /\
               is_dir_node n = is_dir_node n1).
Proof.
  destruct (rmdir_step_cases t x) as [->|(-> & Hx & m & Hl & _)]; simpl.
  - split; eauto.
  - split.
    + intros q mq Hq. apply lookup_detach_file; [|done].
      intros [r ->]. rewrite lookup_path_app, Hl in Hq. by destruct r.
    + intros q n1 Hq. apply lookup_detach_Some in Hq as (n & H1 & H2 & H3 & _); eauto.
Qed.

Lemma rmdir_fold_keeps xs : forall t,
  let t' := fold_left (tree_step is_empty_dir os_rmdir) xs t in
  (forall q m, lookup_path q t = Some (File m) -> lookup_path q t' = Some (File m)) /\
  (forall q n1, lookup_path q t' = Some n1 ->
     exists n, lookup_path q t = Some n /\ node_meta n = node_meta n1 /\
               is_dir_node n = is_dir_node n1).
Proof.
  induction xs as [|x xs IH]; intros t; simpl; [split; eauto|].
  destruct (IH (tree_step is_empty_dir os_rmdir t x)) as [I1 I2].
  destruct (rmdir_step_keeps t x) as [S1 S2]. split.
  - intros q m Hq. by apply I1, S1.
  - intros q n1 Hq. apply I2 in Hq as (n & Hn & E1 & E2).
    apply S2 in Hn as (n0 & Hn0 & E3 & E4). exists n0. split; [done|]. split; congruence.
Qed.


(** A directory that is still there after steps on paths that are not below
    it was not changed by them. *)
Lemma rmdir_fold_above (q : path) ys : forall t n,
  (forall y, y ∈ ys -> forall c r, y <> q ++ c :: r) ->
  lookup_path q (fold_left (tree_step is_empty_dir os_rmdir) ys t) = Some n ->
  lookup_path q t = Some n.
Proof.
  induction ys as [|y ys IH]; intros t n Hy; simpl; [done|].
  intros H. apply IH in H; [|intros y' Hy'; apply Hy; by right].
  destruct (rmdir_step_cases t y) as [E|(E & Hne & _)]; rewrite E in H; [done|].
  destruct (path_relation_total y q) as [r ->|c r ->|k a b p' q' -> -> Hab].
  - by rewrite lookup_detach_below in H.
  - by destruct (Hy (q ++ c :: r) ltac:(by left) c r).
  - by rewrite lookup_detach_beside in H.
Qed.

Lemma rmdir_step_refused t x m n :
  x <> [] -> lookup_path x t = Some (Dir m []) ->
  lookup_path x (tree_step is_empty_dir os_rmdir t x) = Some n ->
  immutable m = true \/ immutable_at (parent x) t = true.
Proof.
  intros Hx Hl H. destruct (immutable m) eqn:Em; [by left|].
  destruct (immutable_at (parent x) t) eqn:Ep; [by right|].
  rewrite (rmdir_step_removes t x m Hx Hl Em Ep) in H.
  pose proof (lookup_detach_below x [] t Hx) as Hb. rewrite app_nil_r in Hb. congruence.
Qed.

(** An empty directory met at or below the target after the sweep was
    refused. *)
Lemma empty_dir_left_is_refused (d : path) (w : World) (q : path) (m : meta) :
  let t' := fs (snd (cleanup_empty_dirs d true w)) in
  d `prefix_of` q ->
  lookup_path q t' = Some (Dir m []) ->
  q = [] \/ immutable m = true \/ immutable_at (parent q) t' = true.
Proof.
  intros t' [r ->] Hq. subst t'.
  destruct (path_exists d (fs w)) eqn:Hex.
  2: { exfalso.
       destruct (run_missing (CleanupEmptyDirs d true) w Hex) as (r1 & r2 & E & _).
       simpl in E. rewrite E in Hq. simpl in Hq.
       pose proof (path_exists_below d r (fs w) Hex) as Hb.
       unfold path_exists in Hb. by rewrite Hq in Hb. }
  rewrite (cleanup_empty_dirs_tree d w Hex) in *.
  set (L := sorted_reverse (rglob_dot d (fs w))) in *.
  destruct (rmdir_fold_keeps L (fs w)) as [_ K]. cbv zeta in K.
  destruct (K _ _ Hq) as (n0 & Hn0 & _ & Hk0).
  destruct n0 as [m0|m0 es0]; [done|].
  assert (Hin : d ++ r ∈ L).
  { apply elem_of_sorted_reverse. by eapply rglob_dot_complete. }
  destruct (sorted_split_first L (d ++ r) (sorted_reverse_sorted _) Hin)
    as (X & Y & EL & _ & _ & HY).
  rewrite EL in Hq |- *. rewrite fold_left_app in Hq |- *. simpl in Hq |- *.
  set (t1 := fold_left (tree_step is_empty_dir os_rmdir) X (fs w)) in *.
  set (t2 := tree_step is_empty_dir os_rmdir t1 (d ++ r)) in *.
  assert (H2 : lookup_path (d ++ r) t2 = Some (Dir m [])).
  { apply (rmdir_fold_above (d ++ r) Y); [|done].
    intros y Hy c s ->. by apply (not_path_le_below (d ++ r) c s), HY. }
  destruct (decide (d ++ r = [])) as [Hroot|Hroot]; [by left|]. right.
  assert (H1 : lookup_path (d ++ r) t1 = Some (Dir m []) /\
               (immutable m = true \/ immutable_at (parent (d ++ r)) t1 = true)).
  { assert (Hl1 : lookup_path (d ++ r) t1 = Some (Dir m [])).
    { unfold t2 in H2.
      destruct (rmdir_step_cases t1 (d ++ r)) as [E|(E & _)]; rewrite E in H2; [done|].
      pose proof (lookup_detach_below (d ++ r) [] t1 Hroot) as Hb.
      rewrite app_nil_r in Hb. congruence. }
    split; [done|]. by apply (rmdir_step_refused t1 (d ++ r) m (Dir m [])). }
  destruct H1 as [_ [Hm|Hp]]; [by left|]. right.
  destruct (rmdir_fold_keeps ((d ++ r) :: Y) t1) as [_ K']. cbv zeta in K'. simpl in K'.
  fold t2 in K'. unfold immutable_at in *.
  assert (Hpar : is_Some (lookup_path (parent (d ++ r))
                   (fold_left (tree_step is_empty_dir os_rmdir) Y t2))).
  { rewrite (parent_name (d ++ r) Hroot) in Hq. rewrite lookup_path_app in Hq.
    destruct (lookup_path (parent (d ++ r)) _); [eauto|done]. }
  destruct Hpar as [np Hnp]. rewrite Hnp.
  destruct (K' _ _ Hnp) as (np1 & Hnp1 & Em & _). rewrite Hnp1 in Hp. by rewrite <- Em.
Qed.

(** X5. After a recursive [cleanup_empty_dirs], no empty directory is left
    at or below the target unless its removal was refused: a directory found
    empty there afterwards is the root of the tree, or is immutable, or lies
    in an immutable directory.  (Directories emptied by the removal of their
    subdirectories are removed in the same run.) *)
Theorem no_removable_empty_dir_is_left (d : path) (w : World) (q : path) (m : meta) :
  let t' := fs (snd (cleanup_empty_dirs d true w)) in
  d `prefix_of` q ->
  lookup_path q t' = Some (Dir m []) ->
  q = [] \/ immutable m = true \/ immutable_at (parent q) t' = true.
Proof.
  intros t' [r ->] Hq. subst t'.
  destruct (path_exists d (fs w)) eqn:Hex.
  2: { exfalso.
       destruct (run_missing (CleanupEmptyDirs d true) w Hex) as (r1 & r2 & E & _).
       simpl in E. rewrite E in Hq. simpl in Hq.
       pose proof (path_exists_below d r (fs w) Hex) as Hb.
       unfold path_exists in Hb. by rewrite Hq in Hb. }
  rewrite (cleanup_empty_dirs_tree d w Hex) in *.
  set (L := sorted_reverse (rglob_dot d (fs w))) in *.
  destruct (rmdir_fold_keeps L (fs w)) as [_ K]. cbv zeta in K.
  destruct (K _ _ Hq) as (n0 & Hn0 & _ & Hk0).
  destruct n0 as [m0|m0 es0]; [done|].
  assert (Hin : d ++ r ∈ L).
  { apply elem_of_sorted_reverse. by eapply rglob_dot_complete. }
  destruct (sorted_split_first L (d ++ r) (sorted_reverse_sorted _) Hin)
    as (X & Y & EL & _ & _ & HY).
  rewrite EL in Hq |- *. rewrite fold_left_app in Hq |- *. simpl in Hq |- *.
  set (t1 := fold_left (tree_step is_empty_dir os_rmdir) X (fs w)) in *.
  set (t2 := tree_step is_empty_dir os_rmdir t1 (d ++ r)) in *.
  assert (H2 : lookup_path (d ++ r) t2 = Some (Dir m [])).
  { apply (rmdir_fold_above (d ++ r) Y); [|done].
    intros y Hy c s ->. by apply (not_path_le_below (d ++ r) c s), HY. }
  destruct (decide (d ++ r = [])) as [Hroot|Hroot]; [by left|]. right.
  assert (H1 : lookup_path (d ++ r) t1 = Some (Dir m []) /\
               (immutable m = true \/ immutable_at (parent (d ++ r)) t1 = true)).
  { assert (Hl1 : lookup_path (d ++ r) t1 = Some (Dir m [])).
    { unfold t2 in H2.
      destruct (rmdir_step_cases t1 (d ++ r)) as [E|(E & _)]; rewrite E in H2; [done|].
      pose proof (lookup_detach_below (d ++ r) [] t1 Hroot) as Hb.
      rewrite app_nil_r in Hb. congruence. }
    split; [done|]. by apply (rmdir_step_refused t1 (d ++ r) m (Dir m [])). }
  destruct H1 as [_ [Hm|Hp]]; [by left|]. right.
  destruct (rmdir_fold_keeps ((d ++ r) :: Y) t1) as [_ K']. cbv zeta in K'. simpl in K'.
  fold t2 in K'. unfold immutable_at in *.
  assert (Hpar : is_Some (lookup_path (parent (d ++ r))
                   (fold_left (tree_step is_empty_dir os_rmdir) Y t2))).
  { rewrite (parent_name (d ++ r) Hroot) in Hq. rewrite lookup_path_app in Hq.
    destruct (lookup_path (parent (d ++ r)) _); [eauto|done]. }
  destruct Hpar as [np Hnp]. rewrite Hnp.
  destruct (K' _ _ Hnp) as (np1 & Hnp1 & Em & _). rewrite Hnp1 in Hp. by rewrite <- Em.
Qed.
Lemma no_removable_empty_dir_is_left_witness :
  ["work"; "keep"] = [] \/ immutable (Meta 493 0 4096 true) = true \/
  immutable_at (parent ["work"; "keep"])
    (fs (snd (cleanup_empty_dirs ["work"] true (world_of tree_kept 0)))) = true.
Proof.
  apply (no_removable_empty_dir_is_left ["work"] (world_of tree_kept 0)).
  - by exists ["keep"].
  - vm_compute. reflexivity.
Defined.

(* --------------------------------------------------------------------- *)
(** *** [cleanup_old_files]: which files go *)
(* --------------------------------------------------------------------- *)

Lemma unlink_step_cases cutoff t x ok err :
  sweep_step (is_old_file cutoff) os_unlink (t, ok, err) x
  = if deleted_as_old cutoff t x then (detach x t, ok + 1, err)
    else if refused_as_old cutoff t x then (t, ok, err + 1)
    else (t, ok, err).
Proof.
  unfold sweep_step, is_old_file, deleted_as_old, refused_as_old, os_unlink, fail, okay.
  destruct (lookup_path x t) as [[m|m es]|]; try done.
  destruct (st_mtime m <? cutoff); [|done]. simpl.
  by destruct (immutable m), (immutable_at (parent x) t).
Qed.

(** Unlinking a file: what is found at the other paths. *)
Lemma lookup_detach_a_file x t mx q m :
  x <> [] -> lookup_path x t = Some (File mx) ->
  lookup_path q (detach x t) = Some (File m) <->
  lookup_path q t = Some (File m) /\ q <> x.
Proof.
  intros Hx Hl. split.
  - intros H. split.
    + apply lookup_detach_Some in H as (n' & Hn' & _ & _ & E); [|done].
      by rewrite <- (E eq_refl).
    + intros ->. pose proof (lookup_detach_below x [] t Hx) as Hb.
      rewrite app_nil_r in Hb. congruence.
  - intros [H Hne]. apply lookup_detach_file; [|done].
    intros [r ->]. rewrite lookup_path_app, Hl in H.
    destruct r; [by rewrite app_nil_r in Hne|done].
Qed.

Lemma is_dir_detach_a_file x t mx q :
  x <> [] -> lookup_path x t = Some (File mx) ->
  is_dir q (detach x t) = is_dir q t.
Proof.
  intros Hx Hl. destruct (is_dir q t) eqn:E.
  - apply is_dir_detach; [|done]. intros [r ->].
    unfold is_dir in E. rewrite lookup_path_app, Hl in E. by destruct r.
  - destruct (is_dir q (detach x t)) eqn:E'; [|done].
    apply is_dir_lookup in E' as (m & es & H).
    apply lookup_detach_Some in H as (n' & Hn' & _ & Hk & _); [|done].
    unfold is_dir in E. rewrite Hn' in E. by destruct n'.
Qed.

Lemma immutable_at_detach_a_file x t mx q :
  x <> [] -> lookup_path x t = Some (File mx) -> q <> x ->
  immutable_at q (detach x t) = immutable_at q t.
Proof.
  intros Hx Hl Hne.
  destruct (decide (x `prefix_of` q)) as [[r ->]|Hn]; [|by apply immutable_at_detach].
  unfold immutable_at. rewrite lookup_detach_below by done.
  rewrite lookup_path_app, Hl. destruct r; [by rewrite app_nil_r in Hne|done].
Qed.

Lemma old_flags_detach cutoff x t mx q :
  x <> [] -> lookup_path x t = Some (File mx) -> q <> x ->
  deleted_as_old cutoff (detach x t) q = deleted_as_old cutoff t q /\
  refused_as_old cutoff (detach x t) q = refused_as_old cutoff t q.
Proof.
  intros Hx Hl Hne. unfold deleted_as_old, refused_as_old.
  destruct (lookup_path q t) as [[m|m es]|] eqn:E.
  - assert (E' : lookup_path q (detach x t) = Some (File m))
      by (by apply (lookup_detach_a_file x t mx)).
    rewrite E'. rewrite (immutable_at_detach_a_file x t mx); [done|done|done|].
    intros Hp. rewrite <- Hp in Hl. rewrite (parent_name q) in E.
    + rewrite lookup_path_app, Hl in E. done.
    + intros ->. apply Hx. by rewrite <- Hp.
  - destruct (lookup_path q (detach x t)) as [[m'|m' es']|] eqn:E'; try done.
    apply (lookup_detach_a_file x t mx) in E' as [E' _]; [congruence|done|done].
  - destruct (lookup_path q (detach x t)) as [[m'|m' es']|] eqn:E'; try done.
    apply (lookup_detach_a_file x t mx) in E' as [E' _]; [congruence|done|done].
Qed.

Lemma deleted_is_file cutoff t x :
  deleted_as_old cutoff t x = true -> exists m, lookup_path x t = Some (File m).
Proof.
  unfold deleted_as_old. destruct (lookup_path x t) as [[m|m es]|]; try done. eauto.
Qed.

Lemma unlink_fold_files cutoff xs : forall t,
  (forall x, x ∈ xs -> x <> []) ->
  let t' := fold_left (tree_step (is_old_file cutoff) os_unlink) xs t in
  (forall q m, lookup_path q t' = Some (File m) <->
     lookup_path q t = Some (File m) /\ ~ (q ∈ xs /\ deleted_as_old cutoff t q = true)) /\
  (forall q, is_dir q t' = is_dir q t).
Proof.
  induction xs as [|x xs IH]; intros t Hne; simpl.
  - split; [|done]. intros q m. split; [|tauto]. intros H. split; [done|].
    by intros [?%elem_of_nil _].
  - assert (Hx : x <> []) by (apply Hne; by left).
    assert (Hstep : tree_step (is_old_file cutoff) os_unlink t x
                    = if deleted_as_old cutoff t x then detach x t else t).
    { unfold tree_step, is_old_file, deleted_as_old, os_unlink, fail, okay.
      destruct (lookup_path x t) as [[m|m es]|]; try done.
      destruct (st_mtime m <? cutoff); [|done]. simpl.
      by destruct (immutable m), (immutable_at (parent x) t). }
    rewrite Hstep.
    destruct (deleted_as_old cutoff t x) eqn:Ed.
    + destruct (deleted_is_file cutoff t x Ed) as (mx & Hl).
      destruct (IH (detach x t)) as [I1 I2]; [intros y Hy; apply Hne; by right|].
      split.
      * intros q m. rewrite I1, (lookup_detach_a_file x t mx) by done.
        split.
        -- intros [[H Hq] Hn]. split; [done|]. intros [Hin Hd].
           apply elem_of_cons in Hin as [->|Hin]; [done|]. apply Hn. split; [done|].
           by rewrite (proj1 (old_flags_detach cutoff x t mx q Hx Hl Hq)).
        -- intros [H Hn]. assert (Hq : q <> x).
           { intros ->. apply Hn. split; [by left|done]. }
           split; [done|]. intros [Hin Hd]. apply Hn. split; [by right|].
           by rewrite <- (proj1 (old_flags_detach cutoff x t mx q Hx Hl Hq)).
      * intros q. rewrite I2. by apply (is_dir_detach_a_file x t mx).
    + destruct (IH t) as [I1 I2]; [intros y Hy; apply Hne; by right|].
      split; [|done]. intros q m. rewrite I1. split.
      * intros [H Hn]. split; [done|]. intros [Hin Hd].
        apply elem_of_cons in Hin as [->|Hin]; [congruence|]. by apply Hn.
      * intros [H Hn]. split; [done|]. intros [Hin Hd]. apply Hn. split; [by right|done].
Qed.

(** The tree a call of [cleanup_old_files] leaves. *)
Lemma cleanup_old_files_tree d days w :
  path_exists d (fs w) = true ->
  fs (snd (cleanup_old_files d days w))
  = fold_left (tree_step (is_old_file (clock w - days * 86400)) os_unlink)
      (rglob_star d (fs w)) (fs w).
Proof.
  intros Hex. destruct (cleanup_old_files_sweep d days w Hex) as (det & _ & ->).
  apply sweep_tree.
Qed.

(** The files and directories a call of [cleanup_old_files] leaves. *)
Lemma cleanup_old_files_effect
    (d : path) (days : Z) (w : World) (q : path) (m : meta) :
  let t := fs w in
  let t' := fs (snd (cleanup_old_files d days w)) in
  let cutoff_time := clock w - days * 86400 in
  (lookup_path q t' = Some (File m) <->
   lookup_path q t = Some (File m) /\
   ~ ((exists c r, q = d ++ c :: r) /\ st_mtime m < cutoff_time /\
      immutable m = false /\ immutable_at (parent q) t = false)) /\
  is_dir q t' = is_dir q t.
Proof.
  intros t t' cutoff. subst t t'.
  destruct (path_exists d (fs w)) eqn:Hex.
  - rewrite (cleanup_old_files_tree d days w Hex). fold cutoff.
    destruct (unlink_fold_files cutoff (rglob_star d (fs w)) (fs w)) as [H1 H2].
    { intros x Hx. apply rglob_star_sound in Hx as [(c & r & ->) _]. by destruct d. }
    cbv zeta in H1, H2. split; [|apply H2]. rewrite H1. split.
    + intros [H Hn]. split; [done|]. intros ((c & r & ->) & Hold & Him & Hip).
      apply Hn. split.
      * apply rglob_star_complete. rewrite H. eauto.
      * unfold deleted_as_old. rewrite H, Him, Hip. simpl.
        rewrite !andb_true_r. by apply Z.ltb_lt.
    + intros [H Hn]. split; [done|]. intros [Hin Hd]. apply Hn.
      apply rglob_star_sound in Hin as [Hb _]. split; [done|].
      unfold deleted_as_old in Hd. rewrite H in Hd.
      apply andb_true_iff in Hd as [Hd Hp]. apply andb_true_iff in Hd as [Ho Hi].
      apply Z.ltb_lt in Ho. apply negb_true_iff in Hi, Hp. done.
  - destruct (run_missing (CleanupOldFiles d days) w Hex) as (r1 & r2 & E & _).
    simpl in E. rewrite E. simpl. split; [|done]. split; [|tauto].
    intros H. split; [done|]. intros ((c & r & ->) & _).
    pose proof (path_exists_below d (c :: r) (fs w) Hex) as Hb.
    unfold path_exists in Hb. by rewrite H in Hb.
Qed.



Lemma filter_ext_elem {A} (P Q : A -> Prop)
    `{!forall x, Decision (P x)} `{!forall x, Decision (Q x)} (l : list A) :
  (forall x, x ∈ l -> P x <-> Q x) -> filter P l = filter Q l.
Proof.
  induction l as [|a l IH]; intros Hpq; [done|].
  rewrite !filter_cons, IH by (intros x Hx; apply Hpq; by right).
  destruct (decide (P a)) as [Hp|Hp], (decide (Q a)) as [Hq|Hq]; try done.
  - destruct Hq. by apply (Hpq a ltac:(by left)).
  - destruct Hp. by apply (Hpq a ltac:(by left)).
Qed.

Lemma len_cons {A} (x : A) l : len (x :: l) = 1 + len l.
Proof. unfold len. simpl length. lia. Qed.




(* --------------------------------------------------------------------- *)
(** *** [organize_by_extension]: counts, a second run, files in the way *)
(* --------------------------------------------------------------------- *)

Lemma organize_entry_exact d x w ok err det t1 :
  organize_step (clock w) d (fs w) x = Some t1 ->
  exists w1,
    organize_entry d x (w, results_of (OrganizeByExtension d) ok err det)
    = (Return tt,
       (w1, if is_file x (fs w)
            then results_of (OrganizeByExtension d) (ok + 1) err
                   (det ++ [moved_line (name x)])
            else results_of (OrganizeByExtension d) ok err det)) /\
    fs w1 = t1 /\ clock w1 = clock w.
Proof.
  unfold organize_entry, organize_step.
  change (lstrip_dot (str_or (suffix x) "no_extension")) with (bucket (name x)).
  change ("Moved " +:+ name x +:+ " to " +:+ str_or (suffix x) "no_extension" +:+ "/")
    with (moved_line (name x)).
  run_monad.
  destruct (is_file x (fs w)) eqn:Hf; simpl.
  2: { intros [= <-]. exists w. by destruct w. }
  destruct (mkdir_exist_ok (clock w) (joinpath d (bucket (name x))) (fs w))
    as [[[]|e] t1'] eqn:Emk; simpl; [|done].
  destruct (shutil_move x _ t1') as [[[]|e] t2] eqn:Emv; simpl; [|done].
  intros [= <-].
  rewrite (incr_success (OrganizeByExtension d)). simpl.
  rewrite (append_details (OrganizeByExtension d)) by reflexivity. simpl. eauto.
Qed.

(** An iteration leaves the other entries of the root files or not as they
    were. *)
Lemma organize_step_other now d t k t1 j :
  organize_step now d t (d ++ [k]) = Some t1 -> j <> k ->
  is_file (d ++ [j]) t1 = is_file (d ++ [j]) t.
Proof.
  intros Hs Hjk. destruct (is_file (d ++ [k]) t) eqn:Hf.
  2: { rewrite organize_step_skip in Hs by done. by injection Hs as <-. }
  apply is_file_lookup in Hf as (m & Hm).
  destruct (organize_step_effect now d k t t1 m Hm Hs)
    as (Hkb & _ & E3 & E9 & _ & E1 & _).
  destruct (decide (j = bucket k)) as [->|Hjb].
  - unfold is_file, is_dir in *.
    destruct (lookup_path (d ++ [bucket k]) t1) as [[?|? ?]|]; try done.
    destruct E9 as [E9| ->]; [|done].
    by destruct (lookup_path (d ++ [bucket k]) t) as [[?|? ?]|].
  - unfold is_file. by rewrite (E1 j []).
Qed.

Lemma organize_loop_exact d ks : forall w ok err det t',
  NoDup ks ->
  organize_fold (clock w) d (map (fun k => d ++ [k]) ks) (fs w) = Some t' ->
  let moved := filter (fun k => is_file (d ++ [k]) (fs w) = true) ks in
  exists w',
    for_each (map (fun k => d ++ [k]) ks) (organize_entry d)
      (w, results_of (OrganizeByExtension d) ok err det)
    = (Return tt,
       (w', results_of (OrganizeByExtension d) (ok + len moved) err
              (det ++ map moved_line moved))) /\
    fs w' = t'.
Proof.
  induction ks as [|k ks IH]; intros w ok err det t' Hnd Hfold moved; subst moved.
  - simpl in *. injection Hfold as <-. exists w. unfold len. simpl.
    by rewrite Z.add_0_r, app_nil_r.
  - apply NoDup_cons in Hnd as [Hk Hnd]. simpl in Hfold.
    destruct (organize_step (clock w) d (fs w) (d ++ [k])) as [t1|] eqn:Es; [|done].
    destruct (organize_entry_exact d (d ++ [k]) w ok err det t1 Es) as (w1 & E1 & Hf1 & Hc1).
    cbn [map for_each]. unfold bind. rewrite E1. rewrite name_snoc.
    assert (Hrest : filter (fun j => is_file (d ++ [j]) (fs w1) = true) ks
                    = filter (fun j => is_file (d ++ [j]) (fs w) = true) ks).
    { apply filter_ext_elem. intros j Hj. rewrite Hf1.
      rewrite (organize_step_other (clock w) d (fs w) k t1 j Es); [done|].
      by intros ->. }
    rewrite <- Hc1, <- Hf1 in Hfold. rewrite filter_cons.
    destruct (is_file (d ++ [k]) (fs w)) eqn:Hfile.
    + rewrite decide_True by done.
      destruct (IH w1 (ok + 1) err (det ++ [moved_line k]) t' Hnd Hfold) as (w2 & -> & Hf2).
      rewrite Hrest. exists w2. split; [|done]. rewrite <- app_assoc, len_cons. simpl.
      by replace (ok + 1 + len (filter (fun j => is_file (d ++ [j]) (fs w) = true) ks))
        with (ok + (1 + len (filter (fun j => is_file (d ++ [j]) (fs w) = true) ks)))
        by lia.
    + rewrite decide_False by (by intros ?).
      destruct (IH w1 ok err det t' Hnd Hfold) as (w2 & -> & Hf2).
      rewrite Hrest. by exists w2.
Qed.

(** X8. In a run of [organize_by_extension] on a directory that reports no
    error, [organized] is the number of regular files directly in the
    directory and [details] has one line per file, in the order of the
    listing.  The line reads [Moved <name> to <ext>/] with the suffix as it
    is, dot included ([.CSV/]), while the directory made is named without the
    dot ([CSV]).  (No directory lists a name twice.) *)
Theorem organize_counts_the_files (d : path) (w : World) :
  is_dir d (fs w) = true ->
  NoDup (listing d (fs w)) ->
  counter "errors" (fst (organize_by_extension d w)) = Some 0 ->
  let moved := filter (fun k => is_file (d ++ [k]) (fs w) = true) (listing d (fs w)) in
  fst (organize_by_extension d w)
  = Return {[ "organized" := VInt (len moved); "errors" := VInt 0;
              "details" := VList (map moved_line moved) ]} /\
  (forall k, suffix [k] <> "" ->
     moved_line k = "Moved " +:+ k +:+ " to ." +:+ bucket k +:+ "/").
Proof.
  intros Hd Hnd Herr moved. split.
  2: { intros k Hk. unfold moved_line.
       destruct (bucket_spec k) as [[E _]|(stem & _ & -> & _)]; [done|]. reflexivity. }
  assert (Hex : path_exists d (fs w) = true) by (by apply is_dir_exists).
  pose proof (organize_clean_run d w Hex Herr) as Hfold.
  destruct (organize_unfold d w Hex) as (dict & w' & E & _ & _ & Hdict).
  cbv zeta in Hdict. unfold started in Hdict. rewrite fresh_results_of in Hdict.
  destruct (organize_loop_exact d (listing d (fs w))
              (mkWorld (fs w)
                 (log w ++ [Log INFO "Starting file organization in {source_dir}" [APath d]])
                 (clock w)) 0 0 [] _ Hnd Hfold) as (w1 & E1 & _).
  unfold glob_star, children in Hdict. rewrite E1 in Hdict.
  rewrite E. simpl. f_equal. rewrite (Hdict tt eq_refl). simpl. reflexivity.
Qed.

Lemma organize_counts_the_files_witness :
  fst (organize_by_extension ["work"] (world_of tree_mixed 100))
  = Return {[ "organized" := VInt 2; "errors" := VInt 0;
              "details" := VList ["Moved data.CSV to .CSV/";
                                  "Moved report to no_extension/"] ]}.
Proof.
  assert (Hnd : NoDup (listing ["work"] (fs (world_of tree_mixed 100)))).
  { apply (bool_decide_unpack _). vm_compute. exact I. }
  rewrite (proj1 (organize_counts_the_files ["work"] (world_of tree_mixed 100) eq_refl Hnd
                    ltac:(vm_compute; reflexivity))).
  vm_compute. reflexivity.
Defined.

Lemma organize_loop_skip d xs w dict :
  (forall x, x ∈ xs -> is_file x (fs w) = false) ->
  for_each xs (organize_entry d) (w, dict) = (Return tt, (w, dict)).
Proof.
  induction xs as [|x xs IH]; intros H; [done|].
  cbn [for_each]. unfold bind.
  assert (E : organize_entry d x (w, dict) = (Return tt, (w, dict))).
  { unfold organize_entry. run_monad. rewrite (H x) by (by left). reflexivity. }
  rewrite E. apply IH. intros y Hy. apply H. by right.
Qed.

(** A directory without regular files of its own is left as it is. *)
Lemma organize_nothing_to_do d w :
  (forall k, is_file (d ++ [k]) (fs w) = false) ->
  fst (organize_by_extension d w)
    = Return {[ "organized" := VInt 0; "errors" := VInt 0; "details" := VList [] ]} /\
  fs (snd (organize_by_extension d w)) = fs w.
Proof.
  intros Hnf. destruct (path_exists d (fs w)) eqn:Hex.
  - destruct (organize_unfold d w Hex) as (dict & w' & E & Hf & _ & Hdict).
    cbv zeta in Hf, Hdict. unfold started in Hf, Hdict.
    rewrite organize_loop_skip in Hf, Hdict
      by (simpl; intros x Hx; apply elem_of_children in Hx as (c & _ & _ & -> & _);
          apply Hnf).
    rewrite E. simpl. split; [|done]. by rewrite (Hdict tt eq_refl).
  - destruct (run_missing (OrganizeByExtension d) w Hex) as (r1 & r2 & E & _).
    simpl in E. by rewrite E.
Qed.

(** After a run without error no regular file is left directly in the
    directory. *)
Lemma organize_leaves_no_file d w k :
  counter "errors" (fst (organize_by_extension d w)) = Some 0 ->
  is_file (d ++ [k]) (fs (snd (organize_by_extension d w))) = false.
Proof.
  intros Herr. destruct (is_dir d (fs w)) eqn:Hd.
  - destruct (organize_run_organized d w Hd Herr) as (_ & I2 & _ & I4 & _).
    destruct (is_file (d ++ [k]) (fs (snd (organize_by_extension d w)))) eqn:Hf; [|done].
    pose proof Hf as Hf'. apply is_file_lookup in Hf' as (m & Hm). apply I2 in Hm.
    apply file_is_listed in Hm as [Hin _]. apply I4 in Hin. congruence.
  - assert (E : fs (snd (organize_by_extension d w)) = fs w).
    { destruct (path_exists d (fs w)) eqn:Hex.
      - pose proof (organize_clean_run d w Hex Herr) as Hf.
        unfold glob_star, children, listing in Hf. unfold is_dir in Hd.
        destruct (lookup_path d (fs w)) as [[m|m es]|]; try done; simpl in Hf; congruence.
      - destruct (run_missing (OrganizeByExtension d) w Hex) as (r1 & r2 & E & _).
        simpl in E. by rewrite E. }
    rewrite E. unfold is_file, is_dir in *. rewrite lookup_path_snoc.
    by destruct (lookup_path d (fs w)) as [[m|m es]|].
Qed.

(** X9. [organize_by_extension] run again on the tree a run without error
    has left finds nothing to do: the second run returns
    [{'organized': 0, 'errors': 0, 'details': []}] and leaves the tree as it
    is (the files moved into the buckets are not moved again). *)
Theorem organize_again_does_nothing (d : path) (w w2 : World) :
  counter "errors" (fst (organize_by_extension d w)) = Some 0 ->
  fs w2 = fs (snd (organize_by_extension d w)) ->
  fst (organize_by_extension d w2)
    = Return {[ "organized" := VInt 0; "errors" := VInt 0; "details" := VList [] ]} /\
  fs (snd (organize_by_extension d w2)) = fs w2.
Proof.
  intros Herr Hfs. apply organize_nothing_to_do.
  intros k. rewrite Hfs. by apply organize_leaves_no_file.
Qed.

Lemma organize_again_does_nothing_witness :
  let w1 := snd (organize_by_extension ["work"] (world_of tree_mixed 100)) in
  fst (organize_by_extension ["work"] w1)
    = Return {[ "organized" := VInt 0; "errors" := VInt 0; "details" := VList [] ]} /\
  fs (snd (organize_by_extension ["work"] w1)) = fs w1.
Proof.
  apply (organize_again_does_nothing ["work"] (world_of tree_mixed 100)).
  - vm_compute. reflexivity.
  - reflexivity.
Defined.

(** X10. [organize_by_extension] replaces a regular file of the same name
    that is already in the bucket: in a run without error, if [root/name] is
    a file and [root/bucket/name] is a file too, the latter is afterwards the
    file that was at [root/name], and [root/name] is gone (what the bucket
    held under that name is lost, no error is counted). *)
Theorem organize_replaces_file_in_bucket
    (d : path) (w : World) (k : string) (m m' : meta) :
  counter "errors" (fst (organize_by_extension d w)) = Some 0 ->
  lookup_path (d ++ [k]) (fs w) = Some (File m) ->
  lookup_path (d ++ [bucket k; k]) (fs w) = Some (File m') ->
  let t' := fs (snd (organize_by_extension d w)) in
  lookup_path (d ++ [bucket k; k]) t' = Some (File m) /\
  is_file (d ++ [k]) t' = false.
Proof.
  intros Herr Hk Hb t'. subst t'.
  destruct (file_is_listed d k (fs w) m Hk) as [Hin Hd].
  destruct (organize_run_organized d w Hd Herr) as (_ & _ & I3 & I4 & _).
  split; [|by apply I4].
  destruct (I3 k m Hk) as [H|[_ H]].
  - specialize (I4 k Hin). unfold is_file in I4. by rewrite H in I4.
  - unfold destination, is_dir in H. by rewrite Hb in H.
Qed.

Lemma organize_replaces_file_in_bucket_witness :
  lookup_path ["work"; "txt"; "a.txt"] tree_twice = Some (plain 1 10) /\
  lookup_path ["work"; "txt"; "a.txt"]
    (fs (snd (organize_by_extension ["work"] (world_of tree_twice 100))))
  = Some (plain 7 70).
Proof.
  split; [reflexivity|].
  apply (organize_replaces_file_in_bucket ["work"] (world_of tree_twice 100) "a.txt"
           (Meta 420 7 70 false) (Meta 420 1 10 false)).
  - vm_compute. reflexivity.
  - reflexivity.
  - reflexivity.
Defined.
(* --------------------------------------------------------------------- *)
(** *** [find_large_files]: the threshold *)
(* --------------------------------------------------------------------- *)





(* --------------------------------------------------------------------- *)
(** *** [SystemOperations]: what the dictionaries say *)
(* --------------------------------------------------------------------- *)



(** [split] and [strip]. *)
Lemma split_on_nonempty sep s : split_on sep s <> [].
Proof.
  destruct s as [|a s]; simpl; [done|].
  destruct (Ascii.eqb a sep); [done|]. by destruct (split_on sep s).
Qed.

(** Joining the pieces with the separator gives the string back. *)
Lemma concat_split_on sep s :
  String.concat (String sep EmptyString) (split_on sep s) = s.
Proof.
  induction s as [|a s IH]; simpl; [done|].
  destruct (Ascii.eqb_spec a sep) as [->|Hne].
  - pose proof (split_on_nonempty sep s) as Hn.
    destruct (split_on sep s) as [|h t] eqn:E; [done|].
    change (String.concat (String sep "") ("" :: h :: t))
      with (String sep (String.concat (String sep "") (h :: t))).
    by rewrite IH.
  - pose proof (split_on_nonempty sep s) as Hn.
    destruct (split_on sep s) as [|h t] eqn:E; [done|].
    rewrite <- IH. by destruct t.
Qed.


Lemma lstrip_truthy s :
  truthy (lstrip s) = true <-> exists a, In a (list_ascii_of_string s) /\ is_space a = false.
Proof.
  induction s as [|a s IH]; simpl.
  - split; [done|]. by intros (a & [] & _).
  - destruct (is_space a) eqn:Ea.
    + rewrite IH. split.
      * intros (b & Hb & Hs). eauto.
      * intros (b & [<-|Hb] & Hs); [congruence|eauto].
    + split; [|done]. intros _. exists a. auto.
Qed.






Lemma check_disk_usage_run (os : OS) (p : path) (w : World) :
  exists lg,
    check_disk_usage os p w
    = (Return
         match disk_usage os p (fs w) with
         | Raise e =>
             {[ "total" := PInt 0; "used" := PInt 0; "free" := PInt 0;
                "percent" := PInt 0; "success" := PBool false ]}
         | Return (total, used, free) =>
             if total =? 0
             then {[ "total" := PFloat (quotient total (1024 ^ 3));
                     "used" := PFloat (quotient used (1024 ^ 3));
                     "free" := PFloat (quotient free (1024 ^ 3));
                     "percent" := PInt 0; "success" := PBool false ]}
             else {[ "total" := PFloat (quotient total (1024 ^ 3));
                     "used" := PFloat (quotient used (1024 ^ 3));
                     "free" := PFloat (quotient free (1024 ^ 3));
                     "percent" := PFloat (float_mul_int (quotient used total) 100);
                     "success" := PBool true ]}
         end,
       mkWorld (fs w) lg (clock w)).
Proof.
  unfold check_disk_usage, method. run_monad.
  destruct (disk_usage os p (fs w)) as [[[total used] free]|e]; simpl; [|eauto].
  unfold int_truediv. destruct (total =? 0); simpl; eauto.
Qed.

(** X14. What [check_disk_usage] returns, by what [shutil.disk_usage] gives.
    The call never raises and leaves the tree alone.  [success] is true
    exactly when the usage could be read and the total is not zero.  If the
    usage cannot be read the dictionary keeps its five zeros; if the total is
    zero (the division for [percent] raises) [total], [used] and [free] have
    been assigned already, as floats, while [percent] is still the integer
    [0] and [success] is false. *)
Theorem check_disk_usage_result (os : OS) (p : path) (w : World) :
  let r := check_disk_usage os p w in
  let gb := 1024 ^ 3 in
  fs (snd r) = fs w /\
  fst r = Return
    match disk_usage os p (fs w) with
    | Raise e =>
        {[ "total" := PInt 0; "used" := PInt 0; "free" := PInt 0;
           "percent" := PInt 0; "success" := PBool false ]}
    | Return (total, used, free) =>
        if total =? 0
        then {[ "total" := PFloat (quotient total gb);
                "used" := PFloat (quotient used gb);
                "free" := PFloat (quotient free gb);
                "percent" := PInt 0; "success" := PBool false ]}
        else {[ "total" := PFloat (quotient total gb);
                "used" := PFloat (quotient used gb);
                "free" := PFloat (quotient free gb);
                "percent" := PFloat (float_mul_int (quotient used total) 100);
                "success" := PBool true ]}
    end.
Proof.
  intros r gb. subst r gb.
  by destruct (check_disk_usage_run os p w) as (lg & ->).
Qed.

(** A disk a quarter full: the percentage is the float [25.0], and is
    printed as such. *)
Lemma quarter_full_disk :
  let gb := 1024 ^ 3 in
  float_mul_int (quotient (25 * gb) (100 * gb)) 100 = S754_finite false 7036874417766400 (-48) /\
  format_1f (float_mul_int (quotient (25 * gb) (100 * gb)) 100) = "25.0".
Proof. by vm_compute. Qed.

(* --------------------------------------------------------------------- *)
(** *** [AutomationLogger] *)
(* --------------------------------------------------------------------- *)

Lemma length_parent (p : path) : p <> [] -> length p = S (length (parent p)).
Proof.
  intros Hp. rewrite (parent_name p Hp) at 1. rewrite length_app. simpl. lia.
Qed.

(** The depth given to the recursion is enough. *)
Lemma mkdir_parents_depth now n : forall m p t,
  (length p <= n)%nat -> (length p <= m)%nat ->
  mkdir_parents_from n now p t = mkdir_parents_from m now p t.
Proof.
  induction n as [|n IH]; intros m p t Hn Hm.
  - destruct p; [|simpl in Hn; lia]. destruct m; simpl;
      by destruct (os_mkdir now [] t) as [[[]|[]] t'].
  - destruct m as [|m].
    + destruct p; [|simpl in Hm; lia]. simpl.
      by destruct (os_mkdir now [] t) as [[[]|[]] t'].
    + simpl. destruct (os_mkdir now p t) as [[[]|e] t']; [done|].
      destruct e; try done. destruct p as [|c p]; [done|].
      pose proof (length_parent (c :: p) ltac:(done)) as Hl.
      rewrite (IH m (parent (c :: p)) t'); [done|lia|lia].
Qed.

Lemma adds_along_refl p t : adds_along p t t.
Proof. by repeat split. Qed.

Lemma adds_along_trans p t1 t2 t3 :
  adds_along p t1 t2 -> adds_along p t2 t3 -> adds_along p t1 t3.
Proof.
  intros (A1 & A2 & A3) (B1 & B2 & B3). repeat split.
  - intros q Hq. by rewrite B1, A1.
  - intros q m Hq. by apply B2, A2.
  - intros q Hq. by apply B3, A3.
Qed.

Lemma adds_along_longer p p' t t' :
  p `prefix_of` p' -> adds_along p t t' -> adds_along p' t t'.
Proof.
  intros Hp (A1 & A2 & A3). repeat split; auto.
  intros q Hq. apply A1. intros Hq'. apply Hq. by etrans.
Qed.

(** Linking a new entry. *)
Lemma adds_along_attach x v t m es :
  x <> [] -> lookup_path x t = None -> lookup_path (parent x) t = Some (Dir m es) ->
  (forall c r, lookup_path (c :: r) v = None) ->
  adds_along x t (attach x v t) /\ lookup_path x (attach x v t) = Some v.
Proof.
  intros Hx Hn Hp Hv. split; [repeat split|].
  - intros q Hq.
    destruct (path_relation_total x q) as [r ->|c r ->|k a b p' q' -> -> Hab].
    + destruct r as [|c r]; [destruct Hq; by rewrite app_nil_r|].
      rewrite (lookup_attach_below x (c :: r) v t m es Hx Hp), Hv.
      symmetry. by apply lookup_below_none.
    + destruct Hq. by exists (c :: r).
    + by apply lookup_attach_beside.
  - intros q mq Hq. apply lookup_attach_file; [|done].
    intros [r ->]. rewrite lookup_path_app, Hn in Hq. done.
  - intros q Hq. apply is_dir_attach; [|done].
    intros [r ->]. unfold is_dir in Hq. rewrite lookup_path_app, Hn in Hq. done.
  - rewrite <- (app_nil_r x) at 1. by rewrite (lookup_attach_below x [] v t m es Hx Hp).
Qed.

Lemma os_mkdir_cases now p t :
  (exists e, os_mkdir now p t = (Raise e, t) /\
     (e = FileNotFoundError -> lookup_path p t = None)) \/
  (os_mkdir now p t = (Return tt, attach p (new_dir now) t) /\
   lookup_path p t = None /\ exists m es, lookup_path (parent p) t = Some (Dir m es)).
Proof.
  unfold os_mkdir, fail, okay.
  destruct (lookup_path p t) as [n|] eqn:El; [left; eexists; by split|].
  destruct (lookup_path (parent p) t) as [[m|m es]|] eqn:Ep.
  - left. eexists. by split.
  - destruct (immutable m); [left; eexists; by split|right; eauto].
  - left. eexists. by split.
Qed.

Lemma new_dir_empty now c r : lookup_path (c :: r) (new_dir now) = None.
Proof. done. Qed.

Lemma lookup_none_nonempty (p : path) t : lookup_path p t = None -> p <> [].
Proof. by destruct p. Qed.

Lemma mkdir_exist_ok_effect now p t o t' :
  mkdir_exist_ok now p t = (o, t') ->
  adds_along p t t' /\ (o = Return tt -> is_dir p t' = true).
Proof.
  unfold mkdir_exist_ok.
  destruct (os_mkdir_cases now p t) as [(e & -> & _)|(-> & Hn & m & es & Hp)].
  - destruct e; destruct (is_dir p t) eqn:Hd; intros [= <- <-];
      (split; [apply adds_along_refl|done]).
  - intros [= <- <-].
    destruct (adds_along_attach p (new_dir now) t m es (lookup_none_nonempty p t Hn) Hn Hp
                (new_dir_empty now)) as [HA Hl].
    split; [done|]. intros _. unfold is_dir. by rewrite Hl.
Qed.

(** [mkdir(parents=True, exist_ok=True)] adds directories on the way to the
    path and, if it returns, leaves a directory there. *)
Lemma mkdir_parents_effect now n : forall p t o t',
  mkdir_parents_from n now p t = (o, t') ->
  adds_along p t t' /\ (o = Return tt -> is_dir p t' = true).
Proof.
  induction n as [|n IH]; intros p t o t'; simpl.
  - destruct (os_mkdir_cases now p t) as [(e & -> & _)|(-> & Hn & m & es & Hp)].
    + destruct e; try (destruct (is_dir p t) eqn:Hd; intros [= <- <-];
        (split; [apply adds_along_refl|done])).
      destruct p; intros [= <- <-]; (split; [apply adds_along_refl|done]).
    + intros [= <- <-].
      destruct (adds_along_attach p (new_dir now) t m es (lookup_none_nonempty p t Hn) Hn Hp
                  (new_dir_empty now)) as [HA Hl].
      split; [done|]. intros _. unfold is_dir. by rewrite Hl.
  - destruct (os_mkdir_cases now p t) as [(e & -> & _)|(-> & Hn & m & es & Hp)].
    + destruct e; try (destruct (is_dir p t) eqn:Hd; intros [= <- <-];
        (split; [apply adds_along_refl|done])).
      destruct p as [|c p]; [intros [= <- <-]; (split; [apply adds_along_refl|done])|].
      destruct (mkdir_parents_from n now (parent (c :: p)) t) as [[[]|e] t1] eqn:E1.
      * apply IH in E1 as [H1 _]. intros E2. apply mkdir_exist_ok_effect in E2 as [H2 H3].
        split; [|done]. eapply adds_along_trans; [|exact H2].
        eapply adds_along_longer; [|exact H1].
        rewrite (parent_name (c :: p)) at 2 by done. by apply prefix_app_r.
      * apply IH in E1 as [H1 _]. intros [= <- <-]. split; [|done].
        eapply adds_along_longer; [|exact H1].
        rewrite (parent_name (c :: p)) at 2 by done. by apply prefix_app_r.
    + intros [= <- <-].
      destruct (adds_along_attach p (new_dir now) t m es (lookup_none_nonempty p t Hn) Hn Hp
                  (new_dir_empty now)) as [HA Hl].
      split; [done|]. intros _. unfold is_dir. by rewrite Hl.
Qed.

Lemma open_append_effect now p t o t' :
  open_append now p t = (o, t') ->
  adds_along p t t' /\ (o = Return tt -> is_file p t' = true).
Proof.
  unfold open_append, fail, okay, is_file.
  destruct (lookup_path p t) as [[m|m es]|] eqn:El.
  - destruct (immutable m); intros [= <- <-]; (split; [apply adds_along_refl|]);
      [done|by rewrite El].
  - intros [= <- <-]. split; [apply adds_along_refl|done].
  - destruct (lookup_path (parent p) t) as [[pm|pm pes]|] eqn:Ep;
      try (intros [= <- <-]; split; [apply adds_along_refl|done]).
    destruct (immutable pm); intros [= <- <-]; [split; [apply adds_along_refl|done]|].
    destruct (adds_along_attach p (File (Meta 420 now 0 false)) t pm pes
                (lookup_none_nonempty p t El) El Ep ltac:(done)) as [HA Hl].
    split; [done|]. by rewrite Hl.
Qed.

(** What a call of [AutomationLogger(log_dir)] that returns has done. *)
Lemma automation_logger_returns os log_dir w g w' g' :
  automation_logger os log_dir (w, g) = (Return tt, (w', g')) ->
  adds_along (log_file os log_dir (clock w)) (fs w) (fs w') /\
  is_dir log_dir (fs w') = true /\
  is_file (log_file os log_dir (clock w)) (fs w') = true /\
  log w' = log w /\ clock w' = clock w /\
  logger_level g' = Some DEBUG /\
  handlers g' = handlers g ++
    [mkHandler (ToFile (log_file os log_dir (clock w))) DEBUG formatter_fmt formatter_datefmt;
     mkHandler ToStderr INFO formatter_fmt formatter_datefmt] /\
  stdout g' = stdout g.
Proof.
  unfold automation_logger. run_monad. unfold mkdir_parents.
  destruct (mkdir_parents_from (length log_dir) (clock w) log_dir (fs w))
    as [[[]|e] t1] eqn:E1; simpl; [|done].
  destruct (open_append (clock w) (log_file os log_dir (clock w)) t1)
    as [[[]|e] t2] eqn:E2; simpl; [|done].
  intros [= <- <-]. simpl.
  apply mkdir_parents_effect in E1 as [H1 H1']. apply open_append_effect in E2 as [H2 H2'].
  assert (Hpre : log_dir `prefix_of` log_file os log_dir (clock w)).
  { unfold log_file, joinpath. destruct (_ +:+ _); [done|by apply prefix_app_r]. }
  split; [|split; [|split; [by apply H2'|]]].
  - eapply adds_along_trans; [|exact H2]. by eapply adds_along_longer.
  - destruct H2 as (_ & _ & H2). by apply H2, H1'.
  - by rewrite <- app_assoc.
Qed.

(** What a call of [AutomationLogger(log_dir)] that raises has done. *)
Lemma automation_logger_raises os log_dir w g e w' g' :
  automation_logger os log_dir (w, g) = (Raise e, (w', g')) ->
  adds_along (log_file os log_dir (clock w)) (fs w) (fs w') /\
  handlers g' = handlers g /\ stdout g' = stdout g.
Proof.
  unfold automation_logger. run_monad. unfold mkdir_parents.
  assert (Hpre : log_dir `prefix_of` log_file os log_dir (clock w)).
  { unfold log_file, joinpath. destruct (_ +:+ _); [done|by apply prefix_app_r]. }
  destruct (mkdir_parents_from (length log_dir) (clock w) log_dir (fs w))
    as [[[]|e1] t1] eqn:E1; simpl.
  - destruct (open_append (clock w) (log_file os log_dir (clock w)) t1)
      as [[[]|e2] t2] eqn:E2; simpl; [done|].
    intros [= <- <- <-]. simpl.
    apply mkdir_parents_effect in E1 as [H1 _]. apply open_append_effect in E2 as [H2 _].
    split; [|done]. eapply adds_along_trans; [|exact H2]. by eapply adds_along_longer.
  - intros [= <- <- <-]. simpl. apply mkdir_parents_effect in E1 as [H1 _].
    split; [|done]. by eapply adds_along_longer.
Qed.

(** X15. Making an [AutomationLogger] only adds to the tree, and only on the
    way to the day's log file: whether it returns or raises, nothing changes
    at a path that does not lead to that file, every file is kept as it is
    and every directory stays one.  If it returns, the log directory and the
    log file exist, the level of the logger is [DEBUG] and two handlers have
    been added after those the logger had: one to the file at [DEBUG], one
    to [stderr] at [INFO].  If it raises, no handler has been added. *)
Theorem automation_logger_only_adds (os : OS) (log_dir : path) (w : World) (g : Process) :
  let r := automation_logger os log_dir (w, g) in
  let t' := fs (fst (snd r)) in
  let g' := snd (snd r) in
  let f := log_file os log_dir (clock w) in
  ((forall q, ~ q `prefix_of` f -> lookup_path q t' = lookup_path q (fs w)) /\
   (forall q m, lookup_path q (fs w) = Some (File m) -> lookup_path q t' = Some (File m)) /\
   (forall q, is_dir q (fs w) = true -> is_dir q t' = true)) /\
  (fst r = Return tt ->
     is_dir log_dir t' = true /\ is_file f t' = true /\
     logger_level g' = Some DEBUG /\
     handlers g' = handlers g ++
       [mkHandler (ToFile f) DEBUG formatter_fmt formatter_datefmt;
        mkHandler ToStderr INFO formatter_fmt formatter_datefmt]) /\
  (forall e, fst r = Raise e -> handlers g' = handlers g).
Proof.
  intros r t' g' f. subst t' g' f.
  destruct (automation_logger os log_dir (w, g)) as [[[]|e] [w' g']] eqn:E; subst r; simpl.
  - apply automation_logger_returns in E as (HA & Hd & Hf & _ & _ & Hl & Hh & _).
    split; [exact HA|]. split; [done|]. intros e. done.
  - apply automation_logger_raises in E as (HA & Hh & _).
    split; [exact HA|]. split; [done|]. intros e' _. done.
Qed.

(** The handlers after [n] loggers. *)
Lemma automation_loggers_handlers os log_dir n : forall w g w' g',
  automation_loggers os log_dir n (w, g) = (Return tt, (w', g')) ->
  clock w' = clock w /\
  logger_level g' = match n with O => logger_level g | S _ => Some DEBUG end /\
  handlers g' = handlers g ++
    mjoin (replicate n
      [mkHandler (ToFile (log_file os log_dir (clock w))) DEBUG formatter_fmt formatter_datefmt;
       mkHandler ToStderr INFO formatter_fmt formatter_datefmt]).
Proof.
  unfold automation_loggers.
  induction n as [|n IH]; intros w g w' g'; simpl.
  - unfold ret. intros [= <- <-]. by rewrite app_nil_r.
  - unfold bind at 1.
    destruct (automation_logger os log_dir (w, g)) as [[[]|e] [w1 g1]] eqn:E1; [|done].
    intros E2. apply IH in E2 as (Hc & Hl & Hh).
    apply automation_logger_returns in E1 as (_ & _ & _ & _ & Hc1 & Hl1 & Hh1 & _).
    rewrite Hc, Hc1. split; [done|]. split.
    + rewrite Hl. by destruct n.
    + rewrite Hh, Hh1, Hc1. by rewrite <- app_assoc.
Qed.

Lemma deliveries_replicate f n lv :
  map h_sink
    (filter (fun h => (levelno (h_level h) <=? levelno lv) = true)
       (mjoin (replicate n
          [mkHandler (ToFile f) DEBUG formatter_fmt formatter_datefmt;
           mkHandler ToStderr INFO formatter_fmt formatter_datefmt])))
  = if levelno INFO <=? levelno lv then mjoin (replicate n [ToFile f; ToStderr])
    else replicate n (ToFile f).
Proof.
  induction n as [|n IH]; simpl; [by destruct lv|].
  rewrite !filter_cons. simpl. destruct lv; simpl in *; by rewrite IH.
Qed.

(** X16. Each [AutomationLogger] made in a process adds its two handlers to
    the one logger [automation_toolkit]: after [n] of them (one at least) in
    a process whose logger had no handler, a record of level [INFO] or above
    is written [n] times to the log file and [n] times to [stderr], a
    [DEBUG] record [n] times to the log file only. *)
Theorem loggers_multiply_records
    (os : OS) (log_dir : path) (n : nat) (w w' : World) (g g' : Process) (r : LogRecord) :
  handlers g = [] -> n <> 0%nat ->
  automation_loggers os log_dir n (w, g) = (Return tt, (w', g')) ->
  deliveries g' r
  = if levelno INFO <=? levelno (levelname r)
    then mjoin (replicate n [ToFile (log_file os log_dir (clock w)); ToStderr])
    else replicate n (ToFile (log_file os log_dir (clock w))).
Proof.
  intros Hg Hn E. apply automation_loggers_handlers in E as (_ & Hl & Hh).
  rewrite Hg in Hh. simpl in Hh. unfold deliveries. rewrite Hl, Hh.
  destruct n as [|n]; [done|].
  assert (Hlv : (levelno (levelname r) <? levelno DEBUG) = false)
    by (by destruct (levelname r)).
  rewrite Hlv. rewrite <- deliveries_replicate. by simpl.
Qed.

Lemma loggers_multiply_records_witness :
  deliveries
    (snd (snd (automation_loggers sample_os default_log_dir 2
                 (world_of tree_stale 3000000, fresh_process))))
    (Log INFO "Starting old file cleanup..." [])
  = [ToFile ["var"; "log"; "automation"; "automation_20240101.log"]; ToStderr;
     ToFile ["var"; "log"; "automation"; "automation_20240101.log"]; ToStderr].
Proof.
  rewrite (loggers_multiply_records sample_os default_log_dir 2
             (world_of tree_stale 3000000)
             (fst (snd (automation_loggers sample_os default_log_dir 2
                          (world_of tree_stale 3000000, fresh_process))))
             fresh_process _ (Log INFO "Starting old file cleanup..." [])).
  - vm_compute. reflexivity.
  - reflexivity.
  - lia.
  - vm_compute. reflexivity.
Defined.

(** The report is printed: the keys it reads are there. *)
Lemma print_report_returns {V} (c1 c2 : Dict) (d : PDict) (w : World) (g : Process) (v : V)
    v1 v2 v3 v4 b :
  c1 !! "deleted" = Some v1 -> c1 !! "errors" = Some v2 ->
  c2 !! "removed" = Some v3 -> c2 !! "errors" = Some v4 ->
  d !! "success" = Some b ->
  (pytruth b = true ->
   is_Some (d !! "percent") /\ is_Some (d !! "used") /\ is_Some (d !! "total")) ->
  exists gf,
    print_report c1 c2 d (w, (g, v)) = (Return tt, (w, (gf, v))) /\
    logger_level gf = logger_level g /\ handlers gf = handlers g.
Proof.
  intros H1 H2 H3 H4 H5 H6. unfold print_report, subscript.
  rewrite H1, H2, H3, H4, H5.
  destruct (pytruth b) eqn:Eb.
  - destruct H6 as ([x1 ->] & [x2 ->] & [x3 ->]); [done|].
    cbv beta iota zeta delta [bind ret raise when print fst snd logger_level handlers stdout].
    rewrite Eb.
    cbv beta iota zeta delta [bind ret raise when print fst snd logger_level handlers stdout].
    eexists. split; [reflexivity|]. by split.
  - cbv beta iota zeta delta [bind ret raise when print fst snd logger_level handlers stdout].
    rewrite Eb.
    cbv beta iota zeta delta [bind ret raise when print fst snd logger_level handlers stdout].
    eexists. split; [reflexivity|]. by split.
Qed.

Ltac run_script :=
  cbv beta iota zeta delta
    [bind ret raise when emit local global call get_item set_item get_local put_local
     record_operation read_fs query_fs try_except fst snd].

Lemma results_of_lookup pol ok err det :
  results_of pol ok err det !! success_key pol = Some (VInt ok) /\
  results_of pol ok err det !! "errors" = Some (VInt err).
Proof. by destruct pol. Qed.

Lemma check_disk_usage_keys os p w :
  exists d b,
    fst (check_disk_usage os p w) = Return d /\
    fs (snd (check_disk_usage os p w)) = fs w /\
    d !! "success" = Some b /\
    (pytruth b = true ->
     is_Some (d !! "percent") /\ is_Some (d !! "used") /\ is_Some (d !! "total")).
Proof.
  destruct (check_disk_usage_run os p w) as (lg & ->). simpl.
  destruct (disk_usage os p (fs w)) as [[[total used] free]|e].
  - destruct (total =? 0); eexists _, _; (split; [reflexivity|]); (split; [done|]);
      (split; [reflexivity|]); intros _; by repeat split.
  - eexists _, _. split; [reflexivity|]. split; [done|]. split; [reflexivity|]. done.
Qed.

(** The body of the [try] always returns: the three operations are called
    one after the other, each on the tree the one before has left. *)
Lemma daily_operations_run os target lo w g v ops :
  v !! "operations" = Some (ROperations ops) ->
  exists wa wb ok1 err1 det1 ok2 err2 det2 d wf gf,
    daily_operations os target lo (w, (g, v))
    = (Return tt,
       (wf, (gf,
          <["operations" :=
              ROperations
                (assign "disk_usage" (Numbers d)
                   (assign "empty_dir_cleanup"
                      (Counters (results_of (CleanupEmptyDirs target true) ok2 err2 det2))
                      (assign "old_file_cleanup"
                         (Counters (results_of (CleanupOldFiles target 30) ok1 err1 det1))
                         ops)))]> v))) /\
    fs wa = fs w /\ clock wa = clock w /\
    fst (cleanup_old_files target 30 wa)
      = Return (results_of (CleanupOldFiles target 30) ok1 err1 det1) /\
    fs wb = fs (snd (cleanup_old_files target 30 wa)) /\
    fst (cleanup_empty_dirs target true wb)
      = Return (results_of (CleanupEmptyDirs target true) ok2 err2 det2) /\
    fs wf = fs (snd (cleanup_empty_dirs target true wb)) /\
    (exists wc, fs wc = fs wf /\ fst (check_disk_usage os [] wc) = Return d) /\
    logger_level gf = logger_level g /\ handlers gf = handlers g /\
    (lo = false -> stdout gf = stdout g).
Proof.
  intros Hops.
  set (wa := mkWorld (fs w) (log w ++ [Log INFO "Starting old file cleanup..." []]) (clock w)).
  destruct (run_counters (CleanupOldFiles target 30) wa) as [(ok1 & err1 & det1 & E1) _].
  change (run (CleanupOldFiles target 30) wa) with (cleanup_old_files target 30 wa) in E1.
  destruct (cleanup_old_files target 30 wa) as [o1 wb0] eqn:R1. simpl in E1. subst o1.
  set (wb := mkWorld (fs wb0) (log wb0 ++ [Log INFO "Starting empty directory cleanup..." []])
               (clock wb0)).
  destruct (run_counters (CleanupEmptyDirs target true) wb) as [(ok2 & err2 & det2 & E2) _].
  change (run (CleanupEmptyDirs target true) wb) with (cleanup_empty_dirs target true wb) in E2.
  destruct (cleanup_empty_dirs target true wb) as [o2 wc0] eqn:R2. simpl in E2. subst o2.
  set (wc := mkWorld (fs wc0) (log wc0 ++ [Log INFO "Checking system health..." []])
               (clock wc0)).
  destruct (check_disk_usage_keys os [] wc) as (d & b & E3 & F3 & K1 & K2).
  destruct (check_disk_usage os [] wc) as [o3 wd0] eqn:R3. simpl in E3, F3. subst o3.
  destruct (results_of_lookup (CleanupOldFiles target 30) ok1 err1 det1) as [L1 L2].
  destruct (results_of_lookup (CleanupEmptyDirs target true) ok2 err2 det2) as [L3 L4].
  simpl in L1, L3.
  exists wa, wb, ok1, err1, det1, ok2, err2, det2, d.
  unfold daily_operations. run_script. fold wa. rewrite R1.
  run_script. rewrite Hops. run_script. fold wb. rewrite R2.
  run_script. rewrite lookup_insert_eq. run_script. fold wc. rewrite R3.
  run_script. rewrite lookup_insert_eq. run_script.
  rewrite !insert_insert_eq.
  destruct lo.
  - match goal with
    | |- context [print_report ?a ?b ?c (?w0, (?g0, ?v0))] =>
        destruct (print_report_returns a b c w0 g0 v0 _ _ _ _ _ L1 L2 L3 L4 K1 K2)
          as (gf & -> & Hl & Hh)
    end.
    run_script. eexists _, gf. split; [reflexivity|]. simpl.
    repeat split; try done. exists wc. by rewrite R3.
  - eexists _, g. split; [reflexivity|]. simpl.
    repeat split; try done. exists wc. by rewrite R3.
Qed.

(** A run of the script on a target that exists, once the logger is made
    and the working directory is known. *)
Lemma run_daily_cleanup_run os target lo w g w1 g1 cwd :
  automation_logger os default_log_dir (w, g) = (Return tt, (w1, g1)) ->
  path_exists target (fs w1) = true ->
  getcwd os (fs w1) = Return cwd ->
  exists wa wb ok1 err1 det1 ok2 err2 det2 d wf gf,
    run_daily_cleanup os target lo (w, g)
    = (Return ({[ "success" := RBool true; "timestamp" := RStr cwd;
                  "operations" :=
                    ROperations
                      [("old_file_cleanup",
                        Counters (results_of (CleanupOldFiles target 30) ok1 err1 det1));
                       ("empty_dir_cleanup",
                        Counters (results_of (CleanupEmptyDirs target true) ok2 err2 det2));
                       ("disk_usage", Numbers d)] ]} : Report),
       (wf, gf)) /\
    fs wa = fs w1 /\ clock wa = clock w /\
    fst (cleanup_old_files target 30 wa)
      = Return (results_of (CleanupOldFiles target 30) ok1 err1 det1) /\
    fs wb = fs (snd (cleanup_old_files target 30 wa)) /\
    fst (cleanup_empty_dirs target true wb)
      = Return (results_of (CleanupEmptyDirs target true) ok2 err2 det2) /\
    fs wf = fs (snd (cleanup_empty_dirs target true wb)) /\
    (exists wc, fs wc = fs wf /\ fst (check_disk_usage os [] wc) = Return d) /\
    logger_level gf = logger_level g1 /\ handlers gf = handlers g1 /\
    (lo = false -> stdout gf = stdout g).
Proof.
  intros Hlog Hex Hcwd.
  destruct (automation_logger_returns _ _ _ _ _ _ Hlog) as (_ & _ & _ & _ & Hc & _ & _ & Hso).
  unfold run_daily_cleanup, procedure. run_script. rewrite Hlog.
  run_script. cbn [fs log clock]. rewrite Hex. cbn [negb fs log clock]. rewrite Hcwd.
  match goal with
  | |- context [daily_operations os target lo (?w0, (?g0, ?v0))] =>
      destruct (daily_operations_run os target lo w0 g0 v0 [] eq_refl)
        as (wa & wb & ok1 & err1 & det1 & ok2 & err2 & det2 & d & wf & gf
            & -> & H1 & H2 & H3 & H4 & H5 & H6 & H7 & H8 & H9 & H10)
  end.
  exists wa, wb, ok1, err1, det1, ok2, err2, det2, d, wf, gf.
  split; [reflexivity|]. simpl in H1, H2.
  repeat split; try done.
  - by rewrite H2.
  - intros ->. by rewrite H10.
Qed.







(** The sweep of [cleanup_empty_dirs] keeps the files, and adds none. *)
Lemma cleanup_empty_dirs_files d recursive w q m :
  lookup_path q (fs (snd (cleanup_empty_dirs d recursive w))) = Some (File m)
  <-> lookup_path q (fs w) = Some (File m).
Proof.
  destruct (cleanup_empty_dirs_fold d recursive w) as (xs & _ & ->).
  destruct (rmdir_fold_keeps xs (fs w)) as [K1 K2]. cbv zeta in K1, K2. split.
  - intros H. apply K2 in H as (n & Hn & Em & Ek).
    destruct n as [m0|m0 es0]; [|done]. simpl in Em. by subst m0.
  - apply K1.
Qed.



(** A directory that holds no file has an empty directory in it, or is
    one. *)
Lemma dir_has_empty_leaf n :
  is_dir_node n = true ->
  (forall r m, lookup_path r n <> Some (File m)) ->
  exists r m, lookup_path r n = Some (Dir m []).
Proof.
  induction n as [m|m es IH] using node_ind; [done|]. intros _ Hnf.
  destruct es as [|[k v] es]; [by exists [], m|].
  apply Forall_cons in IH as [IHv _]. simpl in IHv.
  assert (Hk : forall r, lookup_path (k :: r) (Dir m ((k, v) :: es)) = lookup_path r v).
  { intros r. simpl. by rewrite String.eqb_refl. }
  destruct v as [mv|mv esv].
  - destruct (Hnf [k] mv). by rewrite Hk.
  - destruct IHv as (r & m' & Hr); [done| |].
    + intros r m' Hr. apply (Hnf (k :: r) m'). by rewrite Hk.
    + exists (k :: r), m'. by rewrite Hk.
Qed.

(** One step of the sweep of [cleanup_old_files] leaves the tree or unlinks
    the entry. *)
Lemma unlink_step_tree cutoff t x :
  tree_step (is_old_file cutoff) os_unlink t x = t \/
  (tree_step (is_old_file cutoff) os_unlink t x = detach x t /\
   exists m, lookup_path x t = Some (File m)).
Proof.
  unfold tree_step. destruct (is_old_file cutoff x t); [|by left].
  destruct (os_unlink_cases x t) as [(e & ->)|(-> & m & Hm & _)]; [by left|right; eauto].
Qed.

(** Every inode met after the sweep was there before it. *)
Lemma unlink_fold_nodes cutoff xs : forall t,
  (forall x, x ∈ xs -> x <> []) ->
  forall q n', lookup_path q (fold_left (tree_step (is_old_file cutoff) os_unlink) xs t)
               = Some n' ->
  exists n, lookup_path q t = Some n /\ node_meta n = node_meta n' /\
            is_dir_node n = is_dir_node n'.
Proof.
  induction xs as [|x xs IH]; intros t Hne q n'; simpl; [eauto|].
  intros H. apply IH in H as (n1 & H1 & Em & Ek); [|intros y Hy; apply Hne; by right].
  destruct (unlink_step_tree cutoff t x) as [E|[E _]]; rewrite E in H1; [eauto|].
  apply lookup_detach_Some in H1 as (n & Hn & Em' & Ek' & _); [|apply Hne; by left].
  exists n. split; [done|]. split; congruence.
Qed.

(** X21. When every file below the target is older than 30 days and nothing
    at or below the target is immutable, nor the directory that holds it,
    [run_daily_cleanup] removes the target directory itself: the files are
    unlinked first, and the sweep for empty directories, which takes the
    target last, then finds every directory empty when it comes to it. *)
Theorem daily_cleanup_removes_a_stale_target
    (os : OS) (target_dir : path) (log_output : bool)
    (w w1 : World) (g g1 : Process) (cwd : string) :
  automation_logger os default_log_dir (w, g) = (Return tt, (w1, g1)) ->
  getcwd os (fs w1) = Return cwd ->
  ~ target_dir `prefix_of` default_log_dir ->
  target_dir <> [] ->
  is_dir target_dir (fs w1) = true ->
  (forall c r m, lookup_path (target_dir ++ c :: r) (fs w1) = Some (File m) ->
     st_mtime m < clock w - 30 * 86400 /\ immutable m = false) ->
  (forall r m es, lookup_path (target_dir ++ r) (fs w1) = Some (Dir m es) ->
     immutable m = false) ->
  immutable_at (parent target_dir) (fs w1) = false ->
  path_exists target_dir
    (fs (fst (snd (run_daily_cleanup os target_dir log_output (w, g))))) = false.
Proof.
  intros Hlog Hcwd _ Hroot Hdir Hfiles Hdirs Hpar.
  assert (Hex : path_exists target_dir (fs w1) = true) by (by apply is_dir_exists).
  destruct (run_daily_cleanup_run os target_dir log_output w g w1 g1 cwd Hlog Hex Hcwd)
    as (wa & wb & ok1 & err1 & det1 & ok2 & err2 & det2 & d & wf & gf
        & -> & H1 & H2 & _ & H4 & _ & H6 & _).
  simpl. rewrite H6.
  set (t3 := fs (snd (cleanup_empty_dirs target_dir true wb))).
  (* every inode of the final tree was in the tree the logger left *)
  assert (Hback : forall q n3, lookup_path q t3 = Some n3 ->
            exists n1, lookup_path q (fs w1) = Some n1 /\
                       node_meta n1 = node_meta n3 /\ is_dir_node n1 = is_dir_node n3).
  { intros q n3 Hq. subst t3.
    destruct (cleanup_empty_dirs_fold target_dir true wb) as (xs & _ & E). rewrite E in Hq.
    destruct (rmdir_fold_keeps xs (fs wb)) as [_ K2]. cbv zeta in K2.
    apply K2 in Hq as (n2 & Hn2 & Em2 & Ek2).
    rewrite H4 in Hn2. rewrite cleanup_old_files_tree in Hn2 by (by rewrite H1).
    apply unlink_fold_nodes in Hn2 as (n1 & Hn1 & Em1 & Ek1).
    - rewrite H1 in Hn1. exists n1. split; [done|]. split; congruence.
    - intros x Hx. apply rglob_star_sound in Hx as [(c & r & ->) _]. by destruct target_dir. }
  (* no file is left below the target *)
  assert (Hnofile : forall c r m, lookup_path (target_dir ++ c :: r) t3 <> Some (File m)).
  { intros c r m Hq. subst t3. apply cleanup_empty_dirs_files in Hq. rewrite H4 in Hq.
    destruct (cleanup_old_files_effect target_dir 30 wa (target_dir ++ c :: r) m) as [Hf _].
    cbv zeta in Hf. apply Hf in Hq as [Hq Hn]. rewrite H1 in Hq, Hn. rewrite H2 in Hn.
    apply Hn. destruct (Hfiles c r m Hq) as [Hold Him].
    split; [eauto|]. split; [done|]. split; [done|].
    rewrite parent_app_cons. unfold immutable_at.
    assert (Hd : is_dir (target_dir ++ parent (c :: r)) (fs w1) = true).
    { rewrite <- parent_app_cons.
      rewrite (parent_name (target_dir ++ c :: r)) in Hq by (by destruct target_dir).
      unfold is_dir. rewrite lookup_path_app in Hq.
      by destruct (lookup_path (parent (target_dir ++ c :: r)) (fs w1)) as [[?|? ?]|]. }
    apply is_dir_lookup in Hd as (md & esd & Hd). rewrite Hd. simpl. by eapply Hdirs. }
  unfold path_exists. destruct (lookup_path target_dir t3) as [n3|] eqn:E3; [|done]. exfalso.
  destruct (Hback _ _ E3) as (n1 & Hn1 & _ & Ek).
  apply is_dir_lookup in Hdir as (m1 & es1 & Hd1). rewrite Hd1 in Hn1.
  injection Hn1 as <-. simpl in Ek.
  destruct (dir_has_empty_leaf n3) as (r & m' & Hleaf); [done| |].
  { intros [|c r] m Hr; [by destruct n3|].
    apply (Hnofile c r m). by rewrite lookup_path_app, E3. }
  assert (Hl3 : lookup_path (target_dir ++ r) t3 = Some (Dir m' []))
    by (by rewrite lookup_path_app, E3).
  destruct (empty_dir_left_is_refused target_dir wb (target_dir ++ r) m')
    as [Hnil|[Him|Hip]]; [by exists r|exact Hl3| | |].
  - by destruct target_dir.
  - destruct (Hback _ _ Hl3) as (n1 & Hn1 & Em & Ek1).
    destruct n1 as [?|m1' es1']; [done|]. simpl in Em. subst m1'.
    by rewrite (Hdirs _ _ _ Hn1) in Him.
  - fold t3 in Hip. unfold immutable_at in Hip.
    destruct (lookup_path (parent (target_dir ++ r)) t3) as [np|] eqn:Ep; [|done].
    destruct (Hback _ _ Ep) as (np1 & Hnp1 & Em & Ek1). rewrite <- Em in Hip.
    destruct r as [|c r].
    + rewrite app_nil_r in Hnp1. unfold immutable_at in Hpar. rewrite Hnp1 in Hpar. congruence.
    + rewrite parent_app_cons in Hnp1, Ep.
      assert (Hd : is_dir (target_dir ++ parent (c :: r)) t3 = true).
      { rewrite <- parent_app_cons.
        rewrite (parent_name (target_dir ++ c :: r)) in Hl3 by (by destruct target_dir).
        unfold is_dir. rewrite lookup_path_app in Hl3.
        by destruct (lookup_path (parent (target_dir ++ c :: r)) t3) as [[?|? ?]|]. }
      unfold is_dir in Hd. rewrite Ep in Hd. destruct np as [?|mp esp]; [done|].
      destruct np1 as [?|mp1 esp1]; [done|].
      simpl in Hip. by rewrite (Hdirs _ _ _ Hnp1) in Hip.
Qed.

Lemma daily_cleanup_removes_a_stale_target_witness :
  path_exists ["tmp"]
    (fs (fst (snd (run_daily_cleanup sample_os ["tmp"] true
                     (world_of tree_stale 3000000, fresh_process))))) = false.
Proof.
  set (w := world_of tree_stale 3000000).
  set (made := automation_logger sample_os default_log_dir (w, fresh_process)).
  assert (Hmade : made = (Return tt, (fst (snd made), snd (snd made))))
    by (vm_compute; reflexivity).
  assert (Htmp : forall r, lookup_path ("tmp" :: r) (fs (fst (snd made)))
                           = lookup_path r (folder [("a.log", plain 10 5); ("b.log", plain 20 7)]))
    by (intros r; vm_compute; reflexivity).
  apply (daily_cleanup_removes_a_stale_target sample_os ["tmp"] true
           w (fst (snd made)) fresh_process (snd (snd made)) "/root").
  - exact Hmade.
  - reflexivity.
  - intros [k Hk]. discriminate Hk.
  - discriminate.
  - vm_compute. reflexivity.
  - intros c r m. change (["tmp"] ++ c :: r) with ("tmp" :: c :: r). rewrite Htmp.
    unfold folder, plain. cbn [lookup_path assoc].
    destruct (String.eqb "a.log" c).
    + destruct r; cbn [lookup_path]; [|done].
      intros [= <-]. split; [vm_compute; reflexivity|done].
    + destruct (String.eqb "b.log" c); [|done].
      destruct r; cbn [lookup_path]; [|done].
      intros [= <-]. split; [vm_compute; reflexivity|done].
  - intros r m es. change (["tmp"] ++ r) with ("tmp" :: r). rewrite Htmp.
    unfold folder, plain.
    destruct r as [|c r]; [by intros [= <- _]|]. cbn [lookup_path assoc].
    destruct (String.eqb "a.log" c); [by destruct r|].
    destruct (String.eqb "b.log" c); [by destruct r|done].
  - vm_compute. reflexivity.
Defined.
